(** * tattle: a SWIM-style membership and failure-detection core

    Shallow embedding of [tattle/timer.py], [tattle/state.py] and
    [tattle/cluster.py], and the properties of the membership state
    machine, the suspicion timers, the probe paths and the piggy-backed
    gossip that are stated about them.

    Conventions of the embedding:
    - a Python [int] is a [Z]; a count that the code only compares with a
      length is a [nat];
    - a Python [float] is a carrier [F] with the operations of the class
      [PyFloat]; nothing is assumed about them, so every statement holds
      for IEEE doubles as for any other interpretation;
    - a [dict] is a [gmap], a [list] is a [list] read with [!!] and
      written with [<[i:=x]>];
    - [Node] objects live in an object store and are named by address, so
      the membership list and the name map alias the same records;
    - a raised exception is a value [Raise e]; state mutated before the
      raise stays mutated, as in Python;
    - the handlers of [NodeManager] hold the manager's lock from entry to
      exit and never suspend inside, so each one is an atomic state
      transformer;
    - randomness and the wall clock are inputs: a raw draw [rnd] and the
      field [clock] of the runtime. *)

From stdpp Require Import gmap strings list fin_maps.
From Equations Require Import Equations.
From Stdlib Require Import ZArith.
From Stdlib.Strings Require Import Byte.
From Stdlib Require QArith Qround.

Local Open Scope Z_scope.

(** ** Python values shared by the three modules *)

(** The built-in exceptions the modelled code can raise. *)
Inductive exn :=
| TypeError | NotImplementedError | AssertionError | KeyError
| AttributeError | IndexError | ValueError | RuntimeError
| TimeoutError | InvalidStateError.

Inductive result (A : Type) :=
| Ok (a : A)
| Raise (e : exn).
Arguments Ok {A} a.
Arguments Raise {A} e.

#[global] Instance exn_eq_dec : EqDecision exn.
Proof. solve_decision. Defined.

Definition is_Ok {A} (r : result A) : bool :=
  match r with Ok _ => true | Raise _ => false end.

Abbreviation bytes := (list byte).

(** Python floats: the arithmetic the code performs on them, and the two
    functions of [math] it calls. *)
Class PyFloat (F : Type) := {
  float_of_int : Z -> F;
  fmul : F -> F -> F;
  fsub : F -> F -> F;
  fltb : F -> F -> bool;
  math_log10 : F -> F;
  math_ceil : F -> Z
}.

(** [max(a, b)] of Python: the first argument unless the second is
    strictly greater. *)
Definition py_max {F} `{PyFloat F} (a b : F) : F :=
  if fltb a b then b else a.

(** [random.randint(a, b)]: [ValueError] on an empty range, else a value
    of [a..b] picked by the raw draw. *)
Definition random_randint (rnd : nat) (a b : Z) : result Z :=
  if b <? a then Raise ValueError
  else Ok (a + Z.of_nat rnd `mod` (b - a + 1)).

(** [random.choice(seq)]: [IndexError] on an empty sequence. *)
Definition random_choice {A} (rnd : nat) (seq : list A) : result A :=
  match seq !! (rnd mod length seq)%nat with
  | Some x => Ok x
  | None => Raise IndexError
  end.

(** ** timer.py *)

Module timer.
Section timer.
Context {F : Type} `{PyFloat F}.
(** [C]: what the callback [func] closes over. *)
Context {C : Type}.

(** A handle of [loop.call_later], and what became of it. *)
Inductive handle_state := Pending | Cancelled | Fired.

Record Handle := {
  h_delay : F;
  h_callback : C;
  h_state : handle_state
}.

(** The ambient runtime: [time.time()], the handles the event loop has
    given out, a handle being its index, and the coroutines the loop
    holds as tasks that have not started, oldest first. *)
Record Runtime := {
  clock : F;
  handles : list Handle;
  tasks : list C
}.

Record Timer := {
  func : C;
  time : F;
  _handle : option nat;
  _started : option F
}.

(** [Timer.__init__(callback, time, loop)] *)
Definition Timer_init (callback : C) (t : F) : Timer :=
  {| func := callback; time := t; _handle := None; _started := None |}.

(** [loop.call_later(delay, callback)] *)
Definition call_later (delay : F) (cb : C) (rt : Runtime) : nat * Runtime :=
  (length (handles rt),
   {| clock := clock rt;
      handles := handles rt ++
        [{| h_delay := delay; h_callback := cb; h_state := Pending |}];
      tasks := tasks rt |}).

(** [handle.cancel()]: a handle that has not run will not run. *)
Definition cancel (h : nat) (rt : Runtime) : Runtime :=
  match handles rt !! h with
  | Some e =>
      match h_state e with
      | Pending =>
          {| clock := clock rt;
             handles := <[h := {| h_delay := h_delay e;
                                  h_callback := h_callback e;
                                  h_state := Cancelled |}]> (handles rt);
             tasks := tasks rt |}
      | _ => rt
      end
  | None => rt
  end.

(** A method of a Timer: what it returns or raises, and the Timer and
    the runtime it leaves. *)
Definition method : Type := Timer -> Runtime -> result unit * (Timer * Runtime).

(** [Timer.start] *)
Definition start : method := fun t rt =>
  match _handle t with
  | Some _ => (Raise AssertionError, (t, rt))
  | None =>
      let started := clock rt in
      let '(h, rt') := call_later (time t) (func t) rt in
      (Ok tt, ({| func := func t; time := time t;
                  _handle := Some h; _started := Some started |}, rt'))
  end.

(** [Timer.stop] *)
Definition stop : method := fun t rt =>
  let rt' := match _handle t with
             | Some h => cancel h rt
             | None => rt
             end in
  (Ok tt, ({| func := func t; time := time t;
              _handle := None; _started := _started t |}, rt')).

(** [Timer.reset] *)
Definition reset (d : F) : method := fun t rt =>
  let '(_, (t1, rt1)) := stop t rt in
  let t2 := {| func := func t1; time := d;
               _handle := _handle t1; _started := _started t1 |} in
  start t2 rt1.

(** [Timer.remaining] *)
Definition remaining (t : Timer) (rt : Runtime) : F :=
  match _started t with
  | None => time t
  | Some s => py_max (float_of_int 0) (fsub (time t) (fsub (clock rt) s))
  end.

(** The event loop runs the handle [h] when its delay has passed:
    [Timer._run] calls [func] and makes the coroutine it returns a task
    of the loop.  A handle that is cancelled or has run is not run. *)
Definition run_handle (h : nat) (rt : Runtime) : Runtime :=
  match handles rt !! h with
  | Some e =>
      match h_state e with
      | Pending =>
          {| clock := clock rt;
             handles := <[h := {| h_delay := h_delay e;
                                  h_callback := h_callback e;
                                  h_state := Fired |}]> (handles rt);
             tasks := tasks rt ++ [h_callback e] |}
      | _ => rt
      end
  | None => rt
  end.

(** A client's calls on one Timer instance, and what each one does:
    the outcome of each call in turn. *)
Inductive call := CallStart | CallStop | CallReset (d : F).

Definition run_call (c : call) : method :=
  match c with
  | CallStart => start
  | CallStop => stop
  | CallReset d => reset d
  end.

Fixpoint run_calls (cs : list call) (t : Timer) (rt : Runtime)
  : list (result unit) * (Timer * Runtime) :=
  match cs with
  | [] => ([], (t, rt))
  | c :: cs' =>
      let '(r, (t', rt')) := run_call c t rt in
      let '(rs, final) := run_calls cs' t' rt' in
      (r :: rs, final)
  end.

End timer.
Arguments Handle : clear implicits.
Arguments Runtime : clear implicits.
Arguments Timer : clear implicits.
Arguments call : clear implicits.
End timer.

(** ** Collaborators of the core that are not among the sources *)

Module messages.
(** Modelled from the spec: [messages.py] is missing; an address is a
    host and a port, read as [addr.address] and [addr.port]. *)
Record InternetAddress := {
  address : string;
  port : Z
}.

(** Modelled from the spec: [messages.py] is missing; an entry of a SYNC
    message has the fields of the spec's wire table.  [status] comes off
    the wire and is any string. *)
Record RemoteNodeState := {
  rs_node : string;
  rs_addr : InternetAddress;
  rs_version : Z;
  rs_incarnation : Z;
  rs_status : string;
  rs_metadata : gmap string string
}.

(** Modelled from the spec: [messages.py] is missing; the message kinds
    and their fields are those of the spec's wire table, in the order
    the constructor calls of the sources give them. *)
Inductive Message :=
| AliveMessage (node : string) (addr : InternetAddress)
               (incarnation : Z) (metadata : gmap string string)
| SuspectMessage (node : string) (incarnation : Z) (sender : string)
| DeadMessage (node : string) (incarnation : Z) (sender : string)
| PingMessage (seq : Z) (target : string) (sender : string)
              (sender_addr : InternetAddress)
| PingRequestMessage (seq : Z) (target : string) (target_addr : InternetAddress)
                     (sender : string) (sender_addr : InternetAddress)
| AckMessage (seq : Z) (sender : string)
| NackMessage (seq : Z) (sender : string)
| UserMessage (data : bytes) (sender : string)
| SyncMessage (remote_state : list RemoteNodeState).

(** [MessageSerializer.encode(msg, encryption=key)]: the codec is out
    of the core; it is a parameter. *)
Class Serializer := { encode : Message -> bytes }.
End messages.

Module sequence.
(** Modelled from the spec: [sequence.py] is missing; the counter
    starts at 0, [increment()] returns the next value, the first one
    being 1, and wraps at 64 bits. *)
Definition Sequence := Z.
Definition Sequence_init : Sequence := 0.
Definition increment (s : Sequence) : Z * Sequence :=
  let v := (s + 1) `mod` 2 ^ 64 in (v, v).
End sequence.

Module queue.
(** Modelled from the spec: [queue.py] is missing; an item of the queue
    has a subject, an encoded payload and a count of transmissions. *)
Record BroadcastItem := {
  subject : string;
  payload : bytes;
  transmits : Z
}.

Definition BroadcastQueue := list BroadcastItem.

(** Modelled from the spec: [queue.py] is missing; [push(subject,
    payload)] enqueues a new item and replaces any item with the same
    subject. *)
Definition push (subj : string) (data : bytes) (q : BroadcastQueue)
  : BroadcastQueue :=
  filter (fun i => subject i ≠ subj) q
    ++ [{| subject := subj; payload := data; transmits := 0 |}].

(** [fetch(max_transmits, max_bytes)]: the batch of payloads and the
    queue left; its policy is a parameter. *)
Class Fetch := { fetch : Z -> Z -> BroadcastQueue -> list bytes * BroadcastQueue }.
End queue.

Module config.
(** Modelled from the spec: [config.py] is missing; the fields are those
    the sources read, under the names they read them by. *)
Record Configuration {F : Type} := {
  node_name : string;
  node_address : option string;
  node_port : option Z;
  bind_address : option string;
  bind_port : option Z;
  probe_interval : F;
  probe_timeout : F;
  probe_indirect_nodes : nat;
  sync_interval : F;
  sync_nodes : nat;
  retransmit_multi : Z;
  suspicion_min_timeout_multi : Z;
  suspicion_max_timeout_multi : Z
}.
Arguments Configuration : clear implicits.
End config.

(** ** state.py *)

Module state.
Import messages queue config.

Definition NODE_STATUS_ALIVE : string := "ALIVE".
Definition NODE_STATUS_SUSPECT : string := "SUSPECT".
Definition NODE_STATUS_DEAD : string := "DEAD".

(** [_calculate_expected_confirmations(n, multi)] *)
Definition _calculate_expected_confirmations (n multi : Z) : Z :=
  let k := multi - 2 in
  if n - 2 <? k then 0 else k.

(** [_calculate_suspicion_timeout(n, interval)] *)
Definition _calculate_suspicion_timeout {F} `{PyFloat F} (n : Z) (interval : F) : F :=
  let scale := py_max (float_of_int 1) (math_log10 (float_of_int (Z.max 1 n))) in
  fmul scale interval.

(** [select_random_nodes(k, nodes, predicate=None)].  [rnd c] is the raw
    draw behind the [random.choice] of the iteration that starts with
    counter [c].  The loop returns [selected] together with the final
    counter [c], which is the number of iterations it ran. *)
Section select_random_nodes.
Context {A : Type} `{EqDecision A}.

Equations? select_loop (k : nat) (nodes : list A) (predicate_ : option (A -> bool))
    (rnd : nat -> nat) (selected : list A) (c : nat)
  : result (list A) * nat
  by wf (3 * length nodes + 1 - c)%nat lt :=
  select_loop k nodes predicate_ rnd selected c
    with decide ((length selected < k)%nat ∧ (c ≤ 3 * length nodes)%nat) := {
    | right _ => (Ok selected, c)
    | left _ with random_choice (rnd c) nodes := {
      | Raise e => (Raise e, S c)
      | Ok node with decide (node ∈ selected) := {
        | left _ => select_loop k nodes predicate_ rnd selected (S c)
        | right _ with predicate_ := {
          | Some p with p node := {
            | false => select_loop k nodes predicate_ rnd selected (S c)
            | true => select_loop k nodes predicate_ rnd (selected ++ [node]) (S c) }
          | None => select_loop k nodes predicate_ rnd (selected ++ [node]) (S c) } } } }.
Proof. all: lia. Qed.

Definition select_random_nodes (k : nat) (nodes : list A)
    (predicate_ : option (A -> bool)) (rnd : nat -> nat) : result (list A) :=
  let k := Nat.min k (length nodes) in
  fst (select_loop k nodes predicate_ rnd [] 0%nat).

(** The number of iterations of the [while] loop of the same call. *)
Definition select_random_nodes_iterations (k : nat) (nodes : list A)
    (predicate_ : option (A -> bool)) (rnd : nat -> nat) : nat :=
  let k := Nat.min k (length nodes) in
  snd (select_loop k nodes predicate_ rnd [] 0%nat).
End select_random_nodes.

(** [Node]: the membership record of one process.  The transient stream
    handles of the TCP sync are not part of the membership state and are
    left out. *)
Record Node {F : Type} := {
  name : string;
  host : string;
  port : Z;
  incarnation : Z;
  version : Z;
  metadata : gmap string string;
  _status : string;
  _status_change_timestamp : option F
}.
Arguments Node : clear implicits.

(** A [Node] object is named by its address in the object store. *)
Abbreviation loc := nat.

Section NodeManager.
Context {F : Type} `{PyFloat F} `{Serializer}.

(** [Node.__init__(name, host, port, incarnation=0, status=DEAD)] *)
Definition Node_init (name_ host_ : string) (port_ : Z) : Node F :=
  {| name := name_; host := host_; port := port_; incarnation := 0;
     version := 1; metadata := ∅; _status := NODE_STATUS_DEAD;
     _status_change_timestamp := None |}.

#[global] Instance Node_inhabited : Inhabited (Node F) :=
  populate (Node_init "" "" 0).

Definition set_incarnation (v : Z) (x : Node F) : Node F :=
  {| name := name x; host := host x; port := port x; incarnation := v;
     version := version x; metadata := metadata x; _status := _status x;
     _status_change_timestamp := _status_change_timestamp x |}.

Definition set_metadata (v : gmap string string) (x : Node F) : Node F :=
  {| name := name x; host := host x; port := port x;
     incarnation := incarnation x; version := version x; metadata := v;
     _status := _status x;
     _status_change_timestamp := _status_change_timestamp x |}.

(** [Node._set_status(value)], with [now] the reading of [time.time()] *)
Definition _set_status (value : string) (now : F) (x : Node F) : Node F :=
  if decide (value ≠ _status x) then
    {| name := name x; host := host x; port := port x;
       incarnation := incarnation x; version := version x;
       metadata := metadata x; _status := value;
       _status_change_timestamp := Some now |}
  else x.

(** [SuspectNode]; the timer's callback [_handle_suspect_timer] closes
    over the suspected node. *)
Record SuspectNode := {
  timer : timer.Timer F loc;
  k : Z;
  min_timeout : F;
  max_timeout : F;
  confirmations : gmap string unit
}.

(** The state of a [NodeManager], the object store of its [Node]s, the
    log of the events it emitted through the event manager, and the
    runtime of its timers. *)
Record NodeManager := {
  config : Configuration F;
  _queue : BroadcastQueue;
  _events : list (string * loc);
  _leaving : bool;
  store : list (Node F);
  _nodes : list loc;
  _nodes_map : gmap string loc;
  _suspect_nodes : gmap string SuspectNode;
  _local_node_name : option string;
  _local_node_seq : sequence.Sequence;
  runtime : timer.Runtime F loc
}.

(** [NodeManager.__init__(config, queue, events, loop)] *)
Definition NodeManager_init (cfg : Configuration F) (now : F) : NodeManager :=
  {| config := cfg; _queue := []; _events := []; _leaving := false;
     store := []; _nodes := []; _nodes_map := ∅; _suspect_nodes := ∅;
     _local_node_name := None; _local_node_seq := sequence.Sequence_init;
     runtime := {| timer.clock := now; timer.handles := [];
                   timer.tasks := [] |} |}.

Definition with_queue (v : BroadcastQueue) (s : NodeManager) : NodeManager :=
  {| config := config s; _queue := v; _events := _events s;
     _leaving := _leaving s; store := store s; _nodes := _nodes s;
     _nodes_map := _nodes_map s; _suspect_nodes := _suspect_nodes s;
     _local_node_name := _local_node_name s;
     _local_node_seq := _local_node_seq s; runtime := runtime s |}.

Definition with_events (v : list (string * loc)) (s : NodeManager) : NodeManager :=
  {| config := config s; _queue := _queue s; _events := v;
     _leaving := _leaving s; store := store s; _nodes := _nodes s;
     _nodes_map := _nodes_map s; _suspect_nodes := _suspect_nodes s;
     _local_node_name := _local_node_name s;
     _local_node_seq := _local_node_seq s; runtime := runtime s |}.

Definition with_leaving (v : bool) (s : NodeManager) : NodeManager :=
  {| config := config s; _queue := _queue s; _events := _events s;
     _leaving := v; store := store s; _nodes := _nodes s;
     _nodes_map := _nodes_map s; _suspect_nodes := _suspect_nodes s;
     _local_node_name := _local_node_name s;
     _local_node_seq := _local_node_seq s; runtime := runtime s |}.

Definition with_store (v : list (Node F)) (s : NodeManager) : NodeManager :=
  {| config := config s; _queue := _queue s; _events := _events s;
     _leaving := _leaving s; store := v; _nodes := _nodes s;
     _nodes_map := _nodes_map s; _suspect_nodes := _suspect_nodes s;
     _local_node_name := _local_node_name s;
     _local_node_seq := _local_node_seq s; runtime := runtime s |}.

Definition with_nodes (v : list loc) (s : NodeManager) : NodeManager :=
  {| config := config s; _queue := _queue s; _events := _events s;
     _leaving := _leaving s; store := store s; _nodes := v;
     _nodes_map := _nodes_map s; _suspect_nodes := _suspect_nodes s;
     _local_node_name := _local_node_name s;
     _local_node_seq := _local_node_seq s; runtime := runtime s |}.

Definition with_nodes_map (v : gmap string loc) (s : NodeManager) : NodeManager :=
  {| config := config s; _queue := _queue s; _events := _events s;
     _leaving := _leaving s; store := store s; _nodes := _nodes s;
     _nodes_map := v; _suspect_nodes := _suspect_nodes s;
     _local_node_name := _local_node_name s;
     _local_node_seq := _local_node_seq s; runtime := runtime s |}.

Definition with_suspect_nodes (v : gmap string SuspectNode) (s : NodeManager)
  : NodeManager :=
  {| config := config s; _queue := _queue s; _events := _events s;
     _leaving := _leaving s; store := store s; _nodes := _nodes s;
     _nodes_map := _nodes_map s; _suspect_nodes := v;
     _local_node_name := _local_node_name s;
     _local_node_seq := _local_node_seq s; runtime := runtime s |}.

Definition with_local_node_name (v : option string) (s : NodeManager)
  : NodeManager :=
  {| config := config s; _queue := _queue s; _events := _events s;
     _leaving := _leaving s; store := store s; _nodes := _nodes s;
     _nodes_map := _nodes_map s; _suspect_nodes := _suspect_nodes s;
     _local_node_name := v;
     _local_node_seq := _local_node_seq s; runtime := runtime s |}.

Definition with_local_node_seq (v : sequence.Sequence) (s : NodeManager)
  : NodeManager :=
  {| config := config s; _queue := _queue s; _events := _events s;
     _leaving := _leaving s; store := store s; _nodes := _nodes s;
     _nodes_map := _nodes_map s; _suspect_nodes := _suspect_nodes s;
     _local_node_name := _local_node_name s;
     _local_node_seq := v; runtime := runtime s |}.

Definition with_runtime (v : timer.Runtime F loc) (s : NodeManager) : NodeManager :=
  {| config := config s; _queue := _queue s; _events := _events s;
     _leaving := _leaving s; store := store s; _nodes := _nodes s;
     _nodes_map := _nodes_map s; _suspect_nodes := _suspect_nodes s;
     _local_node_name := _local_node_name s;
     _local_node_seq := _local_node_seq s; runtime := v |}.

(** *** The monad of the manager's methods: state and exceptions *)

Definition M (A : Type) : Type := NodeManager -> result A * NodeManager.

#[global] Instance M_ret : MRet M := fun A a s => (Ok a, s).
#[global] Instance M_bind : MBind M := fun A B f m s =>
  match m s with
  | (Ok a, s') => f a s'
  | (Raise e, s') => (Raise e, s')
  end.

Definition get : M NodeManager := fun s => (Ok s, s).
Definition modify (f : NodeManager -> NodeManager) : M unit :=
  fun s => (Ok tt, f s).
Definition raise {A} (e : exn) : M A := fun s => (Raise e, s).
Definition when (b : bool) (m : M unit) : M unit :=
  if b then m else mret tt.

(** Reading and writing the attributes of the object at an address. *)
Definition node_at (s : NodeManager) (l : loc) : Node F := store s !!! l.
Definition deref (l : loc) : M (Node F) := fun s => (Ok (node_at s l), s).
Definition setattr (l : loc) (f : Node F -> Node F) : M unit :=
  modify (fun s => with_store (<[l := f (node_at s l)]> (store s)) s).
Definition time_time : M F := fun s => (Ok (timer.clock (runtime s)), s).

(** [NodeManager.local_node] *)
Definition local_node (s : NodeManager) : option loc :=
  match _local_node_name s with
  | Some n => _nodes_map s !! n
  | None => None
  end.

(** [NodeManager._swap_random_nodes] *)
Definition _swap_random_nodes (rnd : nat) : M unit :=
  s ← get;
  let len := length (_nodes s) in
  match random_randint rnd 0 (Z.of_nat len - 1) with
  | Raise e => raise e
  | Ok i =>
      let random_index := Z.to_nat i in
      match _nodes s !! random_index, _nodes s !! (len - 1)%nat with
      | Some random_node, Some last_node =>
          modify (with_nodes
            (<[(len - 1)%nat := random_node]>
               (<[random_index := last_node]> (_nodes s))))
      | _, _ => raise IndexError
      end
  end.

(** [NodeManager._send_broadcast] *)
Definition _send_broadcast (node : loc) (msg : Message) : M unit :=
  nd ← deref node;
  modify (fun s => with_queue (push (name nd) (encode msg) (_queue s)) s).

(** [NodeManager._broadcast_alive] *)
Definition _broadcast_alive (node : loc) : M unit :=
  nd ← deref node;
  let alive := AliveMessage (name nd)
                 {| address := host nd; messages.port := port nd |}
                 (incarnation nd) (metadata nd) in
  _send_broadcast node alive.

(** [self.local_node.name]: [AttributeError] when there is no local
    node yet. *)
Definition local_node_name_attr : M string :=
  s ← get;
  match local_node s with
  | Some l => mret (name (node_at s l))
  | None => raise AttributeError
  end.

(** [NodeManager._broadcast_suspect] *)
Definition _broadcast_suspect (node : loc) : M unit :=
  nd ← deref node;
  sender ← local_node_name_attr;
  _send_broadcast node (SuspectMessage (name nd) (incarnation nd) sender).

(** [NodeManager._broadcast_dead] *)
Definition _broadcast_dead (node : loc) : M unit :=
  nd ← deref node;
  sender ← local_node_name_attr;
  _send_broadcast node (DeadMessage (name nd) (incarnation nd) sender).

(** [NodeManager._refute] *)
Definition _refute : M unit :=
  s ← get;
  let '(v, sq) := sequence.increment (_local_node_seq s) in
  modify (with_local_node_seq sq);;
  match local_node s with
  | None => raise AttributeError
  | Some l =>
      setattr l (set_incarnation v);;
      _broadcast_alive l
  end.

(** Modelled from the spec: [event.py] is missing; [emit(event, node)]
    hands [node] to the handlers of [event], which are outside the
    manager: the emission is logged. *)
Definition emit (event : string) (node : loc) : M unit :=
  modify (fun s => with_events (_events s ++ [(event, node)]) s).

(** A method call on the Timer object a suspect record refers to. *)
Definition timer_call (nm : string) (m : timer.method) : M unit :=
  s ← get;
  match _suspect_nodes s !! nm with
  | None => raise KeyError
  | Some sn =>
      let '(r, (t', rt')) := m (timer sn) (runtime s) in
      modify (fun s =>
        with_runtime rt'
          (with_suspect_nodes
             (<[nm := {| timer := t'; k := k sn; min_timeout := min_timeout sn;
                         max_timeout := max_timeout sn;
                         confirmations := confirmations sn |}]>
                (_suspect_nodes s)) s));;
      match r with
      | Ok _ => mret tt
      | Raise e => raise e
      end
  end.

(** [NodeManager._create_suspect_node] *)
Definition _create_suspect_node (node : loc) : M unit :=
  s ← get;
  nd ← deref node;
  if decide (is_Some (_suspect_nodes s !! name nd)) then mret tt
  else
    let n := Z.of_nat (length (_nodes s)) in
    let k_ := _calculate_expected_confirmations n
                (suspicion_min_timeout_multi (config s)) in
    let interval := probe_interval (config s) in
    let min_timeout_ :=
      fmul (float_of_int (suspicion_min_timeout_multi (config s)))
           (_calculate_suspicion_timeout n interval) in
    let max_timeout_ :=
      fmul (float_of_int (suspicion_max_timeout_multi (config s))) min_timeout_ in
    let timeout := if k_ <? 1 then max_timeout_ else min_timeout_ in
    let timer_ := timer.Timer_init node timeout in
    modify (fun s =>
      with_suspect_nodes
        (<[name nd := {| timer := timer_; k := k_; min_timeout := min_timeout_;
                         max_timeout := max_timeout_; confirmations := ∅ |}]>
           (_suspect_nodes s)) s);;
    timer_call (name nd) timer.start.

(** [NodeManager._cancel_suspect_node] *)
Definition _cancel_suspect_node (node : loc) : M unit :=
  nd ← deref node;
  timer_call (name nd) timer.stop;;
  modify (fun s => with_suspect_nodes (delete (name nd) (_suspect_nodes s)) s).

(** [NodeManager.on_node_alive] *)
Definition on_node_alive (name_ : string) (incarnation_ : Z) (host_ : string)
    (port_ : Z) (metadata_ : gmap string string) (bootstrap : bool)
    (rnd : nat) : M unit :=
  s ← get;
  current_node ←
    match _nodes_map s !! name_ with
    | Some l => mret l
    | None =>
        let l := length (store s) in
        modify (fun s => with_store (store s ++ [Node_init name_ host_ port_]) s);;
        modify (fun s => with_nodes_map (<[name_ := l]> (_nodes_map s)) s);;
        modify (fun s => with_nodes (_nodes s ++ [l]) s);;
        _swap_random_nodes rnd;;
        mret l
    end;
  cur ← deref current_node;
  if bool_decide (host cur ≠ host_) || bool_decide (port cur ≠ port_) then mret tt
  else
    s ← get;
    let is_local_node := bool_decide (local_node s = Some current_node) in
    if negb is_local_node && (incarnation_ <=? incarnation cur) then mret tt
    else if is_local_node && (incarnation_ <? incarnation cur) then mret tt
    else
      when (bool_decide (_status cur = NODE_STATUS_SUSPECT))
           (_cancel_suspect_node current_node);;
      cur ← deref current_node;
      let old_status := _status cur in
      setattr current_node (set_incarnation incarnation_);;
      now ← time_time;
      setattr current_node (_set_status NODE_STATUS_ALIVE now);;
      cur ← deref current_node;
      setattr current_node (set_metadata (metadata_ ∪ metadata cur));;
      _broadcast_alive current_node;;
      when (bool_decide (old_status ≠ NODE_STATUS_ALIVE))
           (emit "node.alive" current_node).

(** [NodeManager.on_node_dead] *)
Definition on_node_dead (name_ : string) (incarnation_ : Z) : M unit :=
  s ← get;
  match _nodes_map s !! name_ with
  | None => mret tt
  | Some current_node =>
      cur ← deref current_node;
      if bool_decide (_status cur = NODE_STATUS_DEAD) then mret tt
      else if incarnation_ <? incarnation cur then mret tt
      else if bool_decide (local_node s = Some current_node) && negb (_leaving s)
      then _refute
      else
        when (bool_decide (_status cur = NODE_STATUS_SUSPECT))
             (_cancel_suspect_node current_node);;
        cur ← deref current_node;
        let old_status := _status cur in
        setattr current_node (set_incarnation incarnation_);;
        now ← time_time;
        setattr current_node (_set_status NODE_STATUS_DEAD now);;
        _broadcast_dead current_node;;
        when (bool_decide (old_status ≠ NODE_STATUS_DEAD))
             (emit "node.dead" current_node)
  end.

(** [NodeManager.on_node_suspect] *)
Definition on_node_suspect (name_ : string) (incarnation_ : Z)
    (metadata_ : gmap string string) : M unit :=
  s ← get;
  match _nodes_map s !! name_ with
  | None => mret tt
  | Some current_node =>
      cur ← deref current_node;
      if bool_decide (_status cur = NODE_STATUS_DEAD) then mret tt
      else if incarnation_ <? incarnation cur then mret tt
      else if bool_decide (local_node s = Some current_node) then _refute
      else
        let old_status := _status cur in
        setattr current_node (set_incarnation incarnation_);;
        now ← time_time;
        setattr current_node (_set_status NODE_STATUS_SUSPECT now);;
        _create_suspect_node current_node;;
        cur ← deref current_node;
        setattr current_node (set_metadata (metadata_ ∪ metadata cur));;
        _broadcast_suspect current_node;;
        when (bool_decide (old_status ≠ NODE_STATUS_SUSPECT))
             (emit "node.suspect" current_node)
  end.

(** [NodeManager.set_local_node] *)
Definition set_local_node (local_node_name local_node_host : string)
    (local_node_port : Z) (metadata_ : gmap string string) (rnd : nat) : M unit :=
  modify (with_local_node_name (Some local_node_name));;
  s ← get;
  let '(incarnation_, sq) := sequence.increment (_local_node_seq s) in
  modify (with_local_node_seq sq);;
  on_node_alive local_node_name incarnation_ local_node_host local_node_port
                metadata_ true rnd.

(** [NodeManager.leave_local_node] *)
Definition leave_local_node : M unit :=
  s ← get;
  if bool_decide (_local_node_name s = None) then raise AssertionError
  else
    modify (with_leaving true);;
    s ← get;
    match local_node s with
    | None => raise AttributeError
    | Some l => on_node_dead (name (node_at s l)) (incarnation (node_at s l))
    end.

(** The callback [_handle_suspect_timer] of a suspicion timer, closed
    over [node]. *)
Definition _handle_suspect_timer (node : loc) : M unit :=
  nd ← deref node;
  on_node_dead (name nd) (incarnation nd).

(** The event loop starts the oldest task: the coroutine of a suspicion
    timer that has fired. *)
Definition run_task : M unit :=
  s ← get;
  match timer.tasks (runtime s) with
  | [] => mret tt
  | node :: rest =>
      modify (with_runtime
        {| timer.clock := timer.clock (runtime s);
           timer.handles := timer.handles (runtime s);
           timer.tasks := rest |});;
      _handle_suspect_timer node
  end.

(** *** Calls from code that passes its arguments positionally *)

(** A positional argument of a call. *)
Inductive pyarg :=
| PStr (s : string)
| PInt (z : Z)
| PDict (d : gmap string string)
| PBool (b : bool).

(** Binding the arguments of [on_node_suspect(self, name, incarnation,
    metadata)]: three are required, no parameter has a default. *)
Definition call_on_node_suspect (args : list pyarg) : M unit :=
  match args with
  | [PStr name_; PInt incarnation_; PDict metadata_] =>
      on_node_suspect name_ incarnation_ metadata_
  | _ => raise TypeError
  end.

(** Binding the arguments of [on_node_alive(self, name, incarnation,
    host, port, metadata, bootstrap=False)]: five are required. *)
Definition call_on_node_alive (args : list pyarg) (rnd : nat) : M unit :=
  match args with
  | [PStr name_; PInt incarnation_; PStr host_; PInt port_; PDict metadata_] =>
      on_node_alive name_ incarnation_ host_ port_ metadata_ false rnd
  | [PStr name_; PInt incarnation_; PStr host_; PInt port_; PDict metadata_;
     PBool bootstrap] =>
      on_node_alive name_ incarnation_ host_ port_ metadata_ bootstrap rnd
  | _ => raise TypeError
  end.

End NodeManager.
Arguments SuspectNode : clear implicits.
Arguments NodeManager : clear implicits.
Arguments M : clear implicits.

(** *** The manager as a sequence and a mapping *)

Section NodeManager_access.
Context {F : Type}.

(** [NodeManager.__len__] *)
Definition __len__ (s : NodeManager F) : nat := length (_nodes s).

(** [list.__getitem__(i)] for an [int]: a negative index counts from the
    end, [IndexError] out of range. *)
Definition list_getitem {A} (l : list A) (i : Z) : result A :=
  let j := if i <? 0 then i + Z.of_nat (length l) else i in
  if j <? 0 then Raise IndexError
  else match l !! Z.to_nat j with
       | Some x => Ok x
       | None => Raise IndexError
       end.

(** [NodeManager.__getitem__(index)]: a [str] is looked up in the name
    map ([KeyError] when absent), anything else indexes the ordered
    list; a [bool] is the [int] 0 or 1, a [dict] is no index. *)
Definition __getitem__ (index : pyarg) : M F loc :=
  s ← get;
  match index with
  | PStr n =>
      match _nodes_map s !! n with
      | Some l => mret l
      | None => raise KeyError
      end
  | PInt i =>
      match list_getitem (_nodes s) i with
      | Ok l => mret l
      | Raise e => raise e
      end
  | PBool b =>
      match list_getitem (_nodes s) (if b then 1 else 0) with
      | Ok l => mret l
      | Raise e => raise e
      end
  | PDict _ => raise TypeError
  end.
End NodeManager_access.

End state.

(** ** cluster.py *)

Module cluster.
Import messages queue config state.

(** [_calculate_transmit_limit(n, m)] *)
Definition _calculate_transmit_limit {F} `{PyFloat F} (n m : Z) : Z :=
  let scale := math_ceil (math_log10 (float_of_int (n + 1))) in
  scale * m.

Section Cluster.
Context {F : Type} `{PyFloat F} `{Serializer} `{Fetch}.

(** The state of a [Cluster]: its [NodeManager] (which owns the
    broadcast queue both share), the futures of the outstanding
    probes, the probe sequence, what the UDP listener is bound to, what
    [network.default_ip_address()] finds, and the datagrams handed to
    [UDPListener.sendto], oldest first.  A future holds [None] until
    [set_result] fills it. *)
Record Cluster := {
  _nodes : NodeManager F;
  _probe_status : gmap Z (option bool);
  _probe_seq : sequence.Sequence;
  udp_local_address : string;
  udp_local_port : Z;
  default_ip_address : option string;
  udp_out : list (bytes * string * Z)
}.

Definition with__nodes (v : NodeManager F) (c : Cluster) : Cluster :=
  {| _nodes := v; _probe_status := _probe_status c; _probe_seq := _probe_seq c;
     udp_local_address := udp_local_address c;
     udp_local_port := udp_local_port c;
     default_ip_address := default_ip_address c; udp_out := udp_out c |}.

Definition with_probe_status (v : gmap Z (option bool)) (c : Cluster) : Cluster :=
  {| _nodes := _nodes c; _probe_status := v; _probe_seq := _probe_seq c;
     udp_local_address := udp_local_address c;
     udp_local_port := udp_local_port c;
     default_ip_address := default_ip_address c; udp_out := udp_out c |}.

Definition with_probe_seq (v : sequence.Sequence) (c : Cluster) : Cluster :=
  {| _nodes := _nodes c; _probe_status := _probe_status c; _probe_seq := v;
     udp_local_address := udp_local_address c;
     udp_local_port := udp_local_port c;
     default_ip_address := default_ip_address c; udp_out := udp_out c |}.

Definition with_udp_out (v : list (bytes * string * Z)) (c : Cluster) : Cluster :=
  {| _nodes := _nodes c; _probe_status := _probe_status c;
     _probe_seq := _probe_seq c;
     udp_local_address := udp_local_address c;
     udp_local_port := udp_local_port c;
     default_ip_address := default_ip_address c; udp_out := v |}.

(** The monad of the cluster's coroutines between two suspensions. *)
Definition CM (A : Type) : Type := Cluster -> result A * Cluster.

#[global] Instance CM_ret : MRet CM := fun A a c => (Ok a, c).
#[global] Instance CM_bind : MBind CM := fun A B f m c =>
  match m c with
  | (Ok a, c') => f a c'
  | (Raise e, c') => (Raise e, c')
  end.

Definition cget : CM Cluster := fun c => (Ok c, c).
Definition cmodify (f : Cluster -> Cluster) : CM unit := fun c => (Ok tt, f c).
Definition craise {A} (e : exn) : CM A := fun c => (Raise e, c).

(** A method of the node manager, run on [self._nodes]. *)
Definition nodes_call {A} (m : M F A) : CM A := fun c =>
  let '(r, s') := m (_nodes c) in (r, with__nodes s' c).

(** [try: body  except E: handler  else: orelse], the other exceptions
    passing. *)
Definition try_except_else {A B} (body : CM A) (E : exn) (handler : CM B)
    (orelse : A -> CM B) : CM B := fun c =>
  match body c with
  | (Raise e, c') => if decide (e = E) then handler c' else (Raise e, c')
  | (Ok a, c') => orelse a c'
  end.

(** [try: body  except Exception: LOG.exception(...)] *)
Definition try_log (body : CM unit) : CM unit := fun c =>
  match body c with
  | (Raise _, c') => (Ok tt, c')
  | r => r
  end.

(** [Cluster.local_node_name] *)
Definition local_node_name (c : Cluster) : string :=
  node_name (config (_nodes c)).

(** [Cluster.local_node_address] *)
Definition local_node_address : CM string :=
  c ← cget;
  match node_address (config (_nodes c)) with
  | Some a => mret a
  | None =>
      match bind_address (config (_nodes c)) with
      | Some b =>
          if decide (b = "0.0.0.0") then
            match default_ip_address c with
            | None => craise RuntimeError
            | Some ip => mret ip
            end
          else mret b
      | None => mret (udp_local_address c)
      end
  end.

(** [Cluster.local_node_port] *)
Definition local_node_port : CM Z :=
  c ← cget;
  match node_port (config (_nodes c)) with
  | Some p => mret p
  | None =>
      match bind_port (config (_nodes c)) with
      | Some p => mret p
      | None => mret (udp_local_port c)
      end
  end.

(** [UDPListener.sendto(data, address, port)]: an empty datagram is not
    handed to the socket. *)
Definition sendto (data : bytes) (address_ : string) (port_ : Z) : CM unit :=
  match data with
  | [] => mret tt
  | _ => cmodify (fun c => with_udp_out (udp_out c ++ [(data, address_, port_)]) c)
  end.

(** [Cluster._send_udp_message] *)
Definition _send_udp_message (host_ : string) (port_ : Z) (msg : Message)
  : CM unit :=
  let buf := encode msg in
  c ← cget;
  let max_transmits :=
    _calculate_transmit_limit (Z.of_nat (length (state._nodes (_nodes c))))
                              (retransmit_multi (config (_nodes c))) in
  let max_bytes := 512 - Z.of_nat (length buf) in
  let '(gossip, q') := fetch max_transmits max_bytes (_queue (_nodes c)) in
  cmodify (fun c => with__nodes (with_queue q' (_nodes c)) c);;
  let buf := foldl (fun b g => b ++ g) buf gossip in
  sendto buf host_ port_.

(** [self._probe_seq.increment()] *)
Definition probe_seq_increment : CM Z :=
  c ← cget;
  let '(v, sq) := sequence.increment (_probe_seq c) in
  cmodify (with_probe_seq sq);;
  mret v.

(** [Cluster._wait_for_probe(seq)] up to its suspension in
    [asyncio.wait_for]: a fresh future is stored under [seq]. *)
Definition _wait_for_probe_begin (seq : Z) : CM unit :=
  cmodify (fun c => with_probe_status (<[seq := None]> (_probe_status c)) c).

(** [Cluster._wait_for_probe(seq)] from its wake-up: the future's
    result when it was resolved, [TimeoutError] when the wait ended
    with the future unresolved; the entry is removed on both paths
    ([finally]). *)
Definition _wait_for_probe_resume (seq : Z) : CM bool :=
  c ← cget;
  match _probe_status c !! seq with
  | None => craise KeyError
  | Some fut =>
      cmodify (fun c => with_probe_status (delete seq (_probe_status c)) c);;
      match fut with
      | Some r => mret r
      | None => craise TimeoutError
      end
  end.

(** [Cluster._handle_probe_result] *)
Definition _handle_probe_result (node : loc) (result_ : bool) (rnd : nat)
  : CM unit :=
  if result_ then
    c ← cget;
    let nd := node_at (_nodes c) node in
    if bool_decide (_status nd = NODE_STATUS_SUSPECT) then
      nodes_call (call_on_node_alive
        [PStr (name nd); PInt (incarnation nd); PStr (host nd);
         PInt (state.port nd)] rnd)
    else mret tt
  else craise NotImplementedError.

(** [Cluster._handle_probe_timeout] *)
Definition _handle_probe_timeout (node : loc) : CM unit :=
  c ← cget;
  let nd := node_at (_nodes c) node in
  nodes_call (call_on_node_suspect [PStr (name nd); PInt (incarnation nd)]).

(** [Cluster._probe_node_indirect_via] up to its suspension on the
    waiter; returns the probe's sequence number. *)
Definition _probe_node_indirect_via_begin (target_node indirect_node : loc)
  : CM Z :=
  next_seq ← probe_seq_increment;
  c ← cget;
  let tgt := node_at (_nodes c) target_node in
  let via := node_at (_nodes c) indirect_node in
  a ← local_node_address;
  p ← local_node_port;
  let ping_req :=
    PingRequestMessage next_seq (name tgt)
      {| address := host tgt; messages.port := state.port tgt |}
      (local_node_name c)
      {| address := a; messages.port := p |} in
  _send_udp_message (host via) (state.port via) ping_req;;
  _wait_for_probe_begin next_seq;;
  mret next_seq.

(** [Cluster._probe_node_indirect_via] from the wake-up of its waiter. *)
Definition _probe_node_indirect_via_resume (target_node : loc) (seq : Z)
    (rnd : nat) : CM unit :=
  try_except_else (_wait_for_probe_resume seq) TimeoutError
    (_handle_probe_timeout target_node)
    (fun result_ => _handle_probe_result target_node result_ rnd).

(** [Cluster._probe_node_indirect] up to the suspension of the probes
    it gathers: the relays are drawn, and each probe runs as a task of
    its own up to its suspension, an error in one being logged. *)
Definition _probe_node_indirect_begin (target_node : loc) (k : nat)
    (rnd : nat -> nat) : CM unit :=
  c ← cget;
  let _find_nodes (l : loc) : bool :=
    let n := node_at (_nodes c) l in
    bool_decide (name n ≠ name (node_at (_nodes c) target_node))
    && bool_decide (name n ≠ local_node_name c)
    && bool_decide (_status n = NODE_STATUS_ALIVE) in
  match select_random_nodes k (state._nodes (_nodes c)) (Some _find_nodes) rnd with
  | Raise e => craise e
  | Ok relays =>
      foldr (fun indirect_node rest =>
               try_log (_probe_node_indirect_via_begin target_node indirect_node;;
                        mret tt);;
               rest)
            (mret tt) relays
  end.

(** [Cluster._probe_node] up to its suspension on the waiter; returns
    the probe's sequence number. *)
Definition _probe_node_begin (target_node : loc) : CM Z :=
  next_seq ← probe_seq_increment;
  c ← cget;
  let tgt := node_at (_nodes c) target_node in
  a ← local_node_address;
  p ← local_node_port;
  let ping := PingMessage next_seq (name tgt) (local_node_name c)
                {| address := a; messages.port := p |} in
  _send_udp_message (host tgt) (state.port tgt) ping;;
  _wait_for_probe_begin next_seq;;
  mret next_seq.

(** [Cluster._probe_node] from the wake-up of its waiter to the
    suspension of the indirect probes, when it gets that far.  [rnd0]
    feeds the handlers, [rnd] the choice of relays. *)
Definition _probe_node_resume (target_node : loc) (seq : Z) (rnd0 : nat)
    (rnd : nat -> nat) : CM unit :=
  result_ ←
    try_except_else (_wait_for_probe_resume seq) TimeoutError
      (_handle_probe_timeout target_node;; mret false)
      (fun result_ => _handle_probe_result target_node result_ rnd0;;
                      mret result_);
  if result_ : bool then mret tt
  else
    c ← cget;
    try_log (_probe_node_indirect_begin target_node
               (probe_indirect_nodes (config (_nodes c))) rnd).

(** [Cluster._merge_remote_state]: the handler call an entry of a SYNC
    is routed to, if any. *)
Inductive handler_call :=
| OnNodeAlive (args : list pyarg)
| OnNodeSuspect (args : list pyarg)
| OnNodeDead (args : list pyarg).

Definition _merge_remote_state_route (remote_state : RemoteNodeState)
  : option handler_call :=
  if decide (rs_status remote_state = NODE_STATUS_ALIVE) then
    Some (OnNodeAlive [PStr (rs_node remote_state);
                       PInt (rs_incarnation remote_state);
                       PStr (address (rs_addr remote_state));
                       PInt (messages.port (rs_addr remote_state));
                       PDict (rs_metadata remote_state)])
  else if decide (rs_status remote_state = NODE_STATUS_SUSPECT) then
    Some (OnNodeSuspect [PStr (rs_node remote_state);
                         PInt (rs_incarnation remote_state);
                         PDict (rs_metadata remote_state)])
  else if decide (rs_status remote_state = NODE_STATUS_DEAD) then
    Some (OnNodeSuspect [PStr (rs_node remote_state);
                         PInt (rs_incarnation remote_state);
                         PDict (rs_metadata remote_state)])
  else None.

(** Binding the arguments of [on_node_dead(self, name, incarnation)]. *)
Definition call_on_node_dead (args : list pyarg) : M F unit :=
  match args with
  | [PStr name_; PInt incarnation_] => on_node_dead name_ incarnation_
  | _ => raise TypeError
  end.

Definition run_handler_call (h : handler_call) (rnd : nat) : M F unit :=
  match h with
  | OnNodeAlive args => call_on_node_alive args rnd
  | OnNodeSuspect args => call_on_node_suspect args
  | OnNodeDead args => call_on_node_dead args
  end.

Definition _merge_remote_state (remote_state : RemoteNodeState) (rnd : nat)
  : CM unit :=
  match _merge_remote_state_route remote_state with
  | Some h => nodes_call (run_handler_call h rnd)
  | None => mret tt
  end.

(** [Cluster._forward_indirect_probe_result] *)
Definition _forward_indirect_probe_result (seq : Z) (sender_addr : InternetAddress)
  : CM unit :=
  c ← cget;
  let ack := AckMessage seq (local_node_name c) in
  _send_udp_message (address sender_addr) (messages.port sender_addr) ack.

(** [Cluster._forward_indirect_probe_timeout] *)
Definition _forward_indirect_probe_timeout (seq : Z) (sender_addr : InternetAddress)
  : CM unit :=
  c ← cget;
  let ack := NackMessage seq (local_node_name c) in
  _send_udp_message (address sender_addr) (messages.port sender_addr) ack.

(** [Cluster._handle_ping_request_message] for a PING-REQ with the
    fields [seq], [node], [node_addr] and [sender_addr], up to its
    suspension on the waiter; returns the relay's own sequence number. *)
Definition _handle_ping_request_message_begin (seq : Z) (node : string)
    (node_addr sender_addr : InternetAddress) : CM Z :=
  next_seq ← probe_seq_increment;
  c ← cget;
  a ← local_node_address;
  p ← local_node_port;
  let ping := PingMessage next_seq node (local_node_name c)
                {| address := a; messages.port := p |} in
  _send_udp_message (address node_addr) (messages.port node_addr) ping;;
  _wait_for_probe_begin next_seq;;
  mret next_seq.

(** [Cluster._handle_ping_request_message] from the wake-up of its
    waiter: the timeout is logged, the call that would forward it is
    commented out; any result is forwarded as an ACK. *)
Definition _handle_ping_request_message_resume (seq : Z)
    (sender_addr : InternetAddress) (next_seq : Z) : CM unit :=
  try_except_else (_wait_for_probe_resume next_seq) TimeoutError
    (mret tt)
    (fun _ => _forward_indirect_probe_result seq sender_addr).

(** [Cluster._handle_ack_message] *)
Definition _handle_ack_message (ack_seq : Z) : CM unit :=
  c ← cget;
  match _probe_status c !! ack_seq with
  | Some None =>
      cmodify (fun c => with_probe_status (<[ack_seq := Some true]> (_probe_status c)) c)
  | Some (Some _) => craise InvalidStateError
  | None => mret tt
  end.

(** [Cluster._handle_nack_message] *)
Definition _handle_nack_message (ack_seq : Z) : CM unit :=
  c ← cget;
  match _probe_status c !! ack_seq with
  | Some None =>
      cmodify (fun c => with_probe_status (<[ack_seq := Some false]> (_probe_status c)) c)
  | Some (Some _) => craise InvalidStateError
  | None => mret tt
  end.

End Cluster.
Arguments Cluster : clear implicits.
Arguments CM : clear implicits.

(** *** The scheduled activities and the handlers of PING and SYNC *)

Section Scheduler.
Context {F : Type} `{PyFloat F} `{Serializer} `{Fetch}.

(** The test of [_do_probe] on the node under the cursor: the local node
    and the DEAD nodes are skipped. *)
Definition _do_probe_skip (c : Cluster F) (node : loc) : bool :=
  if bool_decide (local_node (_nodes c) = Some node) then true
  else if bool_decide (_status (node_at (_nodes c) node) = NODE_STATUS_DEAD)
       then true
       else false.

(** The [while] loop of [Cluster._do_probe].  The cursor
    [self._probe_index] is threaded beside the record: the loop returns
    the node to probe, if any, and the cursor it leaves. *)
Equations? _do_probe_loop (c : Cluster F) (probe_index checked : nat)
  : result (option loc) * nat
  by wf (2 * (length (state._nodes (_nodes c)) - checked)
         + (if (length (state._nodes (_nodes c)) <=? probe_index)%nat
            then 1 else 0))%nat lt :=
  _do_probe_loop c probe_index checked
    with decide (checked < length (state._nodes (_nodes c)))%nat := {
    | right _ => (Ok None, probe_index)
    | left _
      with decide (length (state._nodes (_nodes c)) ≤ probe_index)%nat := {
      | left _ => _do_probe_loop c 0%nat checked
      | right _ with state._nodes (_nodes c) !! probe_index := {
        | None => (Raise IndexError, probe_index)
        | Some node with _do_probe_skip c node := {
          | true => _do_probe_loop c (S probe_index) (S checked)
          | false => (Ok (Some node), S probe_index) } } } }.
Proof.
  - destruct (Nat.leb_spec (length (state._nodes (_nodes c))) 0); try lia.
    destruct (Nat.leb_spec (length (state._nodes (_nodes c))) probe_index); lia.
  - destruct (Nat.leb_spec (length (state._nodes (_nodes c))) (S probe_index));
    destruct (Nat.leb_spec (length (state._nodes (_nodes c))) probe_index); lia.
Qed.

(** [Cluster._do_probe] up to the creation of the probe's task: the node
    whose probe it schedules, if any, and the cursor it leaves. *)
Definition _do_probe (c : Cluster F) (probe_index : nat)
  : result (option loc) * nat :=
  _do_probe_loop c probe_index 0%nat.

(** [Cluster._do_sync] up to the exchange over TCP: the node it syncs
    with, if any. *)
Definition _do_sync_select (c : Cluster F) (rnd : nat -> nat)
  : result (option loc) :=
  let _find_nodes (l : loc) : bool :=
    let n := node_at (_nodes c) l in
    bool_decide (name n ≠ local_node_name c)
    && bool_decide (_status n ≠ NODE_STATUS_DEAD) in
  match select_random_nodes (sync_nodes (config (_nodes c)))
          (state._nodes (_nodes c)) (Some _find_nodes) rnd with
  | Ok selected => Ok (head selected)
  | Raise e => Raise e
  end.

(** The list [local_state] that [Cluster._send_local_state] sends in a
    SYNC: an entry for each node, in the order of the membership. *)
Definition local_state (c : Cluster F) : list RemoteNodeState :=
  (fun l =>
     let node := node_at (_nodes c) l in
     {| rs_node := name node;
        rs_addr := {| address := host node; messages.port := state.port node |};
        rs_version := version node;
        rs_incarnation := incarnation node;
        rs_status := _status node;
        rs_metadata := metadata node |}) <$> state._nodes (_nodes c).

(** [Cluster._handle_ping_message] for a PING with the fields [seq],
    [node] and [sender_addr]. *)
Definition _handle_ping_message (seq : Z) (node : string)
    (sender_addr : InternetAddress) : CM F unit :=
  c ← cget;
  if bool_decide (node ≠ local_node_name c) then mret tt
  else
    let ack := AckMessage seq (local_node_name c) in
    _send_udp_message (address sender_addr) (messages.port sender_addr) ack.
End Scheduler.

(** *** The dispatch of the messages that arrive over UDP *)

Section Dispatch.
Context {F : Type} `{PyFloat F} `{Serializer} `{Fetch}.

(** [Cluster._handle_alive_message] *)
Definition _handle_alive_message (node : string) (addr : InternetAddress)
    (incarnation_ : Z) (metadata_ : gmap string string) (rnd : nat)
  : CM F unit :=
  nodes_call (on_node_alive node incarnation_ (address addr)
                (messages.port addr) metadata_ false rnd).

(** [Cluster._handle_suspect_message]: the metadata passed on is the
    empty [dict]. *)
Definition _handle_suspect_message (node : string) (incarnation_ : Z)
  : CM F unit :=
  nodes_call (on_node_suspect node incarnation_ ∅).

(** [Cluster._handle_dead_message] *)
Definition _handle_dead_message (node : string) (incarnation_ : Z)
  : CM F unit :=
  nodes_call (on_node_dead node incarnation_).

(** [Cluster._handle_user_message]: the callback that
    [on_user_message] has registered in [self._user_message_callback],
    if any, is awaited, and an exception it raises is logged.  The
    callback is the application's: it is threaded beside the record. *)
Definition _handle_user_message (callback : option (Message -> CM F unit))
    (msg : Message) : CM F unit :=
  match callback with
  | None => mret tt
  | Some cb => try_log (cb msg)
  end.

(** What [_handle_udp_message] has come to when it returns control to
    the event loop: the message is dealt with, or the relay of a
    PING-REQ is suspended on the waiter of its own PING. *)
Inductive dispatched :=
| Handled
| Suspended (next_seq : Z).

(** [Cluster._handle_udp_message] up to its first suspension: the
    handler is chosen by the class of the message, and whatever it
    raises is logged. *)
Definition _handle_udp_message_begin
    (callback : option (Message -> CM F unit)) (msg : Message) (rnd : nat)
  : CM F dispatched := fun c =>
  let handler : CM F dispatched :=
    match msg with
    | AliveMessage node addr incarnation_ metadata_ =>
        _handle_alive_message node addr incarnation_ metadata_ rnd;;
        mret Handled
    | SuspectMessage node incarnation_ _ =>
        _handle_suspect_message node incarnation_;; mret Handled
    | DeadMessage node incarnation_ _ =>
        _handle_dead_message node incarnation_;; mret Handled
    | PingMessage seq node _ sender_addr =>
        _handle_ping_message seq node sender_addr;; mret Handled
    | PingRequestMessage seq node node_addr _ sender_addr =>
        next_seq ← _handle_ping_request_message_begin seq node node_addr
                     sender_addr;
        mret (Suspended next_seq)
    | AckMessage seq _ => _handle_ack_message seq;; mret Handled
    | NackMessage seq _ => _handle_nack_message seq;; mret Handled
    | UserMessage _ _ => _handle_user_message callback msg;; mret Handled
    | SyncMessage _ => mret Handled
    end in
  match handler c with
  | (Raise _, c') => (Ok Handled, c')
  | r => r
  end.
End Dispatch.
End cluster.

(** ** An interpretation to run the model on concrete inputs

    Floats are read as rationals, with [log10] approximated from the bit
    length; the codec writes a tag byte and the subject's name; the
    queue hands out, oldest first, the payloads that fit.  The theorems
    below hold for every interpretation; this one serves to evaluate the
    model on examples. *)


Module sample.
Import messages queue config state cluster.
Import QArith_base.
Local Open Scope Z_scope.

Definition Qlog10 (x : Q) : Q :=
  Qmake ((Z.log2 (Qnum x ^ 16) - Z.log2 (Zpos (Qden x) ^ 16)) * 30103) 1600000.

#[global] Instance Q_float : PyFloat Q := {|
  float_of_int := inject_Z;
  fmul := Qmult;
  fsub := Qminus;
  fltb := fun a b => negb (Qle_bool b a);
  math_log10 := Qlog10;
  math_ceil := Qround.Qceiling
|}.

Definition message_tag (m : Message) : byte :=
  match m with
  | AliveMessage _ _ _ _ => x01
  | SuspectMessage _ _ _ => x02
  | DeadMessage _ _ _ => x03
  | PingMessage _ _ _ _ => x04
  | PingRequestMessage _ _ _ _ _ => x05
  | AckMessage _ _ => x06
  | NackMessage _ _ => x07
  | UserMessage _ _ => x08
  | SyncMessage _ => x09
  end.

Definition message_subject (m : Message) : string :=
  match m with
  | AliveMessage n _ _ _ | SuspectMessage n _ _ | DeadMessage n _ _
  | PingMessage _ n _ _ | PingRequestMessage _ n _ _ _ => n
  | AckMessage _ s | NackMessage _ s | UserMessage _ s => s
  | SyncMessage _ => ""
  end.

#[global] Instance tagged : Serializer := {|
  encode := fun m => message_tag m :: String.list_byte_of_string (message_subject m)
|}.

Fixpoint take_fitting (max_transmits budget : Z) (q : BroadcastQueue)
  : list bytes * BroadcastQueue :=
  match q with
  | [] => ([], [])
  | i :: q' =>
      let len := Z.of_nat (length (payload i)) in
      if len <=? budget then
        let '(out, rest) := take_fitting max_transmits (budget - len) q' in
        let i' := {| subject := subject i; payload := payload i;
                     transmits := transmits i + 1 |} in
        (payload i :: out,
         if max_transmits <? transmits i' then rest else i' :: rest)
      else
        let '(out, rest) := take_fitting max_transmits budget q' in
        (out, i :: rest)
  end.

#[global] Instance oldest_first : Fetch := {|
  fetch := fun max_transmits max_bytes q =>
    if max_transmits <=? 0 then ([], q) else take_fitting max_transmits max_bytes q
|}.

Definition cfg : Configuration Q := {|
  node_name := "a";
  node_address := Some "10.0.0.1";
  node_port := Some 7946;
  bind_address := None;
  bind_port := None;
  probe_interval := inject_Z 1;
  probe_timeout := Qmake 1 2;
  probe_indirect_nodes := 3;
  sync_interval := inject_Z 30;
  sync_nodes := 3;
  retransmit_multi := 4;
  suspicion_min_timeout_multi := 4;
  suspicion_max_timeout_multi := 6
|}.

(** A manager that has just started: only the local node [a]. *)
Definition nm_a : NodeManager Q :=
  snd (set_local_node "a" "10.0.0.1" 7946 ∅ 0 (NodeManager_init cfg (inject_Z 0))).

(** [a] has then heard that [b] is alive, with incarnation 1. *)
Definition nm_ab : NodeManager Q :=
  snd (on_node_alive "b" 1 "10.0.0.2" 7946 ∅ false 0 nm_a).

(** [a] has then heard that [b] is suspect. *)
Definition nm_ab_suspect : NodeManager Q :=
  snd (on_node_suspect "b" 1 ∅ nm_ab).

(** The cluster of [a] around [nm_ab], and the same after it has sent a
    probe to [b], which lives at address 1 of the store. *)
Definition cluster_ab : Cluster Q := {|
  _nodes := nm_ab;
  _probe_status := ∅;
  _probe_seq := sequence.Sequence_init;
  udp_local_address := "10.0.0.1";
  udp_local_port := 7946;
  default_ip_address := None;
  udp_out := []
|}.

Definition cluster_ab_probing : Cluster Q :=
  snd (_probe_node_begin 1%nat cluster_ab).

(** The cluster of [a] relaying a PING-REQ with sequence number 7 that
    [c] sent about [b]; the relay's own PING has sequence number 1. *)
Definition addr_b : InternetAddress :=
  {| address := "10.0.0.2"; messages.port := 7946 |}.
Definition addr_c : InternetAddress :=
  {| address := "10.0.0.3"; messages.port := 7946 |}.
Definition cluster_ab_relaying : Cluster Q :=
  snd (_handle_ping_request_message_begin 7 "b" addr_b addr_c cluster_ab).

(** The same membership under a configuration whose
    [suspicion_min_timeout_multi] is 1. *)
Definition cfg_multi_1 : Configuration Q := {|
  node_name := "a";
  node_address := Some "10.0.0.1";
  node_port := Some 7946;
  bind_address := None;
  bind_port := None;
  probe_interval := inject_Z 1;
  probe_timeout := Qmake 1 2;
  probe_indirect_nodes := 3;
  sync_interval := inject_Z 30;
  sync_nodes := 3;
  retransmit_multi := 4;
  suspicion_min_timeout_multi := 1;
  suspicion_max_timeout_multi := 6
|}.

Definition nm_ab_multi_1 : NodeManager Q :=
  snd (on_node_alive "b" 1 "10.0.0.2" 7946 ∅ false 0
         (snd (set_local_node "a" "10.0.0.1" 7946 ∅ 0
                 (NodeManager_init cfg_multi_1 (inject_Z 0))))).

(** An entry of a SYNC that reports [b] dead. *)
Definition b_reported_dead : RemoteNodeState := {|
  rs_node := "b";
  rs_addr := addr_b;
  rs_version := 1;
  rs_incarnation := 1;
  rs_status := "DEAD";
  rs_metadata := ∅
|}.

(** A Timer that has not been started, for one second and the callback
    7, with a runtime that holds no handle; the same after [start()]. *)
Definition runtime_idle : timer.Runtime Q nat :=
  {| timer.clock := inject_Z 0; timer.handles := []; timer.tasks := [] |}.
Definition timer_idle : timer.Timer Q nat := timer.Timer_init 7%nat (inject_Z 1).
Definition timer_started : timer.Timer Q nat :=
  fst (snd (timer.start timer_idle runtime_idle)).
Definition runtime_started : timer.Runtime Q nat :=
  snd (snd (timer.start timer_idle runtime_idle)).

(** The probe of [b] by [a] once [b] has answered with an ACK. *)
Definition cluster_ab_acked : Cluster Q :=
  snd (_handle_ack_message 1 cluster_ab_probing).

End sample.

(** * Specification vocabulary *)

Import messages queue config state.

Section select_random_nodes_vocabulary.
Context {A : Type}.

(** What an element of a selection owes to the arguments of
    [select_random_nodes]. *)
Definition selectable (nodes : list A) (predicate_ : option (A -> bool))
    (x : A) : Prop :=
  x ∈ nodes ∧ match predicate_ with Some p => p x = true | None => True end.
End select_random_nodes_vocabulary.

Section timer_vocabulary.
Context {F : Type} `{PyFloat F} {C : Type}.

Definition has_handle (t : timer.Timer F C) : bool :=
  match timer._handle t with Some _ => true | None => false end.

(** Whether a Timer holds a handle after the calls [cs], [init] telling
    whether it held one before them. *)
Definition armed (cs : list (timer.call F)) (init : bool) : bool :=
  match last cs with
  | None => init
  | Some timer.CallStop => false
  | Some _ => true
  end.

(** The reading of "start() may only be called once": in a sequence of
    calls on one Timer, every [start()] after an earlier [start()]
    fails its assertion. *)
Definition start_only_once (cs : list (timer.call F)) (t : timer.Timer F C)
    (rt : timer.Runtime F C) : Prop :=
  ∀ i j, (i < j)%nat →
         cs !! i = Some timer.CallStart → cs !! j = Some timer.CallStart →
         fst (timer.run_calls cs t rt) !! j = Some (Raise AssertionError).
End timer_vocabulary.

Section membership_vocabulary.
Context {F : Type} `{PyFloat F} `{Serializer}.
Implicit Types (s : NodeManager F).

(** The suspect table mirrors the statuses: a node of the membership is
    SUSPECT exactly when its name is a key of the table. *)
Definition suspect_iff s : Prop :=
  ∀ l, l ∈ _nodes s →
       (_status (node_at s l) = NODE_STATUS_SUSPECT
        ↔ is_Some (_suspect_nodes s !! name (node_at s l))).

(** The membership is well formed: the name map points at stored
    records that carry the name they are filed under, the ordered list
    holds exactly the addresses of the map, once each, and the keys of
    the suspect table are the names of the SUSPECT members. *)
Record wf s : Prop := {
  wf_map : ∀ n l, _nodes_map s !! n = Some l →
                  ∃ x, store s !! l = Some x ∧ name x = n;
  wf_list : ∀ l, l ∈ _nodes s ↔ ∃ n, _nodes_map s !! n = Some l;
  wf_nodup : NoDup (_nodes s);
  wf_suspect : ∀ n, is_Some (_suspect_nodes s !! n)
                    ↔ ∃ l x, _nodes_map s !! n = Some l
                             ∧ store s !! l = Some x
                             ∧ _status x = NODE_STATUS_SUSPECT
}.

(** Once the local node is named it is a member, [but] standing for the
    name that is about to be added. *)
Definition local_known (but : option string) s : Prop :=
  ∀ n, _local_node_name s = Some n →
       but = Some n ∨ is_Some (_nodes_map s !! n).

(** The invariant of the membership. *)
Definition membership_ok (but : option string) s : Prop :=
  wf s ∧ local_known but s.

(** What advances a [NodeManager]: a call of one of its handlers, with
    any arguments and whether it returns or raises, the expiry of a
    suspicion timer, the start of the task the expiry has made, and the
    passing of time. *)
Inductive advance : NodeManager F → NodeManager F → Prop :=
| adv_alive s name_ incarnation_ host_ port_ metadata_ bootstrap rnd :
    advance s (snd (on_node_alive name_ incarnation_ host_ port_ metadata_
                                  bootstrap rnd s))
| adv_suspect s name_ incarnation_ metadata_ :
    advance s (snd (on_node_suspect name_ incarnation_ metadata_ s))
| adv_dead s name_ incarnation_ :
    advance s (snd (on_node_dead name_ incarnation_ s))
| adv_timer s h :
    advance s (with_runtime (timer.run_handle h (runtime s)) s)
| adv_task s :
    advance s (snd (run_task s))
| adv_set_local s name_ host_ port_ metadata_ rnd :
    advance s (snd (set_local_node name_ host_ port_ metadata_ rnd s))
| adv_leave s :
    advance s (snd (leave_local_node s))
| adv_tick s now :
    advance s (with_runtime {| timer.clock := now;
                               timer.handles := timer.handles (runtime s);
                               timer.tasks := timer.tasks (runtime s) |} s).

(** The states a manager goes through from its construction on. *)
Inductive reachable : NodeManager F → Prop :=
| reach_init cfg now : reachable (NodeManager_init cfg now)
| reach_advance s s' : reachable s → advance s s' → reachable s'.

(** The freshness test of [on_node_alive] fails against the record at
    [l]. *)
Definition alive_is_stale s (l : loc) (incarnation_ : Z) : Prop :=
  if bool_decide (local_node s = Some l)
  then incarnation_ < incarnation (node_at s l)
  else incarnation_ ≤ incarnation (node_at s l).

(** An ALIVE with [incarnation_] for [name_] at [host_:port_] has been
    dealt with: the name is a member whose record has another address or
    an incarnation that is not smaller. *)
Definition alive_settled (name_ : string) (incarnation_ : Z) (host_ : string)
    (port_ : Z) s : Prop :=
  ∃ l, _nodes_map s !! name_ = Some l
       ∧ (host (node_at s l) ≠ host_ ∨ port (node_at s l) ≠ port_
          ∨ incarnation_ ≤ incarnation (node_at s l)).

(** The reading of "accepted only when strictly newer": an ALIVE for a
    member whose incarnation is not greater than the member's leaves
    the member's incarnation, status and metadata as they were. *)
Definition alive_needs_newer s name_ incarnation_ host_ port_ metadata_
    bootstrap rnd : Prop :=
  ∀ l, _nodes_map s !! name_ = Some l →
       ¬ incarnation (node_at s l) < incarnation_ →
       let s' := snd (on_node_alive name_ incarnation_ host_ port_ metadata_
                                    bootstrap rnd s) in
       incarnation (node_at s' l) = incarnation (node_at s l)
       ∧ _status (node_at s' l) = _status (node_at s l)
       ∧ metadata (node_at s' l) = metadata (node_at s l).

(** What a run of [m] from [s] establishes: [Q a] when it returns [a],
    [E] when it raises. *)
Definition wp {A} (m : M F A) (Q : A → NodeManager F → Prop)
    (E : NodeManager F → Prop) s : Prop :=
  match m s with
  | (Ok a, s') => Q a s'
  | (Raise _, s') => E s'
  end.

(** Hoare triples for the manager's monad. *)
Definition hoare {A} (P : NodeManager F → Prop) (m : M F A)
    (Q : A → NodeManager F → Prop) (E : NodeManager F → Prop) : Prop :=
  ∀ s, P s → wp m Q E s.

(** While a handler works on the member [n] at address [l], the rest
    of the membership of [s0] stays as it was. *)
Record frame (s0 : NodeManager F) (n : string) (l : loc) s : Prop := {
  fr_nodes : _nodes s = _nodes s0;
  fr_map : _nodes_map s = _nodes_map s0;
  fr_local : _local_node_name s = _local_node_name s0;
  fr_len : length (store s) = length (store s0);
  fr_lt : (l < length (store s))%nat;
  fr_store : ∀ l', l' ≠ l → store s !! l' = store s0 !! l';
  fr_name : name (node_at s l) = n;
  fr_sus : ∀ m, m ≠ n →
                (is_Some (_suspect_nodes s !! m)
                 ↔ is_Some (_suspect_nodes s0 !! m))
}.

(** The frame, and what is known of the member being worked on: its
    record and whether its name is in the suspect table. *)
Definition at_node (s0 : NodeManager F) (n : string) (l : loc)
    (φ : Node F → bool → Prop) s : Prop :=
  frame s0 n l s
  ∧ φ (node_at s l) (bool_decide (is_Some (_suspect_nodes s !! n))).

(** Two states with the same membership. *)
Definition same_view s s' : Prop :=
  store s' = store s ∧ _nodes s' = _nodes s ∧ _nodes_map s' = _nodes_map s
  ∧ _suspect_nodes s' = _suspect_nodes s
  ∧ _local_node_name s' = _local_node_name s.

(** The state after [on_node_alive] has filed a record for a name it
    did not know, the ordered list being [nodes']. *)
Definition registered (name_ host_ : string) (port_ : Z) (nodes' : list loc)
    s : NodeManager F :=
  with_nodes nodes'
    (with_nodes_map (<[name_ := length (store s)]> (_nodes_map s))
       (with_store (store s ++ [Node_init name_ host_ port_]) s)).

(** The count of expected confirmations as the specification words it. *)
Definition expected_confirmations_floored (n multi : Z) : Z :=
  let k := Z.max 0 (multi - 2) in
  if n - 2 <? k then 0 else k.

(** The reading of "k = max(0, multi - 2), clamped": the record of a
    suspect holds the floored count for the size of the membership. *)
Definition suspect_record_floored s (name_ : string) : Prop :=
  ∀ sn, _suspect_nodes s !! name_ = Some sn →
        k sn = expected_confirmations_floored
                 (Z.of_nat (length (_nodes s)))
                 (suspicion_min_timeout_multi (config s)).

(** The conditions under which [on_node_suspect] and [on_node_dead]
    return at once: the name is not a member, or the member is DEAD, or
    the report carries an incarnation smaller than the member's. *)
Definition report_ignored s (name_ : string) (incarnation_ : Z) : Prop :=
  match _nodes_map s !! name_ with
  | None => True
  | Some l => _status (node_at s l) = NODE_STATUS_DEAD
              ∨ incarnation_ < incarnation (node_at s l)
  end.

(** What a refutation leaves of [s]: the local node at [l] keeps its
    status and takes the next value of the local sequence as its
    incarnation, which is broadcast in an ALIVE; no suspicion is
    recorded and no event is emitted. *)
Definition refuted s (l : loc) s' : Prop :=
  let x := node_at s l in
  let v := fst (sequence.increment (_local_node_seq s)) in
  node_at s' l = set_incarnation v x
  ∧ _local_node_seq s' = v
  ∧ _queue s'
    = push (name x)
        (encode (AliveMessage (name x)
                   {| address := host x; messages.port := port x |}
                   v (metadata x)))
        (_queue s)
  ∧ _suspect_nodes s' = _suspect_nodes s
  ∧ _events s' = _events s
  ∧ _nodes s' = _nodes s ∧ _nodes_map s' = _nodes_map s.

(** The suspicion timer of the member [n] of [s], if there is one, no
    longer fires in [s']. *)
Definition suspicion_disarmed s (n : string) s' : Prop :=
  ∀ sn h, _suspect_nodes s !! n = Some sn →
          timer._handle (timer sn) = Some h →
          timer.run_handle h (runtime s') = runtime s'.

(** What the manager shares between [s] and [s'] when a handler has
    worked on the member at [l] only. *)
Definition others_kept s (l : loc) s' : Prop :=
  (∀ l', l' ≠ l → node_at s' l' = node_at s l')
  ∧ _nodes s' = _nodes s ∧ _nodes_map s' = _nodes_map s
  ∧ _local_node_name s' = _local_node_name s
  ∧ _local_node_seq s' = _local_node_seq s
  ∧ _leaving s' = _leaving s.

(** [s'] is [s] with the member at [l] declared DEAD at [incarnation_]:
    the record, the suspect table without the member, the DEAD queued
    for broadcast in the name of the local node at [l0], and the event
    emitted. *)
Definition declared_dead s (l l0 : loc) (incarnation_ : Z) s' : Prop :=
  let x := node_at s l in
  node_at s' l
  = _set_status NODE_STATUS_DEAD (timer.clock (runtime s))
      (set_incarnation incarnation_ x)
  ∧ others_kept s l s'
  ∧ _suspect_nodes s' = delete (name x) (_suspect_nodes s)
  ∧ suspicion_disarmed s (name x) s'
  ∧ _queue s'
    = push (name x)
        (encode (DeadMessage (name x) incarnation_ (name (node_at s l0))))
        (_queue s)
  ∧ _events s' = _events s ++ [("node.dead", l)].

(** [s'] is [s] with the member at [l] declared ALIVE at [incarnation_]
    with the metadata [metadata_] merged over its own: the record, the
    suspect table without the member, the ALIVE queued for broadcast,
    and the event emitted when the status changed. *)
Definition declared_alive s (l : loc) (incarnation_ : Z)
    (metadata_ : gmap string string) s' : Prop :=
  let x := node_at s l in
  node_at s' l
  = set_metadata (metadata_ ∪ metadata x)
      (_set_status NODE_STATUS_ALIVE (timer.clock (runtime s))
         (set_incarnation incarnation_ x))
  ∧ others_kept s l s'
  ∧ _suspect_nodes s' = delete (name x) (_suspect_nodes s)
  ∧ suspicion_disarmed s (name x) s'
  ∧ _queue s'
    = push (name x)
        (encode (AliveMessage (name x)
                   {| address := host x; messages.port := port x |}
                   incarnation_ (metadata_ ∪ metadata x)))
        (_queue s)
  ∧ _events s'
    = _events s ++ (if bool_decide (_status x = NODE_STATUS_ALIVE) then []
                    else [("node.alive", l)]).

(** [s'] is [s] with the member at [l] declared SUSPECT at
    [incarnation_] with the metadata [metadata_] merged over its own: the
    record, the entry of the suspect table, kept with its timer when
    the member was SUSPECT already and created with a timer that has
    started otherwise, the SUSPECT queued for broadcast in the name of
    the local node at [l0], and the event emitted when the status
    changed. *)
Definition declared_suspect s (l l0 : loc) (incarnation_ : Z)
    (metadata_ : gmap string string) s' : Prop :=
  let x := node_at s l in
  node_at s' l
  = set_metadata (metadata_ ∪ metadata x)
      (_set_status NODE_STATUS_SUSPECT (timer.clock (runtime s))
         (set_incarnation incarnation_ x))
  ∧ others_kept s l s'
  ∧ (∀ m, m ≠ name x → _suspect_nodes s' !! m = _suspect_nodes s !! m)
  ∧ (if bool_decide (_status x = NODE_STATUS_SUSPECT)
     then _suspect_nodes s' = _suspect_nodes s ∧ runtime s' = runtime s
     else ∃ sn, _suspect_nodes s' !! name x = Some sn
                ∧ timer._handle (timer sn)
                  = Some (length (timer.handles (runtime s)))
                ∧ timer.handles (runtime s')
                  = timer.handles (runtime s)
                    ++ [{| timer.h_delay := timer.time (timer sn);
                           timer.h_callback := l;
                           timer.h_state := timer.Pending |}])
  ∧ _queue s'
    = push (name x)
        (encode (SuspectMessage (name x) incarnation_ (name (node_at s l0))))
        (_queue s)
  ∧ _events s'
    = _events s ++ (if bool_decide (_status x = NODE_STATUS_SUSPECT) then []
                    else [("node.suspect", l)]).

(** The suspicion of the member at [l] is pending on the handle [h]:
    the member's entry of the suspect table holds a timer whose handle
    [h] has not run and will call back for [l]. *)
Definition suspicion_pending s (l : loc) (h : nat) : Prop :=
  ∃ sn e, _suspect_nodes s !! name (node_at s l) = Some sn
          ∧ timer._handle (timer sn) = Some h
          ∧ timer.handles (runtime s) !! h = Some e
          ∧ timer.h_state e = timer.Pending
          ∧ timer.h_callback e = l.

(** The members of [s] are members of [s'], each at the address it had,
    with the name, the host and the port it had. *)
Definition members_kept s s' : Prop :=
  ∀ n l, _nodes_map s !! n = Some l →
         _nodes_map s' !! n = Some l
         ∧ name (node_at s' l) = name (node_at s l)
         ∧ host (node_at s' l) = host (node_at s l)
         ∧ port (node_at s' l) = port (node_at s l).

(** The same of the stored records: the store only grows, and a record
    keeps its identity. *)
Definition identities_kept s s' : Prop :=
  (length (store s) ≤ length (store s'))%nat
  ∧ (∀ l, (l < length (store s))%nat →
          name (node_at s' l) = name (node_at s l)
          ∧ host (node_at s' l) = host (node_at s l)
          ∧ port (node_at s' l) = port (node_at s l))
  ∧ _nodes_map s ⊆ _nodes_map s'.

(** A method keeps the identities whatever the state it runs from and
    whether it returns or raises. *)
Definition keeps {A} (m : M F A) : Prop :=
  ∀ s, identities_kept s (snd (m s)).
End membership_vocabulary.

Section cluster_vocabulary.
Context {F : Type} `{PyFloat F} `{Serializer} `{Fetch}.
Implicit Types (c : cluster.Cluster F).

(** A node the periodic probe may pick: neither the local node nor a
    DEAD one. *)
Definition probe_target c (node : loc) : Prop :=
  local_node (cluster._nodes c) ≠ Some node
  ∧ _status (node_at (cluster._nodes c) node) ≠ NODE_STATUS_DEAD.

(** The position the cursor [probe_index] of the periodic probe stands
    for: past the end it wraps to the start. *)
Definition probe_start c (probe_index : nat) : nat :=
  if decide (length (_nodes (cluster._nodes c)) ≤ probe_index)%nat
  then 0%nat else probe_index.

(** A node the periodic sync may pick: one whose name is not the local
    name and that is not DEAD. *)
Definition sync_target c (node : loc) : Prop :=
  name (node_at (cluster._nodes c) node) ≠ cluster.local_node_name c
  ∧ _status (node_at (cluster._nodes c) node) ≠ NODE_STATUS_DEAD.

(** The gossip [_send_udp_message] fetches for [msg], with the queue the
    fetch leaves. *)
Definition gossip_for c (msg : Message) : list bytes * BroadcastQueue :=
  fetch (cluster._calculate_transmit_limit
           (Z.of_nat (length (_nodes (cluster._nodes c))))
           (retransmit_multi (config (cluster._nodes c))))
        (512 - Z.of_nat (length (encode msg)))
        (_queue (cluster._nodes c)).

(** What [_send_udp_message] hands to the socket for [msg]: one
    datagram, none when it would be empty. *)
Definition datagrams_for c (msg : Message) (host_ : string) (port_ : Z)
  : list (bytes * string * Z) :=
  match encode msg ++ concat (fst (gossip_for c msg)) with
  | [] => []
  | datagram => [(datagram, host_, port_)]
  end.

(** The cluster after [_send_udp_message]. *)
Definition sent c (msg : Message) (host_ : string) (port_ : Z)
  : cluster.Cluster F :=
  cluster.with_udp_out
    (cluster.udp_out c ++ datagrams_for c msg host_ port_)
    (cluster.with__nodes
       (with_queue (snd (gossip_for c msg)) (cluster._nodes c)) c).



(** The entry of [local_state] for the record [x]. *)
Definition snapshot_of (x : Node F) : RemoteNodeState :=
  {| rs_node := name x;
     rs_addr := {| address := host x; messages.port := port x |};
     rs_version := version x;
     rs_incarnation := incarnation x;
     rs_status := _status x;
     rs_metadata := metadata x |}.
End cluster_vocabulary.

(** * Properties *)

(** ** [select_random_nodes] *)

Section select_random_nodes_spec.
Context {A : Type} `{EqDecision A}.

Lemma random_choice_nonempty (rnd : nat) (nodes : list A) :
  (0 < length nodes)%nat → ∃ x, random_choice rnd nodes = Ok x ∧ x ∈ nodes.
Proof.
  intros Hlen. unfold random_choice.
  destruct (nodes !! (rnd mod length nodes)%nat) as [x|] eqn:E.
  - exists x. split; [done|]. by eapply list_elem_of_lookup_2.
  - apply lookup_ge_None in E.
    pose proof (Nat.mod_upper_bound rnd (length nodes)). lia.
Qed.

Lemma select_loop_spec k (nodes : list A) predicate_ rnd selected c :
  (k ≤ length nodes)%nat → NoDup selected → (length selected ≤ k)%nat →
  (c ≤ 3 * length nodes + 1)%nat →
  Forall (selectable nodes predicate_) selected →
  ∃ sel, fst (select_loop k nodes predicate_ rnd selected c) = Ok sel
         ∧ (snd (select_loop k nodes predicate_ rnd selected c) ≤ 3 * length nodes + 1)%nat
         ∧ NoDup sel ∧ (length sel ≤ k)%nat
         ∧ Forall (selectable nodes predicate_) sel.
Proof.
  funelim (select_loop k nodes predicate_ rnd selected c);
    intros Hk Hnd Hlen Hc Hall.
  all: try (rewrite <- Heqcall).
  - exists selected. simpl. repeat split; auto; lia.
  - exfalso.
    destruct (random_choice_nonempty (rnd c) nodes) as (x & Hx & _); [lia|].
    congruence.
  - match goal with IH : _ → _ → _ → _ → _ → ∃ _, _ |- _ => apply IH end;
      auto; lia.
  - assert (Hin : node ∈ nodes).
    { destruct (random_choice_nonempty (rnd c) nodes) as (x & Hx & Hxin); [lia|].
      congruence. }
    match goal with IH : _ → _ → _ → _ → _ → ∃ _, _ |- _ => apply IH end;
      auto; try lia.
    + apply NoDup_app. split_and!; [done| |apply NoDup_singleton].
      intros x Hx Hx'. apply list_elem_of_singleton in Hx'. by subst.
    + rewrite length_app. simpl. lia.
    + apply Forall_app. split; [done|]. apply Forall_singleton. by split.
  - assert (Hin : node ∈ nodes).
    { destruct (random_choice_nonempty (rnd c) nodes) as (x & Hx & Hxin); [lia|].
      congruence. }
    match goal with IH : _ → _ → _ → _ → _ → ∃ _, _ |- _ => apply IH end;
      auto; try lia.
    + apply NoDup_app. split_and!; [done| |apply NoDup_singleton].
      intros x Hx Hx'. apply list_elem_of_singleton in Hx'. by subst.
    + rewrite length_app. simpl. lia.
    + apply Forall_app. split; [done|]. apply Forall_singleton. by split.
  - match goal with IH : _ → _ → _ → _ → _ → ∃ _, _ |- _ => apply IH end;
      auto; lia.
Qed.

(** C10: [select_random_nodes] returns on every input, its loop runs at
    most [3 * len(nodes) + 1] times, and the list returned has no
    duplicates, at most [min(k, len(nodes))] elements, all of them
    elements of [nodes] that satisfy the predicate when there is one. *)
Theorem select_random_nodes_bounded (k : nat) (nodes : list A)
    (predicate_ : option (A -> bool)) (rnd : nat -> nat) :
  ∃ sel, select_random_nodes k nodes predicate_ rnd = Ok sel
         ∧ (select_random_nodes_iterations k nodes predicate_ rnd
            ≤ 3 * length nodes + 1)%nat
         ∧ NoDup sel
         ∧ (length sel ≤ Nat.min k (length nodes))%nat
         ∧ Forall (selectable nodes predicate_) sel.
Proof.
  unfold select_random_nodes, select_random_nodes_iterations.
  apply select_loop_spec; simpl; try lia.
  - apply NoDup_nil_2.
  - apply Forall_nil_2.
Qed.
End select_random_nodes_spec.

(** ** The Timer *)

Section timer_spec.
Import timer.
Context {F : Type} `{PyFloat F} {C : Type}.
Implicit Types (t : Timer F C) (rt : Runtime F C) (cs : list (call F)).

Lemma run_calls_app cs1 cs2 t rt :
  run_calls (cs1 ++ cs2) t rt =
  let '(rs1, (t1, rt1)) := run_calls cs1 t rt in
  let '(rs2, final) := run_calls cs2 t1 rt1 in
  (rs1 ++ rs2, final).
Proof.
  revert t rt. induction cs1 as [|c cs1 IH]; intros t rt; simpl.
  - by destruct (run_calls cs2 t rt) as [rs2 final].
  - destruct (run_call c t rt) as [r [t' rt']].
    rewrite IH.
    destruct (run_calls cs1 t' rt') as [rs1 [t1 rt1]].
    by destruct (run_calls cs2 t1 rt1) as [rs2 final].
Qed.

Lemma run_call_handle (c : call F) t rt :
  has_handle (fst (snd (run_call c t rt))) = armed [c] (has_handle t).
Proof.
  destruct c; unfold armed, has_handle; simpl; [|done..].
  unfold start. by destruct (_handle t) eqn:E; simpl; rewrite ?E.
Qed.

Lemma run_calls_handle cs t rt :
  has_handle (fst (snd (run_calls cs t rt))) = armed cs (has_handle t).
Proof.
  revert t rt. induction cs as [|c cs IH] using rev_ind; intros t rt.
  - done.
  - rewrite run_calls_app.
    destruct (run_calls cs t rt) as [rs1 [t1 rt1]] eqn:E1. simpl.
    destruct (run_call c t1 rt1) as [r [t' rt']] eqn:E2. simpl.
    pose proof (run_call_handle c t1 rt1) as Hc. rewrite E2 in Hc. simpl in Hc.
    rewrite Hc. unfold armed. rewrite last_snoc. simpl. by destruct c.
Qed.

(** C8, as the code has it: [start()] fails its assertion exactly when
    the Timer holds a handle, that is when the call before it was
    [start()] or [reset()]; after [stop()] it may be called again. *)
Theorem start_asserts_no_handle cs t rt :
  fst (run_calls (cs ++ [CallStart]) t rt)
  = fst (run_calls cs t rt)
    ++ [if armed cs (has_handle t) then Raise AssertionError else Ok tt].
Proof.
  rewrite run_calls_app.
  pose proof (run_calls_handle cs t rt) as Hh.
  destruct (run_calls cs t rt) as [rs1 [t1 rt1]]. simpl in *.
  rewrite <- Hh. unfold start, has_handle.
  by destruct (_handle t1).
Qed.
End timer_spec.

(** ** The membership and its invariant *)

Section membership.
Context {F : Type} `{PyFloat F} `{Serializer}.
Implicit Types (s : NodeManager F).

(** *** Running a handler from a state *)

Lemma wp_bind {A B} (m : M F A) (f : A → M F B) Q E s :
  wp m (λ a s', wp (f a) Q E s') E s → wp (m ≫= f) Q E s.
Proof. unfold wp, mbind, M_bind. by destruct (m s) as [[a|e] s']. Qed.

Lemma wp_mono {A} (m : M F A) (Q Q' : A → NodeManager F → Prop)
    (E E' : NodeManager F → Prop) s :
  wp m Q E s → (∀ a s', Q a s' → Q' a s') → (∀ s', E s' → E' s') →
  wp m Q' E' s.
Proof. unfold wp. destruct (m s) as [[a|e] s']; auto. Qed.

Lemma wp_ret {A} (a : A) (Q : A → NodeManager F → Prop) E s :
  Q a s → wp (mret a) Q E s.
Proof. done. Qed.

Lemma wp_get (Q : NodeManager F → NodeManager F → Prop) E s :
  Q s s → wp get Q E s.
Proof. done. Qed.

Lemma wp_modify (g : NodeManager F → NodeManager F) Q E s :
  Q tt (g s) → wp (modify g) Q E s.
Proof. done. Qed.

Lemma wp_raise {A} (e : exn) (Q : A → NodeManager F → Prop) E s :
  E s → wp (raise e) Q E s.
Proof. done. Qed.

Lemma wp_deref (l : loc) (Q : Node F → NodeManager F → Prop) E s :
  Q (node_at s l) s → wp (deref l) Q E s.
Proof. done. Qed.

Lemma wp_time (Q : F → NodeManager F → Prop) E s :
  Q (timer.clock (runtime s)) s → wp time_time Q E s.
Proof. done. Qed.

(** A step whose triple is known, followed by the rest. *)
Lemma wp_step {A B} P (m : M F A) (f : A → M F B) Q' E' Q E s :
  hoare P m Q' E' → P s →
  (∀ a s', Q' a s' → wp (f a) Q E s') → (∀ s', E' s' → E s') →
  wp (m ≫= f) Q E s.
Proof.
  intros Hm Hs Hf HE. apply wp_bind.
  eapply wp_mono; [by apply Hm|done|done].
Qed.

(** *** The frame *)

Lemma frame_same_view s0 n l s s' :
  same_view s s' → frame s0 n l s → frame s0 n l s'.
Proof.
  intros (Hst & Hn & Hm & Hsu & Hlo) [].
  split; unfold node_at in *; rewrite ?Hst, ?Hn, ?Hm, ?Hsu, ?Hlo; auto.
Qed.

Lemma at_node_same_view s0 n l φ s s' :
  same_view s s' → at_node s0 n l φ s → at_node s0 n l φ s'.
Proof.
  intros Hv [Hfr Hφ]. split; [by eapply frame_same_view|].
  destruct Hv as (Hst & Hn & Hm & Hsu & Hlo).
  unfold node_at in *. by rewrite Hst, Hsu.
Qed.

Lemma at_node_weaken s0 n l (φ ψ : Node F → bool → Prop) s :
  at_node s0 n l φ s → (∀ x b, φ x b → ψ x b) → at_node s0 n l ψ s.
Proof. intros [Hfr Hφ] Himp. split; auto. Qed.

Lemma frame_refl s n l x :
  store s !! l = Some x → name x = n → frame s n l s.
Proof.
  intros Hl Hn. split; auto.
  - by eapply lookup_lt_Some.
  - unfold node_at. by rewrite (list_lookup_total_correct _ _ _ Hl).
Qed.

Lemma node_at_lookup s l :
  (l < length (store s))%nat → store s !! l = Some (node_at s l).
Proof. intros Hl. by apply list_lookup_lookup_total_lt. Qed.

Lemma frame_local_node s0 n l s :
  frame s0 n l s → local_node s = local_node s0.
Proof.
  intros Hfr. unfold local_node.
  by rewrite (fr_local _ _ _ _ Hfr), (fr_map _ _ _ _ Hfr).
Qed.

(** *** The primitives *)

Lemma hoare_setattr s0 n l (f : Node F → Node F) φ E :
  hoare (at_node s0 n l (λ x b, name (f x) = n ∧ φ (f x) b))
        (setattr l f) (λ _, at_node s0 n l φ) E.
Proof.
  intros s [Hfr [Hn Hφ]]. apply wp_modify.
  assert (Hat : node_at (with_store (<[l:=f (node_at s l)]> (store s)) s) l
                = f (node_at s l)).
  { unfold node_at at 1. simpl. apply list_lookup_total_insert_eq, Hfr. }
  split; [|by rewrite Hat].
  pose proof (fr_store _ _ _ _ Hfr) as Hst.
  destruct Hfr. split; simpl; rewrite ?length_insert; auto.
  - intros l' Hl'. rewrite list_lookup_insert_ne by done. by apply Hst.
  - by rewrite Hat.
Qed.

(** A step that leaves the membership as it is, whether it returns or
    raises. *)
Lemma hoare_view {A} s0 n l φ (m : M F A) :
  (∀ s, same_view s (snd (m s))) →
  hoare (at_node s0 n l φ) m (λ _, at_node s0 n l φ) (at_node s0 n l φ).
Proof.
  intros Hv s Hs. specialize (Hv s). unfold wp.
  destruct (m s) as [[a|e] s']; by eapply at_node_same_view.
Qed.

(** The same for a step that always returns. *)
Lemma hoare_view_ok {A} s0 n l φ (m : M F A) E :
  (∀ s, same_view s (snd (m s)) ∧ is_Ok (fst (m s)) = true) →
  hoare (at_node s0 n l φ) m (λ _, at_node s0 n l φ) E.
Proof.
  intros Hv s Hs. destruct (Hv s) as [Hsv Hok]. unfold wp.
  destruct (m s) as [[a|e] s']; [|done]. by eapply at_node_same_view.
Qed.

Lemma broadcast_alive_view (l : loc) s :
  same_view s (snd (_broadcast_alive l s))
  ∧ is_Ok (fst (_broadcast_alive l s)) = true.
Proof. by repeat split. Qed.

Lemma broadcast_suspect_view (l : loc) s :
  same_view s (snd (_broadcast_suspect l s)).
Proof.
  unfold _broadcast_suspect, local_node_name_attr, mbind, M_bind, deref, get.
  simpl. destruct (local_node s); by repeat split.
Qed.

Lemma broadcast_dead_view (l : loc) s :
  same_view s (snd (_broadcast_dead l s)).
Proof.
  unfold _broadcast_dead, local_node_name_attr, mbind, M_bind, deref, get.
  simpl. destruct (local_node s); by repeat split.
Qed.

Lemma emit_view (ev : string) (l : loc) s :
  same_view s (snd (emit ev l s)) ∧ is_Ok (fst (emit ev l s)) = true.
Proof. by repeat split. Qed.

(** *** The suspect table and its timers *)

Lemma hoare_timer_call s0 n l φ (m : timer.method) :
  hoare (at_node s0 n l φ) (timer_call n m)
        (λ _, at_node s0 n l φ) (at_node s0 n l φ).
Proof.
  intros s [Hfr Hφ]. unfold wp, timer_call, mbind, M_bind, get. simpl.
  destruct (_suspect_nodes s !! n) as [sn|] eqn:Hsn.
  2:{ unfold raise. simpl. split; [done|]. by rewrite Hsn. }
  destruct (m (timer sn) (runtime s)) as [r [t' rt']]. simpl.
  assert (at_node s0 n l φ
    (with_runtime rt'
       (with_suspect_nodes
          (<[n:={| timer := t'; k := k sn; min_timeout := min_timeout sn;
                   max_timeout := max_timeout sn;
                   confirmations := confirmations sn |}]>
             (_suspect_nodes s)) s))) as Hat.
  { split.
    - pose proof (fr_sus _ _ _ _ Hfr) as Hsus.
      destruct Hfr. split; simpl; auto.
      intros m' Hm'. rewrite lookup_insert_ne by done. by apply Hsus.
    - unfold node_at in *. simpl. rewrite lookup_insert_eq.
      rewrite (bool_decide_eq_true_2 _ (mk_is_Some _ _ eq_refl)) in Hφ.
      by rewrite (bool_decide_eq_true_2 _ (mk_is_Some _ _ eq_refl)). }
  by destruct r.
Qed.

Lemma hoare_timer_stop s0 n l φ :
  hoare (at_node s0 n l (λ x b, φ x ∧ b = true)) (timer_call n timer.stop)
        (λ _, at_node s0 n l (λ x b, φ x ∧ b = true)) (λ _, False).
Proof.
  intros s Hs.
  pose proof (hoare_timer_call s0 n l _ timer.stop s Hs) as Hc.
  destruct Hs as [_ [_ Hb]]. apply bool_decide_eq_true in Hb as [sn Hsn].
  revert Hc. unfold wp, timer_call, mbind, M_bind, get. simpl. rewrite Hsn.
  simpl. done.
Qed.

Lemma hoare_create_suspect_node s0 n l φ :
  hoare (at_node s0 n l (λ x _, φ x)) (_create_suspect_node l)
        (λ _, at_node s0 n l (λ x b, φ x ∧ b = true))
        (at_node s0 n l (λ x b, φ x ∧ b = true)).
Proof.
  intros s [Hfr Hφ]. unfold _create_suspect_node.
  apply wp_bind, wp_get, wp_bind, wp_deref.
  rewrite (fr_name _ _ _ _ Hfr).
  destruct (decide (is_Some (_suspect_nodes s !! n))) as [Hin|Hout].
  - apply wp_ret. split; [done|]. split; [done|]. by apply bool_decide_eq_true_2.
  - apply wp_bind, wp_modify.
    apply (hoare_timer_call s0 n l (λ x b, φ x ∧ b = true)).
    split.
    + pose proof (fr_sus _ _ _ _ Hfr) as Hsus.
      destruct Hfr. split; simpl; auto.
      intros m' Hm'. rewrite lookup_insert_ne by done. by apply Hsus.
    + unfold node_at in *. simpl. rewrite lookup_insert_eq.
      split; [done|]. by apply bool_decide_eq_true_2.
Qed.

Lemma hoare_cancel_suspect_node s0 n l φ :
  hoare (at_node s0 n l (λ x b, φ x ∧ b = true)) (_cancel_suspect_node l)
        (λ _, at_node s0 n l (λ x b, φ x ∧ b = false)) (λ _, False).
Proof.
  intros s Hs. unfold _cancel_suspect_node.
  apply wp_bind, wp_deref. rewrite (fr_name _ _ _ _ (proj1 Hs)).
  eapply wp_step; [apply hoare_timer_stop|exact Hs| |done].
  intros u s' [Hfr [Hφ _]]. apply wp_modify. split.
  - pose proof (fr_sus _ _ _ _ Hfr) as Hsus.
    destruct Hfr. split; simpl; auto.
    intros m' Hm'. rewrite lookup_delete_ne by done. by apply Hsus.
  - unfold node_at in *. simpl. rewrite lookup_delete_eq.
    split; [done|]. apply bool_decide_eq_false_2. by intros [? ?].
Qed.

Lemma hoare_refute s0 n l φ :
  local_node s0 = Some l →
  (∀ x b v, φ x b → φ (set_incarnation v x) b) →
  hoare (at_node s0 n l φ) _refute
        (λ _, at_node s0 n l φ) (at_node s0 n l φ).
Proof.
  intros Hloc Hφ s Hs. unfold _refute.
  apply wp_bind, wp_get.
  destruct (sequence.increment (_local_node_seq s)) as [v sq].
  apply wp_bind, wp_modify.
  rewrite (frame_local_node _ _ _ _ (proj1 Hs)), Hloc.
  assert (Hs' : at_node s0 n l φ (with_local_node_seq sq s)).
  { eapply at_node_same_view; [|exact Hs]. by repeat split. }
  eapply wp_step; [apply (hoare_setattr s0 n l _ φ)| | |].
  - destruct Hs' as [Hfr Hx]. split; [done|]. split; [|by apply Hφ].
    apply (fr_name _ _ _ _ Hfr).
  - intros u s' Hat. eapply wp_mono.
    + apply (hoare_view_ok s0 n l φ (_broadcast_alive l) (λ _, False));
        [apply broadcast_alive_view|exact Hat].
    + done.
    + done.
  - done.
Qed.

(** *** Steps of a handler on the member it works on *)

Lemma wp_setattr {B} s0 n l (f : Node F → Node F) (φ ψ : Node F → bool → Prop)
    (rest : unit → M F B) Q E s :
  at_node s0 n l φ s →
  (∀ x, name (f x) = name x) →
  (∀ x b, φ x b → ψ (f x) b) →
  (∀ s', at_node s0 n l ψ s' → wp (rest tt) Q E s') →
  wp (setattr l f ≫= rest) Q E s.
Proof.
  intros Hat Hname Hφ Hrest.
  eapply wp_step; [apply (hoare_setattr s0 n l f ψ (λ _, False))| | |done].
  - destruct Hat as [Hfr Hx]. split; [done|]. split; [|by apply Hφ].
    rewrite Hname. apply (fr_name _ _ _ _ Hfr).
  - intros [] s' Hs'. by apply Hrest.
Qed.

Lemma wp_view_ok {A B} s0 n l φ (m : M F A) (rest : A → M F B) Q E s :
  (∀ s, same_view s (snd (m s)) ∧ is_Ok (fst (m s)) = true) →
  at_node s0 n l φ s →
  (∀ a s', at_node s0 n l φ s' → wp (rest a) Q E s') →
  wp (m ≫= rest) Q E s.
Proof.
  intros Hv Hat Hrest.
  eapply wp_step; [apply (hoare_view_ok s0 n l φ m (λ _, False) Hv)| | |done];
    done.
Qed.

Lemma wp_view {A B} s0 n l φ (m : M F A) (rest : A → M F B) Q E s :
  (∀ s, same_view s (snd (m s))) →
  at_node s0 n l φ s →
  (∀ a s', at_node s0 n l φ s' → wp (rest a) Q E s') →
  (∀ s', at_node s0 n l φ s' → E s') →
  wp (m ≫= rest) Q E s.
Proof.
  intros Hv Hat Hrest HE.
  eapply wp_step; [apply (hoare_view s0 n l φ m Hv)|done..].
Qed.

Lemma wp_view_ok_last {A} s0 n l φ (m : M F A) Q E s :
  (∀ s, same_view s (snd (m s)) ∧ is_Ok (fst (m s)) = true) →
  at_node s0 n l φ s →
  (∀ a s', at_node s0 n l φ s' → Q a s') →
  wp m Q E s.
Proof.
  intros Hv Hat HQ.
  eapply wp_mono;
    [apply (hoare_view_ok s0 n l φ m (λ _, False) Hv); exact Hat|done..].
Qed.

Lemma set_status_status (v : string) (now : F) (x : Node F) :
  _status (_set_status v now x) = v.
Proof. unfold _set_status. by destruct (decide (v ≠ _status x)) as [|?%dec_stable]. Qed.

Lemma set_status_name (v : string) (now : F) (x : Node F) :
  name (_set_status v now x) = name x.
Proof. unfold _set_status. by destruct (decide (v ≠ _status x)). Qed.

(** *** The invariant across the work on one member *)

Lemma wf_map_inj s n1 n2 l :
  wf s → _nodes_map s !! n1 = Some l → _nodes_map s !! n2 = Some l → n1 = n2.
Proof.
  intros Hwf H1 H2.
  destruct (wf_map _ Hwf _ _ H1) as (x1 & Hx1 & <-).
  destruct (wf_map _ Hwf _ _ H2) as (x2 & Hx2 & <-).
  congruence.
Qed.

Lemma at_node_init s n l :
  wf s → _nodes_map s !! n = Some l →
  at_node s n l (λ x b, x = node_at s l
                        ∧ (_status x = NODE_STATUS_SUSPECT ↔ b = true)) s.
Proof.
  intros Hwf Hl. destruct (wf_map _ Hwf _ _ Hl) as (x & Hx & Hn).
  assert (Hat : node_at s l = x).
  { unfold node_at. by apply list_lookup_total_correct. }
  split; [by eapply frame_refl|]. split; [done|].
  rewrite bool_decide_eq_true, (wf_suspect _ Hwf), Hat. split.
  - intros Hst. by exists l, x.
  - intros (l' & x' & Hl' & Hx' & Hst). congruence.
Qed.

Lemma frame_membership_ok but s0 n l s :
  membership_ok but s0 → _nodes_map s0 !! n = Some l →
  at_node s0 n l (λ x b, _status x = NODE_STATUS_SUSPECT ↔ b = true) s →
  membership_ok but s.
Proof.
  intros [Hwf Hloc] Hl [Hfr Hiff].
  destruct (wf_map _ Hwf _ _ Hl) as (x0 & Hx0 & Hn0).
  pose proof (node_at_lookup s l (fr_lt _ _ _ _ Hfr)) as Hat.
  rewrite bool_decide_eq_true in Hiff.
  split; [split|].
  - intros n' l'. rewrite (fr_map _ _ _ _ Hfr). intros Hl'.
    destruct (decide (l' = l)) as [->|Hne].
    + rewrite (wf_map_inj _ _ _ _ Hwf Hl' Hl).
      eexists. split; [done|]. apply (fr_name _ _ _ _ Hfr).
    + rewrite (fr_store _ _ _ _ Hfr) by done. by apply (wf_map _ Hwf).
  - intros l'. rewrite (fr_nodes _ _ _ _ Hfr), (fr_map _ _ _ _ Hfr).
    apply (wf_list _ Hwf).
  - rewrite (fr_nodes _ _ _ _ Hfr). apply (wf_nodup _ Hwf).
  - intros m. rewrite (fr_map _ _ _ _ Hfr).
    destruct (decide (m = n)) as [->|Hne].
    + rewrite <- Hiff. split.
      * intros Hst. by exists l, (node_at s l).
      * intros (l' & x' & Hl' & Hx' & Hst).
        congruence.
    + rewrite (fr_sus _ _ _ _ Hfr) by done. rewrite (wf_suspect _ Hwf).
      assert (Hoth : ∀ l', _nodes_map s0 !! m = Some l' → l' ≠ l).
      { intros l' Hl' ->. apply Hne. by eapply wf_map_inj. }
      split; intros (l' & x' & Hl' & Hx' & Hst); exists l', x';
        (split; [done|]); (split; [|done]).
      * by rewrite (fr_store _ _ _ _ Hfr) by auto.
      * by rewrite <- (fr_store _ _ _ _ Hfr) by auto.
  - intros m. rewrite (fr_local _ _ _ _ Hfr), (fr_map _ _ _ _ Hfr). apply Hloc.
Qed.

Lemma membership_ok_same_view but s s' :
  same_view s s' → membership_ok but s → membership_ok but s'.
Proof.
  intros (Hst & Hn & Hm & Hsu & Hlo) [[] Hloc].
  split; [split|]; unfold local_known; rewrite ?Hst, ?Hn, ?Hm, ?Hsu, ?Hlo; auto.
Qed.

(** *** The handlers keep the invariant *)

Lemma on_node_suspect_ok but name_ incarnation_ metadata_ :
  hoare (membership_ok but) (on_node_suspect name_ incarnation_ metadata_)
        (λ _, membership_ok but) (membership_ok but).
Proof.
  intros s0 Hok. pose proof Hok as [Hwf _]. unfold on_node_suspect.
  apply wp_bind, wp_get.
  destruct (_nodes_map s0 !! name_) as [l|] eqn:Hl; [|by apply wp_ret].
  pose proof (at_node_init s0 name_ l Hwf Hl) as Hat.
  assert (Hclose : ∀ s, at_node s0 name_ l
             (λ x b, _status x = NODE_STATUS_SUSPECT ∧ b = true) s →
             membership_ok but s).
  { intros s Hs. apply (frame_membership_ok but s0 name_ l); [done..|].
    eapply at_node_weaken; [exact Hs|]. intros x b [? ?]. done. }
  apply wp_bind, wp_deref.
  destruct (bool_decide (_status (node_at s0 l) = NODE_STATUS_DEAD));
    [by apply wp_ret|].
  destruct (incarnation_ <? incarnation (node_at s0 l)); [by apply wp_ret|].
  destruct (bool_decide (local_node s0 = Some l)) eqn:Hlocal.
  { apply bool_decide_eq_true in Hlocal.
    eapply wp_mono;
      [apply (hoare_refute s0 name_ l
                (λ x b, _status x = NODE_STATUS_SUSPECT ↔ b = true) Hlocal)|..].
    - by intros x b v.
    - eapply at_node_weaken; [exact Hat|]. by intros x b [_ ?].
    - intros u s. by apply frame_membership_ok.
    - intros s. by apply frame_membership_ok. }
  eapply wp_setattr with (ψ := λ _ _, True); [exact Hat|done|done|].
  intros s1 Hs1. apply wp_bind, wp_time.
  eapply wp_setattr with (ψ := λ x _, _status x = NODE_STATUS_SUSPECT);
    [exact Hs1|apply set_status_name| |].
  { intros x b _. apply set_status_status. }
  intros s2 Hs2.
  eapply wp_step; [apply hoare_create_suspect_node|exact Hs2| |exact Hclose].
  intros [] s3 Hs3. apply wp_bind, wp_deref.
  eapply wp_setattr
    with (ψ := λ x b, _status x = NODE_STATUS_SUSPECT ∧ b = true);
    [exact Hs3|done|done|].
  intros s4 Hs4.
  eapply wp_view; [apply broadcast_suspect_view|exact Hs4| |exact Hclose].
  intros [] s5 Hs5.
  destruct (bool_decide (_status (node_at s0 l) ≠ NODE_STATUS_SUSPECT)).
  - eapply wp_view_ok_last; [apply emit_view|exact Hs5|].
    intros u s6. apply Hclose.
  - apply wp_ret. by apply Hclose.
Qed.

Lemma hoare_cancel_if_suspect s0 n l (st : string) :
  hoare (at_node s0 n l (λ x b, st = NODE_STATUS_SUSPECT ↔ b = true))
        (when (bool_decide (st = NODE_STATUS_SUSPECT)) (_cancel_suspect_node l))
        (λ _, at_node s0 n l (λ _ b, b = false)) (λ _, False).
Proof.
  intros s Hs. destruct (bool_decide (st = NODE_STATUS_SUSPECT)) eqn:Hst.
  - apply bool_decide_eq_true in Hst. simpl.
    eapply wp_mono;
      [apply (hoare_cancel_suspect_node s0 n l (λ _, True))| |done].
    + eapply at_node_weaken; [exact Hs|]. intros x b Hb. split; [done|].
      by apply Hb.
    + intros u s' Hs'. eapply at_node_weaken; [exact Hs'|]. by intros x b [_ ?].
  - apply bool_decide_eq_false in Hst. apply wp_ret.
    eapply at_node_weaken; [exact Hs|]. intros x b Hb.
    destruct b; [|done]. exfalso. by apply Hst, Hb.
Qed.

Lemma on_node_dead_ok but name_ incarnation_ :
  hoare (membership_ok but) (on_node_dead (F:=F) name_ incarnation_)
        (λ _, membership_ok but) (membership_ok but).
Proof.
  intros s0 Hok. pose proof Hok as [Hwf _]. unfold on_node_dead.
  apply wp_bind, wp_get.
  destruct (_nodes_map s0 !! name_) as [l|] eqn:Hl; [|by apply wp_ret].
  pose proof (at_node_init s0 name_ l Hwf Hl) as Hat.
  assert (Hclose : ∀ s, at_node s0 name_ l
             (λ x b, _status x = NODE_STATUS_DEAD ∧ b = false) s →
             membership_ok but s).
  { intros s Hs. apply (frame_membership_ok but s0 name_ l); [done..|].
    eapply at_node_weaken; [exact Hs|]. intros x b [-> ->]. done. }
  apply wp_bind, wp_deref.
  destruct (bool_decide (_status (node_at s0 l) = NODE_STATUS_DEAD));
    [by apply wp_ret|].
  destruct (incarnation_ <? incarnation (node_at s0 l)); [by apply wp_ret|].
  destruct (bool_decide (local_node s0 = Some l)) eqn:Hlocal;
    [destruct (_leaving s0)|]; simpl.
  2:{ apply bool_decide_eq_true in Hlocal.
    eapply wp_mono;
      [apply (hoare_refute s0 name_ l
                (λ x b, _status x = NODE_STATUS_SUSPECT ↔ b = true) Hlocal)|..].
    - by intros x b v.
    - eapply at_node_weaken; [exact Hat|]. by intros x b [_ ?].
    - intros u s. by apply frame_membership_ok.
    - intros s. by apply frame_membership_ok. }
  all: (eapply wp_step; [apply hoare_cancel_if_suspect| | |done];
    [eapply at_node_weaken; [exact Hat|]; by intros x b [-> ?]|]);
    intros [] s1 Hs1; apply wp_bind, wp_deref;
    (eapply wp_setattr with (ψ := λ _ b, b = false); [exact Hs1|done|done|]);
    intros s2 Hs2; apply wp_bind, wp_time;
    (eapply wp_setattr
       with (ψ := λ x b, _status x = NODE_STATUS_DEAD ∧ b = false);
     [exact Hs2|apply set_status_name| |]);
    [intros x b ->; split; [apply set_status_status|done]|];
    intros s3 Hs3;
    (eapply wp_view; [apply broadcast_dead_view|exact Hs3| |exact Hclose]);
    intros [] s4 Hs4;
    (destruct (bool_decide (_status (node_at s1 l) ≠ NODE_STATUS_DEAD));
     [eapply wp_view_ok_last; [apply emit_view|exact Hs4|];
      intros u s5; apply Hclose
     |apply wp_ret; by apply Hclose]).
Qed.

(** *** A new member *)

Lemma swap_random_nodes_spec (rnd : nat) s :
  _nodes s ≠ [] →
  ∃ nodes', _swap_random_nodes rnd s = (Ok tt, with_nodes nodes' s)
            ∧ nodes' ≡ₚ _nodes s.
Proof.
  intros Hne. unfold _swap_random_nodes, mbind, M_bind, get.
  assert (Hlen : (0 < length (_nodes s))%nat).
  { destruct (_nodes s); [done|simpl; lia]. }
  unfold random_randint.
  destruct (Z.ltb_spec (Z.of_nat (length (_nodes s)) - 1) 0) as [?|_]; [lia|].
  set (i := Z.to_nat (0 + Z.of_nat rnd `mod` (Z.of_nat (length (_nodes s)) - 1 - 0 + 1))).
  assert (Hi : (i < length (_nodes s))%nat).
  { unfold i.
    pose proof (Z.mod_pos_bound (Z.of_nat rnd) (Z.of_nat (length (_nodes s)) - 1 - 0 + 1)).
    lia. }
  destruct (lookup_lt_is_Some_2 (_nodes s) i Hi) as [x Hx].
  destruct (lookup_lt_is_Some_2 (_nodes s) (length (_nodes s) - 1)%nat)
    as [y Hy]; [lia|].
  rewrite Hx, Hy. eexists. split; [reflexivity|].
  by apply Permutation_insert_swap.
Qed.

Lemma registered_ok name_ host_ port_ nodes' s :
  membership_ok (Some name_) s → _nodes_map s !! name_ = None →
  nodes' ≡ₚ _nodes s ++ [length (store s)] →
  membership_ok None (registered name_ host_ port_ nodes' s).
Proof.
  intros [Hwf Hloc] Hnew Hperm.
  assert (Hlt : ∀ n l, _nodes_map s !! n = Some l → (l < length (store s))%nat).
  { intros n l Hl. destruct (wf_map _ Hwf _ _ Hl) as (x & Hx & _).
    by eapply lookup_lt_Some. }
  split; [split|]; simpl.
  - intros n l. rewrite lookup_insert. case_decide as Hn.
    + intros [= <-]. subst n. exists (Node_init name_ host_ port_).
      split; [|done]. by rewrite lookup_app_r, Nat.sub_diag.
    + intros Hl. destruct (wf_map _ Hwf _ _ Hl) as (x & Hx & Hnx).
      exists x. split; [|done]. by apply lookup_app_l_Some.
  - intros l. rewrite Hperm, elem_of_app, list_elem_of_singleton, (wf_list _ Hwf).
    split.
    + intros [[n Hn]| ->].
      * exists n. rewrite lookup_insert_ne; [done|]. congruence.
      * exists name_. by rewrite lookup_insert_eq.
    + intros [n Hn]. revert Hn. rewrite lookup_insert.
      case_decide; [intros [= <-]; by right|]. intros Hn. left. by exists n.
  - rewrite Hperm. apply NoDup_app. split_and!.
    + apply (wf_nodup _ Hwf).
    + intros l Hl. rewrite list_elem_of_singleton. intros ->.
      apply (wf_list _ Hwf) in Hl as [n Hn]. apply Hlt in Hn. lia.
    + apply NoDup_singleton.
  - intros n. rewrite (wf_suspect _ Hwf). split.
    + intros (l & x & Hl & Hx & Hst). exists l, x.
      rewrite lookup_insert_ne by congruence.
      split; [done|]. split; [|done]. by apply lookup_app_l_Some.
    + intros (l & x & Hl & Hx & Hst). revert Hl. rewrite lookup_insert.
      case_decide.
      * intros [= <-]. rewrite lookup_app_r, Nat.sub_diag in Hx by done.
        by injection Hx as <-.
      * intros Hl. exists l, x. split; [done|]. split; [|done].
        rewrite lookup_app_l in Hx; [done|]. by eapply Hlt.
  - intros n Hn. right. simpl in *. rewrite lookup_insert.
    case_decide; [eauto|].
    destruct (Hloc n Hn) as [[= ?]|?]; [congruence|done].
Qed.

Lemma register_spec name_ host_ port_ (rnd : nat) s :
  ∃ nodes',
    (modify (λ s, with_store (store s ++ [Node_init name_ host_ port_]) s);;
     modify (λ s', with_nodes_map (<[name_ := length (store s)]> (_nodes_map s')) s');;
     modify (λ s', with_nodes (_nodes s' ++ [length (store s)]) s');;
     _swap_random_nodes rnd;;
     mret (length (store s))) s
    = (Ok (length (store s)), registered name_ host_ port_ nodes' s)
    ∧ nodes' ≡ₚ _nodes s ++ [length (store s)].
Proof.
  unfold mbind at 1 2 3, M_bind at 1 2 3, modify. 
  set (s3 := with_nodes _ _).
  destruct (swap_random_nodes_spec rnd s3) as (nodes' & Heq & Hperm).
  { subst s3. simpl. by destruct (_nodes s). }
  exists nodes'. split; [|done].
  unfold mbind, M_bind. by rewrite Heq.
Qed.

Lemma set_status_incarnation (v : string) (now : F) (x : Node F) :
  incarnation (_set_status v now x) = incarnation x.
Proof. unfold _set_status. by destruct (decide (v ≠ _status x)). Qed.

Lemma on_node_alive_ok name_ incarnation_ host_ port_ metadata_ bootstrap rnd :
  hoare (membership_ok (Some name_))
        (on_node_alive (F:=F) name_ incarnation_ host_ port_ metadata_
                       bootstrap rnd)
        (λ _ s, membership_ok None s
                ∧ alive_settled name_ incarnation_ host_ port_ s)
        (λ _, False).
Proof.
  intros s0 Hok. unfold on_node_alive. apply wp_bind, wp_get. cbv beta.
  match goal with |- wp (mbind ?k _) _ _ _ => set (K := k) end.
  apply wp_bind.
  assert (HK : ∀ s1 l, membership_ok None s1 → _nodes_map s1 !! name_ = Some l →
                       wp (K l)
                          (λ _ s, membership_ok None s
                                  ∧ alive_settled name_ incarnation_ host_ port_ s)
                          (λ _, False) s1).
  { subst K. intros s1 l Hok1 Hl. simpl. pose proof Hok1 as [Hwf _].
    pose proof (at_node_init s1 name_ l Hwf Hl) as Hat.
    assert (Hclose : ∀ s, at_node s1 name_ l
               (λ x b, (_status x = NODE_STATUS_ALIVE
                        ∧ incarnation x = incarnation_) ∧ b = false) s →
               membership_ok None s
               ∧ alive_settled name_ incarnation_ host_ port_ s).
    { intros s Hs. split.
      - apply (frame_membership_ok None s1 name_ l); [done..|].
        eapply at_node_weaken; [exact Hs|]. intros x b [[-> _] ->]. done.
      - destruct Hs as [Hfr [[_ Hinc] _]]. exists l.
        rewrite (fr_map _ _ _ _ Hfr). split; [done|]. right. right. lia. }
    apply wp_bind, wp_deref.
    destruct (bool_decide (host (node_at s1 l) ≠ host_)
              || bool_decide (port (node_at s1 l) ≠ port_)) eqn:Haddr.
    { apply wp_ret. split; [done|]. exists l. split; [done|].
      apply orb_true_iff in Haddr as [?%bool_decide_eq_true|?%bool_decide_eq_true];
        auto. }
    apply wp_bind, wp_get.
    destruct (negb (bool_decide (local_node s1 = Some l))
              && (incarnation_ <=? incarnation (node_at s1 l))) eqn:Hold.
    { apply wp_ret. split; [done|]. exists l. split; [done|].
      apply andb_true_iff in Hold as [_ ?%Z.leb_le]. auto. }
    destruct (bool_decide (local_node s1 = Some l)
              && (incarnation_ <? incarnation (node_at s1 l))) eqn:Hold'.
    { apply wp_ret. split; [done|]. exists l. split; [done|].
      apply andb_true_iff in Hold' as [_ ?%Z.ltb_lt]. right. right. lia. }
    eapply wp_step; [apply hoare_cancel_if_suspect| | |done].
    { eapply at_node_weaken; [exact Hat|]. by intros x b [-> ?]. }
    intros [] s2 Hs2. apply wp_bind, wp_deref.
    eapply wp_setattr
      with (ψ := λ x b, incarnation x = incarnation_ ∧ b = false);
      [exact Hs2|done|done|].
    intros s3 Hs3. apply wp_bind, wp_time.
    eapply wp_setattr
      with (ψ := λ x b, (_status x = NODE_STATUS_ALIVE
                         ∧ incarnation x = incarnation_) ∧ b = false);
      [exact Hs3|apply set_status_name| |].
    { intros x b [Hinc ->]. split; [|done].
      split; [apply set_status_status|by rewrite set_status_incarnation]. }
    intros s4 Hs4. apply wp_bind, wp_deref.
    eapply wp_setattr
      with (ψ := λ x b, (_status x = NODE_STATUS_ALIVE
                         ∧ incarnation x = incarnation_) ∧ b = false);
      [exact Hs4|done|done|].
    intros s5 Hs5.
    eapply wp_view_ok; [apply broadcast_alive_view|exact Hs5|].
    intros [] s6 Hs6.
    destruct (bool_decide (_status (node_at s2 l) ≠ NODE_STATUS_ALIVE)).
    - eapply wp_view_ok_last; [apply emit_view|exact Hs6|].
      intros u s7. apply Hclose.
    - apply wp_ret. by apply Hclose. }
  destruct (_nodes_map s0 !! name_) as [l|] eqn:Hl.
  - apply wp_ret, HK; [|done]. destruct Hok as [Hwf Hloc]. split; [done|].
    intros n Hn. right. destruct (Hloc n Hn) as [[= ->]|?]; eauto.
  - destruct (register_spec name_ host_ port_ rnd s0) as (nodes' & Heq & Hperm).
    unfold wp at 1. rewrite Heq. apply HK.
    + by apply registered_ok.
    + simpl. by rewrite lookup_insert_eq.
Qed.

(** *** The other ways a manager advances *)

Lemma run_task_ok :
  hoare (membership_ok None) (run_task (F:=F))
        (λ _, membership_ok None) (membership_ok None).
Proof.
  intros s0 Hok. unfold run_task. apply wp_bind, wp_get.
  destruct (timer.tasks (runtime s0)) as [|node rest]; [by apply wp_ret|].
  apply wp_bind, wp_modify. unfold _handle_suspect_timer.
  apply wp_bind, wp_deref. apply on_node_dead_ok.
  eapply membership_ok_same_view; [|exact Hok]. by repeat split.
Qed.

Lemma set_local_node_ok name_ host_ port_ metadata_ rnd :
  hoare (membership_ok None)
        (set_local_node (F:=F) name_ host_ port_ metadata_ rnd)
        (λ _, membership_ok None) (λ _, False).
Proof.
  intros s0 [Hwf Hloc]. unfold set_local_node.
  apply wp_bind, wp_modify, wp_bind, wp_get. simpl.
  destruct (sequence.increment (_local_node_seq s0)) as [v sq].
  apply wp_bind, wp_modify.
  eapply wp_mono; [apply on_node_alive_ok| |done].
  - destruct Hwf. split; [by split|]. intros n [= <-]. by left.
  - by intros u s [? _].
Qed.

Lemma leave_local_node_ok :
  hoare (membership_ok None) (leave_local_node (F:=F))
        (λ _, membership_ok None) (membership_ok None).
Proof.
  intros s0 Hok. unfold leave_local_node. apply wp_bind, wp_get.
  destruct (bool_decide (_local_node_name s0 = None)); [by apply wp_raise|].
  apply wp_bind, wp_modify, wp_bind, wp_get.
  assert (Hok' : membership_ok None (with_leaving true s0)).
  { eapply membership_ok_same_view; [|exact Hok]. by repeat split. }
  destruct (local_node (with_leaving true s0)); [|by apply wp_raise].
  by apply on_node_dead_ok.
Qed.

Lemma init_ok (cfg : Configuration F) (now : F) :
  membership_ok None (NodeManager_init cfg now).
Proof.
  split; [split|]; simpl.
  - intros n l. by rewrite lookup_empty.
  - intros l. split; [by intros ?%elem_of_nil|].
    intros [n Hn]. by rewrite lookup_empty in Hn.
  - apply NoDup_nil_2.
  - intros n. rewrite lookup_empty. split; [by intros [? ?]|].
    intros (l & x & Hl & _). by rewrite lookup_empty in Hl.
  - by intros n.
Qed.

Lemma advance_ok s s' :
  membership_ok None s → advance s s' → membership_ok None s'.
Proof.
  intros Hok Hadv. destruct Hadv.
  - assert (Hok' : membership_ok (Some name_) s).
    { destruct Hok as [Hwf Hloc]. split; [done|]. intros n Hn. right.
      by destruct (Hloc n Hn) as [[=]|?]. }
    pose proof (on_node_alive_ok name_ incarnation_ host_ port_ metadata_
                  bootstrap rnd s Hok') as Hwp.
    unfold wp in Hwp.
    destruct (on_node_alive _ _ _ _ _ _ _ s) as [[|] ?]; [apply Hwp|done].
  - pose proof (on_node_suspect_ok None name_ incarnation_ metadata_ s Hok) as Hwp.
    unfold wp in Hwp. by destruct (on_node_suspect _ _ _ s) as [[|] ?].
  - pose proof (on_node_dead_ok None name_ incarnation_ s Hok) as Hwp.
    unfold wp in Hwp. by destruct (on_node_dead _ _ s) as [[|] ?].
  - eapply membership_ok_same_view; [|exact Hok]. by repeat split.
  - pose proof (run_task_ok s Hok) as Hwp.
    unfold wp in Hwp. by destruct (run_task s) as [[|] ?].
  - pose proof (set_local_node_ok name_ host_ port_ metadata_ rnd s Hok) as Hwp.
    unfold wp in Hwp. by destruct (set_local_node _ _ _ _ _ s) as [[|] ?].
  - pose proof (leave_local_node_ok s Hok) as Hwp.
    unfold wp in Hwp. by destruct (leave_local_node s) as [[|] ?].
  - eapply membership_ok_same_view; [|exact Hok]. by repeat split.
Qed.

Lemma reachable_ok s : reachable s → membership_ok None s.
Proof.
  induction 1 as [cfg now|s s' _ IH Hadv]; [apply init_ok|].
  by eapply advance_ok.
Qed.

Lemma wf_suspect_iff s : wf s → suspect_iff s.
Proof.
  intros Hwf l Hl. apply (wf_list _ Hwf) in Hl as [n Hn].
  destruct (wf_map _ Hwf _ _ Hn) as (x & Hx & Hname).
  assert (Hat : node_at s l = x).
  { unfold node_at. by apply list_lookup_total_correct. }
  rewrite Hat, Hname, (wf_suspect _ Hwf). split.
  - intros Hst. by exists l, x.
  - intros (l' & x' & Hl' & Hx' & Hst). congruence.
Qed.

(** C3: in every state a manager goes through, a member is SUSPECT
    exactly when its name is a key of the suspect table; the calls of
    [on_node_alive], [on_node_suspect] and [on_node_dead] and the expiry
    of a suspicion timer keep it so. *)
Theorem suspect_table_mirrors_status s : reachable s → suspect_iff s.
Proof. intros Hr. apply wf_suspect_iff. by apply reachable_ok. Qed.
End membership.

(** ** What the handlers do to a member *)

Section handlers.
Context {F : Type} `{PyFloat F} `{Serializer}.
Implicit Types (s : NodeManager F).

(** C2, as the code has it: an ALIVE for a member is ignored, the whole
    state staying as it was, when its incarnation is not greater than
    the member's, and for the local node when it is smaller; an ALIVE
    for the local node with the incarnation the node has is not
    ignored. *)
Theorem on_node_alive_stale_ignored s name_ incarnation_ host_ port_ metadata_
    bootstrap rnd l :
  _nodes_map s !! name_ = Some l →
  alive_is_stale s l incarnation_ →
  on_node_alive name_ incarnation_ host_ port_ metadata_ bootstrap rnd s
  = (Ok tt, s).
Proof.
  intros Hl Hstale. unfold on_node_alive, alive_is_stale in *.
  unfold mbind, M_bind, mret, M_ret, get, deref. cbn.
  rewrite Hl.
  destruct (bool_decide (host (node_at s l) ≠ host_)
            || bool_decide (port (node_at s l) ≠ port_)); [done|].
  destruct (bool_decide (local_node s = Some l)); cbn.
  - apply Z.ltb_lt in Hstale. by rewrite Hstale.
  - apply Z.leb_le in Hstale. by rewrite Hstale.
Qed.

(** An ALIVE that has been dealt with makes an ALIVE with a smaller
    incarnation for the same address a no-op. *)
Lemma on_node_alive_settled_older s name_ i host_ port_ metadata_ bootstrap rnd
    incarnation_ :
  alive_settled name_ i host_ port_ s → incarnation_ < i →
  on_node_alive name_ incarnation_ host_ port_ metadata_ bootstrap rnd s
  = (Ok tt, s).
Proof.
  intros (l & Hl & Hcase) Hlt. unfold on_node_alive.
  unfold mbind, M_bind, mret, M_ret, get, deref. cbn. rewrite Hl.
  destruct (bool_decide (host (node_at s l) ≠ host_)
            || bool_decide (port (node_at s l) ≠ port_)) eqn:Haddr; [done|].
  apply orb_false_iff in Haddr as [Hh%bool_decide_eq_false Hp%bool_decide_eq_false].
  destruct Hcase as [?|[?|Hinc]]; [done..|].
  destruct (bool_decide (local_node s = Some l)); cbn.
  - by rewrite (proj2 (Z.ltb_lt _ _)) by lia.
  - by rewrite (proj2 (Z.leb_le _ _)) by lia.
Qed.

(** Applying [on_node_alive(X, i, ...)] and then [on_node_alive(X, i - 1,
    ...)] for the same address: the second call leaves the state as the
    first one left it. *)
Lemma on_node_alive_then_older s name_ i host_ port_ metadata_ bootstrap rnd
    metadata' bootstrap' rnd' :
  reachable s →
  let s1 := snd (on_node_alive name_ i host_ port_ metadata_ bootstrap rnd s) in
  on_node_alive name_ (i - 1) host_ port_ metadata' bootstrap' rnd' s1
  = (Ok tt, s1).
Proof.
  intros Hreach s1. apply on_node_alive_settled_older with (i := i); [|lia].
  apply reachable_ok in Hreach as [Hwf Hloc].
  assert (Hok : membership_ok (Some name_) s).
  { split; [done|]. intros n Hn. right. by destruct (Hloc n Hn) as [[=]|?]. }
  pose proof (on_node_alive_ok name_ i host_ port_ metadata_ bootstrap rnd s Hok)
    as Hwp.
  unfold wp in Hwp. subst s1.
  destruct (on_node_alive _ _ _ _ _ _ _ s) as [[|] ?]; [apply Hwp|done].
Qed.

(** C9: an ALIVE with an incarnation of 0 or less for a name the
    manager does not know files a record for the name in the name map
    and in the ordered list, which grows by one, and leaves the record
    DEAD with incarnation 0; nothing is queued for broadcast and no
    event is emitted. *)
Theorem on_node_alive_unknown_stale s name_ incarnation_ host_ port_ metadata_
    bootstrap rnd :
  reachable s → _nodes_map s !! name_ = None → incarnation_ ≤ 0 →
  let r := on_node_alive name_ incarnation_ host_ port_ metadata_
                         bootstrap rnd s in
  let l := length (store s) in
  fst r = Ok tt
  ∧ _nodes_map (snd r) = <[name_ := l]> (_nodes_map s)
  ∧ _nodes (snd r) ≡ₚ _nodes s ++ [l]
  ∧ length (_nodes (snd r)) = S (length (_nodes s))
  ∧ size (_nodes_map (snd r)) = S (size (_nodes_map s))
  ∧ node_at (snd r) l = Node_init name_ host_ port_
  ∧ _status (node_at (snd r) l) = NODE_STATUS_DEAD
  ∧ incarnation (node_at (snd r) l) = 0
  ∧ _queue (snd r) = _queue s
  ∧ _events (snd r) = _events s.
Proof.
  intros Hreach Hnew Hinc. apply reachable_ok in Hreach as [Hwf Hloc].
  destruct (register_spec name_ host_ port_ rnd s) as (nodes' & Heq & Hperm).
  assert (Hat : node_at (registered name_ host_ port_ nodes' s) (length (store s))
                = Node_init name_ host_ port_).
  { unfold node_at. simpl. apply list_lookup_total_correct.
    by rewrite lookup_app_r, Nat.sub_diag. }
  assert (Hnl : local_node (registered name_ host_ port_ nodes' s)
                ≠ Some (length (store s))).
  { unfold local_node. simpl. destruct (_local_node_name s) as [n|] eqn:Hn; [|done].
    destruct (Hloc n Hn) as [[=]|[l' Hl']].
    rewrite lookup_insert_ne by congruence. rewrite Hl'. intros [= ->].
    destruct (wf_map _ Hwf _ _ Hl') as (x & Hx & _).
    apply lookup_lt_Some in Hx. lia. }
  assert (Hrun : on_node_alive name_ incarnation_ host_ port_ metadata_
                   bootstrap rnd s
                 = (Ok tt, registered name_ host_ port_ nodes' s)).
  { unfold on_node_alive. unfold mbind at 1, M_bind at 1, get at 1.
    rewrite Hnew. unfold mbind at 1, M_bind at 1. rewrite Heq.
    unfold mbind at 1, M_bind at 1, deref at 1. rewrite Hat. simpl.
    rewrite !bool_decide_eq_false_2 by (by intros ?).
    simpl. unfold mbind, M_bind, get.
    rewrite (bool_decide_eq_false_2 _ Hnl). simpl.
    apply Z.leb_le in Hinc. by rewrite Hinc. }
  intros r l. subst r l. rewrite Hrun. simpl. split_and!; try done.
  - by rewrite Hperm, length_app, Nat.add_comm.
  - by apply map_size_insert_None.
  - by rewrite Hat.
  - by rewrite Hat.
Qed.

(** C5, as the code has it: on entry to SUSPECT the record of the
    member holds [k = multi - 2], replaced by 0 when [n - 2 < k] and
    not floored at 0, [min_timeout = multi * (max(1, log10(max(1, n)))
    * interval)] and [max_timeout = max_multi * min_timeout]; its timer
    is armed for [max_timeout] when [k < 1] and for [min_timeout]
    otherwise. *)
Theorem create_suspect_node_timing s (l : loc) :
  _suspect_nodes s !! name (node_at s l) = None →
  let n := Z.of_nat (length (_nodes s)) in
  let multi := suspicion_min_timeout_multi (config s) in
  let k_ := if n - 2 <? multi - 2 then 0 else multi - 2 in
  let min_ := fmul (float_of_int multi)
                (fmul (py_max (float_of_int 1)
                              (math_log10 (float_of_int (Z.max 1 n))))
                      (probe_interval (config s))) in
  let max_ := fmul (float_of_int (suspicion_max_timeout_multi (config s))) min_ in
  let timeout := if k_ <? 1 then max_ else min_ in
  let r := _create_suspect_node l s in
  fst r = Ok tt
  ∧ ∃ sn, _suspect_nodes (snd r) !! name (node_at s l) = Some sn
          ∧ k sn = k_ ∧ min_timeout sn = min_ ∧ max_timeout sn = max_
          ∧ timer.time (timer sn) = timeout
          ∧ timer._handle (timer sn) = Some (length (timer.handles (runtime s)))
          ∧ timer.handles (runtime (snd r))
            = timer.handles (runtime s)
              ++ [{| timer.h_delay := timeout; timer.h_callback := l;
                     timer.h_state := timer.Pending |}].
Proof.
  intros Hout. cbv zeta.
  destruct (_create_suspect_node l s) as [r s'] eqn:Hrun. revert Hrun.
  unfold _create_suspect_node, timer_call, mbind, M_bind, mret, M_ret, get,
    deref, modify, raise.
  destruct (decide (is_Some (_suspect_nodes s !! name (node_at s l))))
    as [[? Hin]|_]; [congruence|].
  simpl. rewrite lookup_insert_eq. simpl. intros [= <- <-]. simpl.
  split; [done|]. eexists. rewrite lookup_insert_eq. split; [done|]. simpl.
  by split_and!.
Qed.
End handlers.

(** ** The cluster: gossip, sync and probes *)

Section cluster_spec.
Context {F : Type} `{PyFloat F} `{Serializer} `{Fetch}.
Implicit Types (c : cluster.Cluster F).

Lemma foldl_app_concat (buf : bytes) (gossip : list bytes) :
  foldl (λ b g, b ++ g) buf gossip = buf ++ concat gossip.
Proof.
  revert buf. induction gossip as [|g gossip IH]; intros buf; simpl.
  - by rewrite app_nil_r.
  - by rewrite IH, app_assoc.
Qed.

(** C6: a datagram is built from the encoded message followed by the
    gossip fetched with [max_transmits = ceil(log10(n + 1)) *
    retransmit_multi], [n] the size of the membership, and [max_bytes =
    512 - len(encoded message)]; the queue is left as the fetch leaves
    it. *)
Theorem send_udp_message_piggybacks c host_ port_ msg :
  let buf := encode msg in
  let n := Z.of_nat (length (_nodes (cluster._nodes c))) in
  let max_transmits :=
    math_ceil (math_log10 (float_of_int (n + 1)))
    * retransmit_multi (config (cluster._nodes c)) in
  let max_bytes := 512 - Z.of_nat (length buf) in
  let gossip := fst (fetch max_transmits max_bytes (_queue (cluster._nodes c))) in
  let q' := snd (fetch max_transmits max_bytes (_queue (cluster._nodes c))) in
  let r := cluster._send_udp_message host_ port_ msg c in
  fst r = Ok tt
  ∧ _queue (cluster._nodes (snd r)) = q'
  ∧ cluster.udp_out (snd r)
    = cluster.udp_out c
      ++ match buf ++ concat gossip with
         | [] => []
         | datagram => [(datagram, host_, port_)]
         end.
Proof.
  cbv zeta. unfold cluster._send_udp_message, cluster._calculate_transmit_limit.
  unfold mbind, cluster.CM_bind, cluster.cget, cluster.cmodify. simpl.
  destruct (fetch _ _ _) as [gossip q']. simpl.
  rewrite foldl_app_concat. unfold cluster.sendto.
  destruct (encode msg ++ concat gossip); simpl.
  - by rewrite app_nil_r.
  - done.
Qed.

(** C7: an entry of a SYNC whose status is ALIVE goes to
    [on_node_alive], one whose status is SUSPECT to [on_node_suspect],
    and one whose status is DEAD to [on_node_suspect] as well; no entry
    goes to [on_node_dead]. *)
Theorem merge_remote_state_routing c (remote_state : RemoteNodeState) rnd :
  (rs_status remote_state = NODE_STATUS_ALIVE →
   cluster._merge_remote_state remote_state rnd c
   = cluster.nodes_call
       (on_node_alive (rs_node remote_state) (rs_incarnation remote_state)
          (address (rs_addr remote_state))
          (messages.port (rs_addr remote_state))
          (rs_metadata remote_state) false rnd) c)
  ∧ (rs_status remote_state = NODE_STATUS_SUSPECT
     ∨ rs_status remote_state = NODE_STATUS_DEAD →
     cluster._merge_remote_state remote_state rnd c
     = cluster.nodes_call
         (on_node_suspect (rs_node remote_state)
            (rs_incarnation remote_state) (rs_metadata remote_state)) c)
  ∧ (∀ args, cluster._merge_remote_state_route remote_state
             ≠ Some (cluster.OnNodeDead args)).
Proof.
  unfold cluster._merge_remote_state, cluster._merge_remote_state_route.
  split_and!.
  - intros ->. done.
  - intros [-> | ->]; done.
  - intros args. repeat case_decide; done.
Qed.

(** C1, what the code does: when the wait of a direct probe ends with
    its future unresolved, [_probe_node] raises [TypeError] out of
    [_handle_probe_timeout], and when the future was resolved by a NACK
    it raises [NotImplementedError] out of [_handle_probe_result]; in
    both cases it has only dropped the waiter: the membership is as it
    was and no PING-REQ has been sent. *)
Theorem probe_node_failure_raises c (target_node : loc) (seq : Z) rnd0 rnd :
  (cluster._probe_status c !! seq = Some None →
   cluster._probe_node_resume target_node seq rnd0 rnd c
   = (Raise TypeError,
      cluster.with_probe_status (delete seq (cluster._probe_status c)) c))
  ∧ (cluster._probe_status c !! seq = Some (Some false) →
     cluster._probe_node_resume target_node seq rnd0 rnd c
     = (Raise NotImplementedError,
        cluster.with_probe_status (delete seq (cluster._probe_status c)) c)).
Proof.
  split; intros Hfut.
  - unfold cluster._probe_node_resume, cluster.try_except_else,
      cluster._wait_for_probe_resume, cluster._handle_probe_timeout,
      cluster.nodes_call, call_on_node_suspect,
      mbind, cluster.CM_bind, cluster.cget, cluster.cmodify, cluster.craise.
    rewrite Hfut. simpl. by destruct c.
  - unfold cluster._probe_node_resume, cluster.try_except_else,
      cluster._wait_for_probe_resume, cluster._handle_probe_result,
      mbind, cluster.CM_bind, cluster.cget, cluster.cmodify, cluster.craise.
    rewrite Hfut. simpl. done.
Qed.

(** C4, what the code does: when the relay's wait for the target's
    answer ends with the future resolved, the handler of the PING-REQ
    forwards an ACK with the sequence number of the PING-REQ to its
    sender; when the wait ends with the future unresolved, it returns
    having only dropped its waiter, and forwards nothing. *)
Theorem ping_request_timeout_forwards_nothing c (seq : Z)
    (sender_addr : InternetAddress) (next_seq : Z) :
  (cluster._probe_status c !! next_seq = Some None →
   cluster._handle_ping_request_message_resume seq sender_addr next_seq c
   = (Ok tt,
      cluster.with_probe_status (delete next_seq (cluster._probe_status c)) c))
  ∧ (∀ b, cluster._probe_status c !! next_seq = Some (Some b) →
     cluster._handle_ping_request_message_resume seq sender_addr next_seq c
     = cluster._send_udp_message (address sender_addr)
         (messages.port sender_addr)
         (AckMessage seq (cluster.local_node_name c))
         (cluster.with_probe_status
            (delete next_seq (cluster._probe_status c)) c)).
Proof.
  split; [intros Hfut|intros b Hfut];
    unfold cluster._handle_ping_request_message_resume,
      cluster.try_except_else, cluster._wait_for_probe_resume,
      cluster._forward_indirect_probe_result,
      mbind, cluster.CM_bind, cluster.cget, cluster.cmodify, cluster.craise;
    rewrite Hfut; simpl; done.
Qed.
End cluster_spec.

(** ** The life cycle of a Timer *)

Section timer_lifecycle.
Import timer.
Context {F : Type} `{PyFloat F} {C : Type}.
Implicit Types (t : Timer F C) (rt : Runtime F C).

Lemma length_cancel h rt : length (handles (cancel h rt)) = length (handles rt).
Proof.
  unfold cancel. destruct (handles rt !! h) as [e|]; [|done].
  destruct (h_state e); [|done..]. simpl. by rewrite length_insert.
Qed.

Lemma tasks_cancel h rt : tasks (cancel h rt) = tasks rt.
Proof.
  unfold cancel. destruct (handles rt !! h) as [e|]; [|done].
  by destruct (h_state e).
Qed.

Lemma run_handle_cancel h rt : run_handle h (cancel h rt) = cancel h rt.
Proof.
  unfold cancel. destruct (handles rt !! h) as [e|] eqn:He.
  - destruct (h_state e) eqn:Hs.
    + unfold run_handle. simpl.
      rewrite list_lookup_insert_eq by (by eapply lookup_lt_Some). done.
    + unfold run_handle. by rewrite He, Hs.
    + unfold run_handle. by rewrite He, Hs.
  - unfold run_handle. by rewrite He.
Qed.

Lemma run_handle_idemp h rt : run_handle h (run_handle h rt) = run_handle h rt.
Proof.
  unfold run_handle at 2 3. destruct (handles rt !! h) as [e|] eqn:He.
  - destruct (h_state e) eqn:Hs.
    + unfold run_handle. simpl.
      rewrite list_lookup_insert_eq by (by eapply lookup_lt_Some). done.
    + unfold run_handle. by rewrite He, Hs.
    + unfold run_handle. by rewrite He, Hs.
  - unfold run_handle. by rewrite He.
Qed.

(** X1: [Timer.stop] returns, leaves the Timer without a handle, and
    cancels the handle it held: the event loop running that handle
    afterwards changes nothing, so the callback of a stopped Timer is
    never made a task. *)
Theorem stop_disarms t rt h :
  _handle t = Some h →
  let '(r, (t', rt')) := stop t rt in
  r = Ok tt ∧ _handle t' = None ∧ tasks rt' = tasks rt
  ∧ run_handle h rt' = rt'.
Proof.
  intros Hh. unfold stop. rewrite Hh. split_and!; try done.
  - apply tasks_cancel.
  - apply run_handle_cancel.
Qed.

(** X2: [Timer.reset(d)] never fails the assertion of [start]: it
    returns, with the Timer set to the delay [d] and holding a fresh
    pending handle for that delay and the Timer's callback, started at
    the current time; the handle it held before no longer fires. *)
Theorem reset_rearms (d : F) t rt :
  let '(r, (t', rt')) := reset d t rt in
  let h' := length (handles rt) in
  r = Ok tt
  ∧ time t' = d ∧ func t' = func t
  ∧ _started t' = Some (clock rt)
  ∧ _handle t' = Some h'
  ∧ handles rt' !! h'
    = Some {| h_delay := d; h_callback := func t; h_state := Pending |}
  ∧ tasks rt' = tasks rt
  ∧ ∀ h, _handle t = Some h → (h < h')%nat →
         tasks (run_handle h rt') = tasks rt.
Proof.
  unfold reset, stop, start. simpl.
  set (rt1 := match _handle t with Some h => cancel h rt | None => rt end).
  assert (Hlen : length (handles rt1) = length (handles rt)).
  { subst rt1. destruct (_handle t); [apply length_cancel|done]. }
  assert (Htasks : tasks rt1 = tasks rt).
  { subst rt1. destruct (_handle t); [apply tasks_cancel|done]. }
  assert (Hclock : clock rt1 = clock rt).
  { subst rt1. destruct (_handle t) as [h|]; [|done]. unfold cancel.
    destruct (handles rt !! h) as [e|]; [|done]. by destruct (h_state e). }
  split_and!; try done.
  - by rewrite Hclock.
  - by rewrite Hlen.
  - rewrite <- Hlen. by rewrite lookup_app_r, Nat.sub_diag.
  - intros h Hh Hlt. subst rt1. rewrite Hh in *.
    pose proof (run_handle_cancel h rt) as Hrun.
    unfold run_handle in *. simpl.
    rewrite lookup_app_l by (rewrite Hlen; lia).
    destruct (handles (cancel h rt) !! h) as [e|] eqn:He; [|done].
    destruct (h_state e) eqn:Hs; [|done..].
    apply (f_equal handles) in Hrun. simpl in Hrun.
    apply (f_equal (λ l, h_state <$> l !! h)) in Hrun.
    rewrite list_lookup_insert_eq in Hrun by (by eapply lookup_lt_Some).
    rewrite He in Hrun. simpl in Hrun. congruence.
Qed.

(** X3: a Timer without a handle starts; when the event loop runs the
    handle it then holds, the Timer's callback becomes the newest task,
    once: running the handle again changes nothing. *)
Theorem started_timer_fires_once t rt :
  _handle t = None →
  let '(r, (t', rt')) := start t rt in
  r = Ok tt
  ∧ ∃ h, _handle t' = Some h
         ∧ tasks (run_handle h rt') = tasks rt ++ [func t]
         ∧ run_handle h (run_handle h rt') = run_handle h rt'.
Proof.
  intros Hh. unfold start. rewrite Hh. simpl. split; [done|].
  eexists. split; [done|]. split; [|apply run_handle_idemp].
  unfold run_handle. simpl. by rewrite lookup_app_r, Nat.sub_diag.
Qed.
End timer_lifecycle.

(** ** The early returns of the handlers and the refutation *)

Section handler_returns.
Context {F : Type} `{PyFloat F} `{Serializer}.
Implicit Types (s : NodeManager F).

(** X4: on a non-empty membership [_swap_random_nodes] returns and
    leaves the ordered list a permutation of what it was, its last
    element being the one that stood at the drawn index; nothing else
    of the manager changes. *)
Theorem swap_random_nodes_permutes (rnd : nat) s :
  _nodes s ≠ [] →
  let r := _swap_random_nodes rnd s in
  fst r = Ok tt
  ∧ _nodes (snd r) ≡ₚ _nodes s
  ∧ last (_nodes (snd r)) = _nodes s !! (rnd mod length (_nodes s))%nat
  ∧ snd r = with_nodes (_nodes (snd r)) s.
Proof.
  intros Hne. cbv zeta.
  unfold _swap_random_nodes, mbind, M_bind, get, random_randint, modify, raise.
  destruct (Z.ltb_spec (Z.of_nat (length (_nodes s)) - 1) 0) as [Hlt|Hge].
  { destruct (_nodes s); [done|]. simpl in Hlt. lia. }
  set (len := length (_nodes s)) in *.
  assert (Hi : Z.to_nat (0 + Z.of_nat rnd `mod` (Z.of_nat len - 1 - 0 + 1))
               = (rnd mod len)%nat).
  { replace (Z.of_nat len - 1 - 0 + 1) with (Z.of_nat len) by lia.
    rewrite Z.add_0_l, <- Nat2Z.inj_mod. apply Nat2Z.id. }
  rewrite Hi.
  assert (Hr : (rnd mod len < len)%nat) by (apply Nat.mod_upper_bound; lia).
  destruct (lookup_lt_is_Some_2 (_nodes s) _ Hr) as [x Hx].
  assert (Hl : (len - 1 < len)%nat) by lia.
  destruct (lookup_lt_is_Some_2 (_nodes s) _ Hl) as [y Hy].
  rewrite Hx, Hy. simpl. split_and!; try done.
  - by apply Permutation_insert_swap.
  - rewrite last_lookup, length_insert, length_insert. fold len.
    replace (Init.Nat.pred len) with (len - 1)%nat by lia.
    rewrite list_lookup_insert_eq; [done|]. rewrite length_insert. done.
Qed.

(** X5: an ALIVE for a member under another host or another port is
    ignored, whatever its incarnation: the handler returns and the whole
    state stays as it was. *)
Theorem on_node_alive_address_conflict s name_ incarnation_ host_ port_
    metadata_ bootstrap rnd l :
  _nodes_map s !! name_ = Some l →
  host (node_at s l) ≠ host_ ∨ port (node_at s l) ≠ port_ →
  on_node_alive name_ incarnation_ host_ port_ metadata_ bootstrap rnd s
  = (Ok tt, s).
Proof.
  intros Hl Haddr. unfold on_node_alive.
  unfold mbind, M_bind, mret, M_ret, get, deref. cbn. rewrite Hl.
  destruct Haddr as [Hh|Hp].
  - by rewrite (bool_decide_eq_true_2 _ Hh).
  - rewrite (bool_decide_eq_true_2 _ Hp). by rewrite orb_true_r.
Qed.

(** X6: a SUSPECT about a name that is not a member, about a DEAD
    member, or with an incarnation smaller than the member's is ignored:
    [on_node_suspect] returns and the whole state stays as it was. *)
Theorem on_node_suspect_ignored s name_ incarnation_ metadata_ :
  report_ignored s name_ incarnation_ →
  on_node_suspect name_ incarnation_ metadata_ s = (Ok tt, s).
Proof.
  unfold report_ignored, on_node_suspect.
  unfold mbind, M_bind, mret, M_ret, get, deref. cbn.
  destruct (_nodes_map s !! name_) as [l|]; [|done].
  intros [Hd|Hi].
  - by rewrite (bool_decide_eq_true_2 _ Hd).
  - destruct (bool_decide _); [done|]. apply Z.ltb_lt in Hi. by rewrite Hi.
Qed.

(** X7: a DEAD about a name that is not a member, about a DEAD member,
    or with an incarnation smaller than the member's is ignored:
    [on_node_dead] returns and the whole state stays as it was. *)
Theorem on_node_dead_ignored s name_ incarnation_ :
  report_ignored s name_ incarnation_ →
  on_node_dead name_ incarnation_ s = (Ok tt, s).
Proof.
  unfold report_ignored, on_node_dead.
  unfold mbind, M_bind, mret, M_ret, get, deref. cbn.
  destruct (_nodes_map s !! name_) as [l|]; [|done].
  intros [Hd|Hi].
  - by rewrite (bool_decide_eq_true_2 _ Hd).
  - destruct (bool_decide _); [done|]. apply Z.ltb_lt in Hi. by rewrite Hi.
Qed.
Lemma refute_run s l :
  local_node s = Some l → (l < length (store s))%nat →
  fst (_refute s) = Ok tt ∧ refuted s l (snd (_refute s)).
Proof.
  intros Hloc Hlt. unfold _refute, refuted.
  unfold mbind, M_bind, mret, M_ret, get, modify, setattr, _broadcast_alive,
    _send_broadcast, deref. simpl. rewrite Hloc. simpl.
  unfold node_at. simpl. rewrite list_lookup_total_insert_eq by done.
  done.
Qed.

(** X8: a SUSPECT about the local node that is not ignored, and a
    DEAD about it while it is not leaving, are refuted: the local node
    keeps its status, takes the next value of the local sequence as its
    incarnation, whatever the incarnation of the report, and an ALIVE
    with it is queued; no suspicion is recorded and no event is
    emitted. *)
Theorem local_report_refuted s name_ incarnation_ metadata_ l :
  _nodes_map s !! name_ = Some l → local_node s = Some l →
  (l < length (store s))%nat →
  _status (node_at s l) ≠ NODE_STATUS_DEAD →
  incarnation (node_at s l) ≤ incarnation_ →
  (fst (on_node_suspect name_ incarnation_ metadata_ s) = Ok tt
   ∧ refuted s l (snd (on_node_suspect name_ incarnation_ metadata_ s)))
  ∧ (_leaving s = false →
     fst (on_node_dead name_ incarnation_ s) = Ok tt
     ∧ refuted s l (snd (on_node_dead name_ incarnation_ s))).
Proof.
  intros Hl Hloc Hlt Hst Hinc.
  assert (Hltb : (incarnation_ <? incarnation (node_at s l)) = false)
    by (apply Z.ltb_ge; lia).
  split; [|intros Hleave].
  - assert (Hrun : on_node_suspect name_ incarnation_ metadata_ s = _refute s).
    { unfold on_node_suspect, mbind, M_bind, get, deref. cbv beta iota.
      rewrite Hl. cbv beta iota.
      by rewrite (bool_decide_eq_false_2 _ Hst), Hltb,
        (bool_decide_eq_true_2 _ Hloc). }
    rewrite Hrun. by apply refute_run.
  - assert (Hrun : on_node_dead name_ incarnation_ s = _refute s).
    { unfold on_node_dead, mbind, M_bind, get, deref. cbv beta iota.
      rewrite Hl. cbv beta iota.
      by rewrite (bool_decide_eq_false_2 _ Hst), Hltb,
        (bool_decide_eq_true_2 _ Hloc), Hleave. }
    rewrite Hrun. by apply refute_run.
Qed.

End handler_returns.

(** ** The paths of the handlers *)

Section handler_paths.
Context {F : Type} `{PyFloat F} `{Serializer}.
Implicit Types (s : NodeManager F).

Lemma bind_run {A B} (m : M F A) (f : A → M F B) s a s1 :
  m s = (Ok a, s1) → (m ≫= f) s = f a s1.
Proof. intros Hm. unfold mbind, M_bind. by rewrite Hm. Qed.

Lemma with_same s :
  with_suspect_nodes (_suspect_nodes s) (with_runtime (runtime s) s) = s.
Proof. by destruct s. Qed.

Lemma cancel_suspect_node_run s l sn :
  _suspect_nodes s !! name (node_at s l) = Some sn →
  _cancel_suspect_node l s
  = (Ok tt,
     with_suspect_nodes (delete (name (node_at s l)) (_suspect_nodes s))
       (with_runtime (snd (snd (timer.stop (timer sn) (runtime s)))) s)).
Proof.
  intros Hsn. unfold _cancel_suspect_node, timer_call, mbind, M_bind, get,
    deref, modify. cbv beta iota. rewrite Hsn. simpl.
  unfold with_suspect_nodes, with_runtime. simpl.
  by rewrite delete_insert_eq.
Qed.

Lemma wf_not_suspect s l :
  wf s → _nodes_map s !! name (node_at s l) = Some l →
  _status (node_at s l) ≠ NODE_STATUS_SUSPECT →
  _suspect_nodes s !! name (node_at s l) = None.
Proof.
  intros Hwf Hl Hsus. destruct (wf_map _ Hwf _ _ Hl) as (x & Hx & Hname).
  assert (Hxe : node_at s l = x) by (by apply list_lookup_total_correct).
  apply eq_None_not_Some. intros Hsome.
  apply (wf_suspect _ Hwf) in Hsome as (l' & x' & Hl' & Hx' & Hs').
  rewrite Hl in Hl'. injection Hl' as <-. rewrite Hx in Hx'.
  injection Hx' as <-. by rewrite Hxe in Hsus.
Qed.

Lemma wf_suspect_record s l :
  wf s → _nodes_map s !! name (node_at s l) = Some l →
  _status (node_at s l) = NODE_STATUS_SUSPECT →
  is_Some (_suspect_nodes s !! name (node_at s l)).
Proof.
  intros Hwf Hl Hsus. destruct (wf_map _ Hwf _ _ Hl) as (x & Hx & Hname).
  assert (Hxe : node_at s l = x) by (by apply list_lookup_total_correct).
  apply (wf_suspect _ Hwf). exists l, x. split_and!; [done..|].
  by rewrite <- Hxe.
Qed.

Lemma cancel_if_suspect_run s l :
  wf s → _nodes_map s !! name (node_at s l) = Some l →
  ∃ rt', when (bool_decide (_status (node_at s l) = NODE_STATUS_SUSPECT))
              (_cancel_suspect_node l) s
         = (Ok tt,
            with_suspect_nodes
              (delete (name (node_at s l)) (_suspect_nodes s))
              (with_runtime rt' s))
         ∧ timer.clock rt' = timer.clock (runtime s)
         ∧ ∀ sn h, _suspect_nodes s !! name (node_at s l) = Some sn →
                   timer._handle (timer sn) = Some h →
                   timer.run_handle h rt' = rt'.
Proof.
  intros Hwf Hl.
  destruct (decide (_status (node_at s l) = NODE_STATUS_SUSPECT)) as [Hsus|Hsus].
  - rewrite (bool_decide_eq_true_2 _ Hsus). unfold when.
    destruct (wf_suspect_record s l Hwf Hl Hsus) as [sn Hsn].
    rewrite (cancel_suspect_node_run s l sn) by done.
    eexists. split; [done|]. unfold timer.stop. simpl.
    destruct (timer._handle (timer sn)) as [h|] eqn:Hh.
    + split.
      * unfold timer.cancel.
        destruct (timer.handles (runtime s) !! h) as [e|]; [|done].
        by destruct (timer.h_state e).
      * intros sn' h' Hsn' Hh'. rewrite Hsn in Hsn'. injection Hsn' as <-.
        rewrite Hh in Hh'. injection Hh' as <-. apply run_handle_cancel.
    + split; [done|]. intros sn' h' Hsn' Hh'. congruence.
  - rewrite (bool_decide_eq_false_2 _ Hsus). unfold when.
    exists (runtime s).
    rewrite delete_id by (by apply wf_not_suspect). rewrite with_same.
    split_and!; [done..|]. intros sn h Hsn.
    rewrite wf_not_suspect in Hsn by done. done.
Qed.

Lemma on_node_dead_run s name_ incarnation_ l l0 :
  wf s → _nodes_map s !! name_ = Some l →
  _status (node_at s l) ≠ NODE_STATUS_DEAD →
  incarnation (node_at s l) ≤ incarnation_ →
  local_node s ≠ Some l ∨ _leaving s = true →
  local_node s = Some l0 →
  fst (on_node_dead name_ incarnation_ s) = Ok tt
  ∧ declared_dead s l l0 incarnation_ (snd (on_node_dead name_ incarnation_ s)).
Proof.
  intros Hwf Hl Hst Hinc Hnl Hloc.
  destruct (wf_map _ Hwf _ _ Hl) as (x & Hx & Hname).
  assert (Hlt : (l < length (store s))%nat) by (by eapply lookup_lt_Some).
  assert (Hxe : node_at s l = x) by (by apply list_lookup_total_correct).
  assert (Hltb : (incarnation_ <? incarnation (node_at s l)) = false)
    by (apply Z.ltb_ge; lia).
  assert (Hbr : bool_decide (local_node s = Some l) && negb (_leaving s) = false).
  { destruct Hnl as [Hn| ->]; [by rewrite (bool_decide_eq_false_2 _ Hn)|].
    by rewrite andb_false_r. }
  assert (Hl' : _nodes_map s !! name (node_at s l) = Some l)
    by (by rewrite Hxe, Hname).
  destruct (cancel_if_suspect_run s l Hwf Hl') as (rt' & Hrun1 & Hclock & Hoff).
  destruct (on_node_dead name_ incarnation_ s) as [r s'] eqn:Hrun.
  revert Hrun. unfold on_node_dead.
  unfold mbind at 1, M_bind at 1, get at 1. cbv beta iota. rewrite Hl.
  unfold mbind at 1, M_bind at 1, deref at 1. cbv beta iota.
  rewrite (bool_decide_eq_false_2 _ Hst), Hltb, Hbr.
  rewrite (bind_run _ _ _ _ _ Hrun1).
  unfold _broadcast_dead, local_node_name_attr, _send_broadcast, emit, when,
    setattr, time_time.
  unfold mbind, M_bind, deref, modify, get, mret, M_ret, node_at.
  simpl. rewrite !list_lookup_total_insert_eq by (by rewrite ?length_insert).
  unfold local_node in *. simpl. rewrite Hloc. simpl.
  fold (node_at s l). rewrite (bool_decide_eq_true_2 _ Hst).
  intros [= <- <-]. split; [done|].
  unfold declared_dead, others_kept, suspicion_disarmed, node_at. simpl.
  rewrite !list_lookup_total_insert_eq by (by rewrite ?length_insert).
  rewrite Hclock. fold (node_at s l).
  rewrite set_status_name, set_status_incarnation. simpl.
  split_and!; try done.
  - intros l1 Hl1. by rewrite !list_lookup_total_insert_ne.
  - destruct (decide (l0 = l)) as [->|Hne].
    + rewrite list_lookup_total_insert_eq by (by rewrite ?length_insert).
      by rewrite set_status_name.
    + by rewrite !list_lookup_total_insert_ne.
Qed.

Lemma set_status_fields (v : string) (now : F) (x : Node F) :
  host (_set_status v now x) = host x ∧ port (_set_status v now x) = port x
  ∧ metadata (_set_status v now x) = metadata x.
Proof. unfold _set_status. by destruct (decide (v ≠ _status x)). Qed.

Lemma on_node_alive_run s name_ incarnation_ host_ port_ metadata_ bootstrap
    rnd l :
  wf s → _nodes_map s !! name_ = Some l →
  host (node_at s l) = host_ → port (node_at s l) = port_ →
  ¬ alive_is_stale s l incarnation_ →
  let r := on_node_alive name_ incarnation_ host_ port_ metadata_ bootstrap
             rnd s in
  fst r = Ok tt ∧ declared_alive s l incarnation_ metadata_ (snd r).
Proof.
  intros Hwf Hl Hhost Hport Hfresh.
  destruct (wf_map _ Hwf _ _ Hl) as (x & Hx & Hname).
  assert (Hlt : (l < length (store s))%nat) by (by eapply lookup_lt_Some).
  assert (Hxe : node_at s l = x) by (by apply list_lookup_total_correct).
  assert (Hl' : _nodes_map s !! name (node_at s l) = Some l)
    by (by rewrite Hxe, Hname).
  destruct (cancel_if_suspect_run s l Hwf Hl') as (rt' & Hrun1 & Hclock & Hoff).
  assert (Hc1 : negb (bool_decide (local_node s = Some l))
                && (incarnation_ <=? incarnation (node_at s l)) = false).
  { unfold alive_is_stale in Hfresh.
    destruct (bool_decide (local_node s = Some l)); [done|]. simpl.
    apply Z.leb_gt. lia. }
  assert (Hc2 : bool_decide (local_node s = Some l)
                && (incarnation_ <? incarnation (node_at s l)) = false).
  { unfold alive_is_stale in Hfresh.
    destruct (bool_decide (local_node s = Some l)); [|done]. simpl.
    apply Z.ltb_ge. lia. }
  cbv zeta.
  cut (wp (on_node_alive name_ incarnation_ host_ port_ metadata_ bootstrap rnd)
          (λ _ s', declared_alive s l incarnation_ metadata_ s') (λ _, False) s).
  { unfold wp. by destruct (on_node_alive _ _ _ _ _ _ _ s) as [[[]|] s']. }
  unfold on_node_alive. apply wp_bind, wp_get. cbv beta. rewrite Hl.
  apply wp_bind, wp_ret, wp_bind, wp_deref.
  rewrite (bool_decide_eq_false_2 (host (node_at s l) ≠ host_)) by (by intros ?).
  rewrite (bool_decide_eq_false_2 (port (node_at s l) ≠ port_)) by (by intros ?).
  simpl. apply wp_bind, wp_get. rewrite Hc1, Hc2.
  unfold wp. rewrite (bind_run _ _ _ _ _ Hrun1).
  unfold _broadcast_alive, _send_broadcast, emit, when, setattr, time_time.
  unfold mbind, M_bind, deref, modify, get, mret, M_ret, node_at.
  simpl. rewrite !list_lookup_total_insert_eq by (by rewrite ?length_insert).
  fold (node_at s l). simpl.
  destruct (set_status_fields NODE_STATUS_ALIVE (timer.clock rt')
              (set_incarnation incarnation_ (node_at s l))) as (-> & -> & ->).
  simpl.
  destruct (decide (_status (node_at s l) = NODE_STATUS_ALIVE)) as [Hal|Hal].
  - rewrite (bool_decide_eq_false_2 (_ ≠ _)) by (by intros ?).
    unfold declared_alive, others_kept, suspicion_disarmed, node_at. simpl.
    rewrite !list_lookup_total_insert_eq by (by rewrite ?length_insert).
    rewrite Hclock. fold (node_at s l).
    rewrite (bool_decide_eq_true_2 _ Hal), app_nil_r.
    rewrite !set_status_name, !set_status_incarnation. simpl.
    split_and!; try done.
    intros l1 Hl1. by rewrite !list_lookup_total_insert_ne.
  - rewrite (bool_decide_eq_true_2 (_ ≠ _)) by done.
    unfold declared_alive, others_kept, suspicion_disarmed, node_at. simpl.
    rewrite !list_lookup_total_insert_eq by (by rewrite ?length_insert).
    rewrite Hclock. fold (node_at s l).
    rewrite (bool_decide_eq_false_2 _ Hal).
    rewrite !set_status_name, !set_status_incarnation. simpl.
    split_and!; try done.
    intros l1 Hl1. by rewrite !list_lookup_total_insert_ne.
Qed.

Lemma on_node_suspect_run s name_ incarnation_ metadata_ l l0 :
  wf s → _nodes_map s !! name_ = Some l →
  _status (node_at s l) ≠ NODE_STATUS_DEAD →
  incarnation (node_at s l) ≤ incarnation_ →
  local_node s = Some l0 → l0 ≠ l →
  let r := on_node_suspect name_ incarnation_ metadata_ s in
  fst r = Ok tt ∧ declared_suspect s l l0 incarnation_ metadata_ (snd r).
Proof.
  intros Hwf Hl Hst Hinc Hloc Hne.
  destruct (wf_map _ Hwf _ _ Hl) as (x & Hx & Hname).
  assert (Hlt : (l < length (store s))%nat) by (by eapply lookup_lt_Some).
  assert (Hxe : node_at s l = x) by (by apply list_lookup_total_correct).
  assert (Hl' : _nodes_map s !! name (node_at s l) = Some l)
    by (by rewrite Hxe, Hname).
  assert (Hltb : (incarnation_ <? incarnation (node_at s l)) = false)
    by (apply Z.ltb_ge; lia).
  assert (Hnl : local_node s ≠ Some l) by congruence.
  cbv zeta.
  cut (wp (on_node_suspect name_ incarnation_ metadata_)
          (λ _ s', declared_suspect s l l0 incarnation_ metadata_ s')
          (λ _, False) s).
  { unfold wp. by destruct (on_node_suspect _ _ _ s) as [[[]|] s']. }
  unfold on_node_suspect. apply wp_bind, wp_get. cbv beta. rewrite Hl.
  apply wp_bind, wp_deref.
  rewrite (bool_decide_eq_false_2 _ Hst), Hltb, (bool_decide_eq_false_2 _ Hnl).
  unfold wp.
  unfold _create_suspect_node, timer_call, _broadcast_suspect,
    local_node_name_attr, _send_broadcast, emit, when, setattr, time_time.
  unfold mbind, M_bind, deref, modify, get, mret, M_ret, node_at.
  simpl. rewrite !list_lookup_total_insert_eq by (by rewrite ?length_insert).
  fold (node_at s l). rewrite !set_status_name. simpl.
  destruct (set_status_fields NODE_STATUS_SUSPECT (timer.clock (runtime s))
              (set_incarnation incarnation_ (node_at s l))) as (Hh & Hp & Hm).
  destruct (decide (_status (node_at s l) = NODE_STATUS_SUSPECT)) as [Hsus|Hsus].
  - destruct (wf_suspect_record s l Hwf Hl' Hsus) as [sn Hsn].
    destruct (decide (is_Some (_suspect_nodes s !! name (node_at s l))))
      as [_|Hno]; [|by destruct Hno].
    repeat (simpl; rewrite !list_lookup_total_insert_eq
                     by (by rewrite ?length_insert)).
    unfold local_node in *. simpl. rewrite Hloc.
    repeat (simpl; rewrite !list_lookup_total_insert_eq
                     by (by rewrite ?length_insert)).
    rewrite !(list_lookup_total_insert_ne _ l l0) by congruence.
    fold (node_at s l). rewrite ?set_status_name, ?set_status_incarnation, ?Hm.
    simpl. rewrite (bool_decide_eq_false_2 (_ ≠ _)) by (by intros ?).
    unfold declared_suspect, others_kept, node_at. simpl.
    rewrite !list_lookup_total_insert_eq by (by rewrite ?length_insert).
    fold (node_at s l). rewrite (bool_decide_eq_true_2 _ Hsus), app_nil_r.
    split_and!; try done.
    + intros l1 Hl1. by rewrite !list_lookup_total_insert_ne.
    + by rewrite set_status_name.
  - pose proof (wf_not_suspect s l Hwf Hl' Hsus) as Hnone.
    destruct (decide (is_Some (_suspect_nodes s !! name (node_at s l))))
      as [[? Hyes]|_]; [congruence|].
    repeat (simpl; rewrite !list_lookup_total_insert_eq
                     by (by rewrite ?length_insert)).
    rewrite lookup_insert_eq. simpl.
    unfold local_node in *. simpl. rewrite Hloc.
    repeat (simpl; rewrite !list_lookup_total_insert_eq
                     by (by rewrite ?length_insert)).
    rewrite !(list_lookup_total_insert_ne _ l l0) by congruence.
    fold (node_at s l). rewrite ?set_status_name, ?set_status_incarnation, ?Hm.
    simpl. rewrite (bool_decide_eq_true_2 (_ ≠ _)) by done.
    unfold declared_suspect, others_kept, node_at. simpl.
    rewrite !list_lookup_total_insert_eq by (by rewrite ?length_insert).
    fold (node_at s l). rewrite (bool_decide_eq_false_2 _ Hsus).
    split_and!; try done.
    + intros l1 Hl1. by rewrite !list_lookup_total_insert_ne.
    + intros m Hm'. by rewrite !lookup_insert_ne.
    + eexists. rewrite insert_insert_eq, lookup_insert_eq. split; [done|]. simpl.
      done.
    + by rewrite !set_status_name, set_status_incarnation.
Qed.
Lemma on_node_alive_register s name_ incarnation_ host_ port_ metadata_
    bootstrap rnd :
  _nodes_map s !! name_ = None →
  ∃ nodes', nodes' ≡ₚ _nodes s ++ [length (store s)]
    ∧ on_node_alive name_ incarnation_ host_ port_ metadata_ bootstrap rnd s
      = on_node_alive name_ incarnation_ host_ port_ metadata_ bootstrap rnd
          (registered name_ host_ port_ nodes' s).
Proof.
  intros Hnew.
  destruct (register_spec name_ host_ port_ rnd s) as (nodes' & Heq & Hperm).
  exists nodes'. split; [done|]. unfold on_node_alive.
  match goal with |- (get ≫= ?f) s = _ => set (f0 := f) end.
  change ((get ≫= f0) s) with (f0 s s).
  change ((get ≫= f0) (registered name_ host_ port_ nodes' s))
    with (f0 (registered name_ host_ port_ nodes' s)
             (registered name_ host_ port_ nodes' s)).
  subst f0. cbv beta.
  match goal with |- (mbind ?k _) s = _ => set (K := k) end.
  rewrite Hnew. unfold mbind at 1, M_bind at 1. rewrite Heq.
  replace (_nodes_map (registered name_ host_ port_ nodes' s) !! name_)
    with (Some (length (store s))) by (simpl; by rewrite lookup_insert_eq).
  done.
Qed.
End handler_paths.

(** ** What the handlers leave of a reachable state *)

Section handler_outcomes.
Context {F : Type} `{PyFloat F} `{Serializer}.
Implicit Types (s : NodeManager F).

Lemma membership_ok_but (n : string) s :
  membership_ok None s → membership_ok (Some n) s.
Proof.
  intros [Hwf Hloc]. split; [done|]. intros m Hm. right.
  by destruct (Hloc m Hm) as [[=]|?].
Qed.

Lemma on_node_alive_joins_run s name_ incarnation_ host_ port_ metadata_
    bootstrap rnd :
  membership_ok (Some name_) s → _nodes_map s !! name_ = None →
  (if bool_decide (_local_node_name s = Some name_)
   then 0 ≤ incarnation_ else 0 < incarnation_) →
  let r := on_node_alive name_ incarnation_ host_ port_ metadata_ bootstrap
             rnd s in
  let l := length (store s) in
  fst r = Ok tt
  ∧ _nodes_map (snd r) = <[name_ := l]> (_nodes_map s)
  ∧ _nodes (snd r) ≡ₚ _nodes s ++ [l]
  ∧ node_at (snd r) l
    = {| name := name_; host := host_; port := port_;
         incarnation := incarnation_; version := 1; metadata := metadata_;
         _status := NODE_STATUS_ALIVE;
         _status_change_timestamp := Some (timer.clock (runtime s)) |}
  ∧ (∀ l', (l' < l)%nat → node_at (snd r) l' = node_at s l')
  ∧ _suspect_nodes (snd r) = _suspect_nodes s
  ∧ _local_node_name (snd r) = _local_node_name s
  ∧ _local_node_seq (snd r) = _local_node_seq s
  ∧ _queue (snd r)
    = push name_
        (encode (AliveMessage name_
                   {| address := host_; messages.port := port_ |}
                   incarnation_ metadata_))
        (_queue s)
  ∧ _events (snd r) = _events s ++ [("node.alive", l)].
Proof.
  intros Hok Hnew Hinc. cbv zeta.
  destruct (on_node_alive_register s name_ incarnation_ host_ port_ metadata_
              bootstrap rnd Hnew) as (nodes' & Hperm & ->).
  set (s1 := registered name_ host_ port_ nodes' s).
  set (l := length (store s)).
  pose proof (registered_ok name_ host_ port_ nodes' s Hok Hnew Hperm)
    as [Hwf1 _]. fold s1 in Hwf1.
  assert (Hl1 : _nodes_map s1 !! name_ = Some l)
    by (subst s1; simpl; by rewrite lookup_insert_eq).
  assert (Hat : node_at s1 l = Node_init name_ host_ port_).
  { unfold node_at. subst s1 l. simpl. apply list_lookup_total_correct.
    by rewrite lookup_app_r, Nat.sub_diag. }
  destruct Hok as [Hwf Hloc].
  assert (Hltmap : ∀ n l', _nodes_map s !! n = Some l' → (l' < l)%nat).
  { intros n l' Hn. destruct (wf_map _ Hwf _ _ Hn) as (x & Hx & _).
    by eapply lookup_lt_Some. }
  assert (Hfresh : ¬ alive_is_stale s1 l incarnation_).
  { unfold alive_is_stale. rewrite Hat. simpl.
    assert (Hiff : local_node s1 = Some l ↔ _local_node_name s = Some name_).
    { unfold local_node. subst s1. simpl.
      destruct (_local_node_name s) as [n|]; [|done].
      rewrite lookup_insert. destruct (decide (name_ = n)) as [->|Hn]; [done|].
      split; [|congruence]. intros Hl'%Hltmap. lia. }
    destruct (decide (_local_node_name s = Some name_)) as [Hy|Hn].
    - rewrite (bool_decide_eq_true_2 _ Hy) in Hinc.
      rewrite bool_decide_eq_true_2 by (by apply Hiff). lia.
    - rewrite (bool_decide_eq_false_2 _ Hn) in Hinc.
      rewrite bool_decide_eq_false_2 by (by rewrite Hiff). lia. }
  destruct (on_node_alive_run s1 name_ incarnation_ host_ port_ metadata_
              bootstrap rnd l Hwf1 Hl1) as [Hfst Hdecl];
    [by rewrite Hat..|done|].
  destruct Hdecl as (Hnode & (Hoth & Hnodes & Hmap & Hlname & Hlseq & _) & Hsus & _
                     & Hq & Hev).
  rewrite Hat in *. simpl in *.
  split_and!; try done.
  - by rewrite Hnodes.
  - rewrite Hnode. unfold _set_status, set_metadata, set_incarnation. simpl.
    destruct (decide (NODE_STATUS_ALIVE ≠ NODE_STATUS_DEAD)) as [_|Hne];
      [|by destruct Hne].
    simpl. by rewrite (right_id_L ∅ (∪)).
  - intros l' Hl'. rewrite Hoth by lia. unfold node_at. simpl.
    by rewrite lookup_total_app_l.
  - rewrite Hsus. apply delete_id. apply eq_None_not_Some. intros Hsome.
    apply (wf_suspect _ Hwf) in Hsome as (l' & x & Hl' & _). congruence.
  - by rewrite (right_id_L ∅ (∪)) in Hq.
Qed.

(** X9: in every reachable state [on_node_alive] returns, whatever
    its arguments, and the name it was called with is a member
    afterwards. *)
Theorem on_node_alive_returns s name_ incarnation_ host_ port_ metadata_
    bootstrap rnd :
  reachable s →
  let r := on_node_alive name_ incarnation_ host_ port_ metadata_ bootstrap
             rnd s in
  fst r = Ok tt ∧ is_Some (_nodes_map (snd r) !! name_).
Proof.
  intros Hreach. cbv zeta.
  pose proof (on_node_alive_ok name_ incarnation_ host_ port_ metadata_
                bootstrap rnd s
                (membership_ok_but name_ s (reachable_ok s Hreach))) as Hwp.
  unfold wp in Hwp.
  destruct (on_node_alive _ _ _ _ _ _ _ s) as [[[]|] s']; [|done].
  destruct Hwp as [_ (l & Hl & _)]. split; [done|]. by exists l.
Qed.

(** X10: an ALIVE for a member at the member's address that passes
    the freshness test is accepted: the member becomes ALIVE with the
    incarnation of the message and the metadata of the message merged
    over its own, its suspicion, if any, is dropped and its timer
    cancelled, the ALIVE is queued for broadcast, and [node.alive] is
    emitted exactly when the member was not ALIVE before. *)
Theorem on_node_alive_accepted s name_ incarnation_ host_ port_ metadata_
    bootstrap rnd l :
  reachable s → _nodes_map s !! name_ = Some l →
  host (node_at s l) = host_ → port (node_at s l) = port_ →
  ¬ alive_is_stale s l incarnation_ →
  let r := on_node_alive name_ incarnation_ host_ port_ metadata_ bootstrap
             rnd s in
  fst r = Ok tt ∧ declared_alive s l incarnation_ metadata_ (snd r).
Proof.
  intros [Hwf _]%reachable_ok. by apply on_node_alive_run.
Qed.

(** X11: an ALIVE with a positive incarnation for a name the manager
    does not know makes the name a member: a record for it is stored at
    a new address, filed in the name map and in the ordered list, ALIVE
    with the incarnation and the metadata of the message; the other
    records stay as they were, the ALIVE is queued for broadcast and
    [node.alive] is emitted. *)
Theorem on_node_alive_joins s name_ incarnation_ host_ port_ metadata_
    bootstrap rnd :
  reachable s → _nodes_map s !! name_ = None → 0 < incarnation_ →
  let r := on_node_alive name_ incarnation_ host_ port_ metadata_ bootstrap
             rnd s in
  let l := length (store s) in
  fst r = Ok tt
  ∧ _nodes_map (snd r) = <[name_ := l]> (_nodes_map s)
  ∧ _nodes (snd r) ≡ₚ _nodes s ++ [l]
  ∧ node_at (snd r) l
    = {| name := name_; host := host_; port := port_;
         incarnation := incarnation_; version := 1; metadata := metadata_;
         _status := NODE_STATUS_ALIVE;
         _status_change_timestamp := Some (timer.clock (runtime s)) |}
  ∧ (∀ l', (l' < l)%nat → node_at (snd r) l' = node_at s l')
  ∧ _suspect_nodes (snd r) = _suspect_nodes s
  ∧ _queue (snd r)
    = push name_
        (encode (AliveMessage name_
                   {| address := host_; messages.port := port_ |}
                   incarnation_ metadata_))
        (_queue s)
  ∧ _events (snd r) = _events s ++ [("node.alive", l)].
Proof.
  intros Hreach Hnew Hinc.
  destruct (on_node_alive_joins_run s name_ incarnation_ host_ port_ metadata_
              bootstrap rnd) as (?&?&?&?&?&?&?&?&?&?); [..|by split_and!].
  - apply membership_ok_but. by apply reachable_ok.
  - done.
  - case_bool_decide; lia.
Qed.

(** X12: a SUSPECT about a member other than the local node that is
    not ignored is accepted: the member becomes SUSPECT with the
    incarnation of the message and the metadata of the message merged
    over its own; a member that was SUSPECT already keeps its entry of
    the suspect table and its timer, otherwise an entry is created
    whose timer has started; the SUSPECT is queued for broadcast in the
    name of the local node, and [node.suspect] is emitted exactly when
    the member was not SUSPECT before. *)
Theorem on_node_suspect_accepted s name_ incarnation_ metadata_ l l0 :
  reachable s → _nodes_map s !! name_ = Some l →
  _status (node_at s l) ≠ NODE_STATUS_DEAD →
  incarnation (node_at s l) ≤ incarnation_ →
  local_node s = Some l0 → l0 ≠ l →
  let r := on_node_suspect name_ incarnation_ metadata_ s in
  fst r = Ok tt ∧ declared_suspect s l l0 incarnation_ metadata_ (snd r).
Proof.
  intros [Hwf _]%reachable_ok. by apply on_node_suspect_run.
Qed.

(** X13: a DEAD that is not ignored, about a member other than the
    local node or about the local node while it is leaving, is accepted:
    the member becomes DEAD with the incarnation of the message, its
    suspicion, if any, is dropped and its timer cancelled, the DEAD is
    queued for broadcast in the name of the local node, and [node.dead]
    is emitted. *)
Theorem on_node_dead_accepted s name_ incarnation_ l l0 :
  reachable s → _nodes_map s !! name_ = Some l →
  _status (node_at s l) ≠ NODE_STATUS_DEAD →
  incarnation (node_at s l) ≤ incarnation_ →
  local_node s ≠ Some l ∨ _leaving s = true →
  local_node s = Some l0 →
  let r := on_node_dead name_ incarnation_ s in
  fst r = Ok tt ∧ declared_dead s l l0 incarnation_ (snd r).
Proof.
  intros [Hwf _]%reachable_ok. by apply on_node_dead_run.
Qed.
End handler_outcomes.

(** ** The handlers composed: joining, leaving, the end of a suspicion *)

Section handler_compositions.
Context {F : Type} `{PyFloat F} `{Serializer}.
Implicit Types (s : NodeManager F).

Lemma declared_dead_from s0 s l l0 incarnation_ s' :
  store s0 = store s → _nodes s0 = _nodes s → _nodes_map s0 = _nodes_map s →
  _suspect_nodes s0 = _suspect_nodes s → _queue s0 = _queue s →
  _events s0 = _events s → _local_node_name s0 = _local_node_name s →
  _local_node_seq s0 = _local_node_seq s → _leaving s0 = _leaving s →
  timer.clock (runtime s0) = timer.clock (runtime s) →
  declared_dead s0 l l0 incarnation_ s' → declared_dead s l l0 incarnation_ s'.
Proof.
  unfold declared_dead, others_kept, suspicion_disarmed, node_at.
  intros -> -> -> -> -> -> -> -> -> ->. done.
Qed.

(** X14: when the event loop runs the pending handle of a suspicion
    and then starts the task this makes, the suspected member, when it
    is not the local node, is declared DEAD with the incarnation it has:
    the expiry of a suspicion ends in [on_node_dead]. *)
Theorem suspicion_expiry_declares_dead s l l0 h :
  reachable s →
  _nodes_map s !! name (node_at s l) = Some l →
  suspicion_pending s l h →
  timer.tasks (runtime s) = [] →
  local_node s = Some l0 → l0 ≠ l →
  let fired := with_runtime (timer.run_handle h (runtime s)) s in
  let r := run_task fired in
  fst r = Ok tt
  ∧ declared_dead s l l0 (incarnation (node_at s l)) (snd r).
Proof.
  intros [Hwf _]%reachable_ok Hl (sn & e & Hsn & Hh & He & Hpend & Hcb)
    Htasks Hloc Hne.
  cbv zeta.
  assert (Hst : _status (node_at s l) = NODE_STATUS_SUSPECT).
  { destruct (proj1 (wf_suspect _ Hwf _) (mk_is_Some _ _ Hsn))
      as (l' & x & Hl' & Hx & Hs).
    rewrite Hl in Hl'. injection Hl' as <-.
    unfold node_at. by rewrite (list_lookup_total_correct _ _ _ Hx). }
  unfold run_task, timer.run_handle. rewrite He, Hpend, Htasks, Hcb.
  unfold _handle_suspect_timer, mbind, M_bind, get, deref, modify. simpl.
  match goal with |- context [on_node_dead _ _ ?st] => set (s2 := st) end.
  change (node_at s2 l) with (node_at s l).
  assert (Hwf2 : wf s2) by (destruct Hwf; by split).
  assert (Hst2 : _status (node_at s2 l) ≠ NODE_STATUS_DEAD).
  { change (node_at s2 l) with (node_at s l). rewrite Hst.
    unfold NODE_STATUS_SUSPECT, NODE_STATUS_DEAD. congruence. }
  assert (Hnl2 : local_node s2 ≠ Some l ∨ _leaving s2 = true).
  { left. change (local_node s2) with (local_node s). congruence. }
  destruct (on_node_dead_run s2 (name (node_at s l))
              (incarnation (node_at s l)) l l0 Hwf2 Hl Hst2 (Z.le_refl _)
              Hnl2 Hloc) as [Hfst Hdecl].
  split; [done|]. by apply (declared_dead_from s2).
Qed.
(** X15: [leave_local_node] raises [AssertionError], the state staying
    as it was, when no local node has been named; when the local node
    is a member that is not DEAD, it returns with the manager leaving
    and the local node declared DEAD with the incarnation it has, not
    refuted. *)
Theorem leave_local_node_outcome s :
  reachable s →
  (_local_node_name s = None → leave_local_node s = (Raise AssertionError, s))
  ∧ (∀ l, local_node s = Some l →
          _status (node_at s l) ≠ NODE_STATUS_DEAD →
          let r := leave_local_node s in
          fst r = Ok tt
          ∧ declared_dead (with_leaving true s) l l (incarnation (node_at s l))
              (snd r)
          ∧ _leaving (snd r) = true).
Proof.
  intros [Hwf _]%reachable_ok. split.
  - intros Hnone. unfold leave_local_node, mbind, M_bind, get. cbv beta iota.
    by rewrite (bool_decide_eq_true_2 _ Hnone).
  - intros l Hloc Hst. cbv zeta.
    assert (Hname : _local_node_name s ≠ None).
    { unfold local_node in Hloc. by destruct (_local_node_name s). }
    assert (Hl : _nodes_map s !! name (node_at s l) = Some l).
    { unfold local_node in Hloc. destruct (_local_node_name s) as [n|]; [|done].
      destruct (wf_map _ Hwf _ _ Hloc) as (x & Hx & Hn).
      unfold node_at. by rewrite (list_lookup_total_correct _ _ _ Hx), Hn. }
    unfold leave_local_node, mbind, M_bind, get, modify. cbv beta iota.
    rewrite (bool_decide_eq_false_2 _ Hname). cbv beta iota.
    change (local_node (with_leaving true s)) with (local_node s).
    rewrite Hloc.
    change (node_at (with_leaving true s) l) with (node_at s l).
    assert (Hwf1 : wf (with_leaving true s)) by (destruct Hwf; by split).
    destruct (on_node_dead_run (with_leaving true s) (name (node_at s l))
                (incarnation (node_at s l)) l l Hwf1 Hl Hst (Z.le_refl _)
                (or_intror eq_refl) Hloc) as [Hfst Hdecl].
    split; [done|]. split; [done|].
    by destruct Hdecl as (_ & (_ & _ & _ & _ & _ & ->) & _).
Qed.

(** X16: [set_local_node] with a name the manager does not know
    returns with that name the local node, a new member that is ALIVE
    with the next value of the local sequence as its incarnation; the
    ALIVE is queued for broadcast and [node.alive] is emitted. *)
Theorem set_local_node_joins s name_ host_ port_ metadata_ rnd :
  reachable s → _nodes_map s !! name_ = None →
  let r := set_local_node name_ host_ port_ metadata_ rnd s in
  let l := length (store s) in
  let v := fst (sequence.increment (_local_node_seq s)) in
  fst r = Ok tt
  ∧ local_node (snd r) = Some l
  ∧ _local_node_seq (snd r) = v
  ∧ node_at (snd r) l
    = {| name := name_; host := host_; port := port_;
         incarnation := v; version := 1; metadata := metadata_;
         _status := NODE_STATUS_ALIVE;
         _status_change_timestamp := Some (timer.clock (runtime s)) |}
  ∧ _nodes (snd r) ≡ₚ _nodes s ++ [l]
  ∧ _queue (snd r)
    = push name_
        (encode (AliveMessage name_
                   {| address := host_; messages.port := port_ |}
                   v metadata_))
        (_queue s)
  ∧ _events (snd r) = _events s ++ [("node.alive", l)].
Proof.
  intros [Hwf _]%reachable_ok Hnew. cbv zeta.
  unfold set_local_node, mbind, M_bind, get, modify, sequence.increment.
  cbv beta iota zeta.
  change (_local_node_seq (with_local_node_name (Some name_) s))
    with (_local_node_seq s).
  set (v := (_local_node_seq s + 1) `mod` 2 ^ 64).
  match goal with |- context [on_node_alive _ _ _ _ _ _ _ ?st] =>
    set (s0 := st) end.
  destruct (on_node_alive_joins_run s0 name_ v host_ port_ metadata_ true rnd)
    as (Hfst & Hmap & Hnodes & Hnode & _ & _ & Hlname & Hlseq & Hq & Hev).
  { split; [destruct Hwf; by split|]. intros n [= <-]. by left. }
  { done. }
  { rewrite bool_decide_eq_true_2 by done. subst v.
    apply Z.mod_pos_bound. lia. }
  split_and!; try done.
  unfold local_node. rewrite Hlname, Hmap. simpl. by rewrite lookup_insert_eq.
Qed.
End handler_compositions.

(** ** Members are never removed nor re-addressed *)

Section persistence.
Context {F : Type} `{PyFloat F} `{Serializer}.
Implicit Types (s : NodeManager F).

Lemma identities_kept_refl s : identities_kept s s.
Proof. by split_and!. Qed.

Lemma identities_kept_trans s1 s2 s3 :
  identities_kept s1 s2 → identities_kept s2 s3 → identities_kept s1 s3.
Proof.
  intros (Hlen1 & Hid1 & Hmap1) (Hlen2 & Hid2 & Hmap2). split_and!.
  - lia.
  - intros l Hl. destruct (Hid1 l Hl) as (<- & <- & <-). apply Hid2. lia.
  - by etrans.
Qed.

Lemma identities_kept_view s s' :
  store s' = store s → _nodes_map s' = _nodes_map s → identities_kept s s'.
Proof.
  intros Hst Hmap. unfold identities_kept, node_at. rewrite Hst, Hmap.
  by split_and!.
Qed.

Lemma identities_bind {A B} (m : M F A) (f : A → M F B) s :
  identities_kept s (snd (m s)) → (∀ a, keeps (f a)) →
  identities_kept s (snd ((m ≫= f) s)).
Proof.
  intros Hm Hf. unfold mbind, M_bind. destruct (m s) as [[a|e] s1]; [|done].
  eapply identities_kept_trans; [exact Hm|apply Hf].
Qed.

Lemma keeps_bind {A B} (m : M F A) (f : A → M F B) :
  keeps m → (∀ a, keeps (f a)) → keeps (m ≫= f).
Proof. intros Hm Hf s. by apply identities_bind. Qed.

Lemma keeps_ret {A} (a : A) : keeps (mret a : M F A).
Proof. intros s. apply identities_kept_refl. Qed.

Lemma keeps_raise {A} (e : exn) : keeps (raise e : M F A).
Proof. intros s. apply identities_kept_refl. Qed.

Lemma keeps_get : keeps (get (F:=F)).
Proof. intros s. apply identities_kept_refl. Qed.

Lemma keeps_deref (l : loc) : keeps (deref (F:=F) l).
Proof. intros s. apply identities_kept_refl. Qed.

Lemma keeps_time : keeps (time_time (F:=F)).
Proof. intros s. apply identities_kept_refl. Qed.

Lemma keeps_modify (g : NodeManager F → NodeManager F) :
  (∀ s, store (g s) = store s ∧ _nodes_map (g s) = _nodes_map s) →
  keeps (modify g).
Proof. intros Hg s. destruct (Hg s). by apply identities_kept_view. Qed.

Lemma keeps_when (b : bool) (m : M F unit) : keeps m → keeps (when b m).
Proof. intros Hm. destruct b; [done|apply keeps_ret]. Qed.

Lemma keeps_setattr (l : loc) (f : Node F → Node F) :
  (∀ x, name (f x) = name x ∧ host (f x) = host x ∧ port (f x) = port x) →
  keeps (setattr l f).
Proof.
  intros Hf s. unfold setattr, modify, identities_kept, node_at. simpl.
  rewrite length_insert. split_and!; [done| |done].
  intros l' Hl'. destruct (decide (l' = l)) as [->|Hne].
  - rewrite list_lookup_total_insert_eq by done. apply Hf.
  - by rewrite list_lookup_total_insert_ne.
Qed.

Lemma set_status_identity (v : string) (now : F) (x : Node F) :
  name (_set_status v now x) = name x ∧ host (_set_status v now x) = host x
  ∧ port (_set_status v now x) = port x.
Proof. unfold _set_status. by destruct (decide (v ≠ _status x)). Qed.

Ltac keeps_step :=
  first
    [ apply keeps_ret | apply keeps_raise | apply keeps_get
    | apply keeps_deref | apply keeps_time
    | apply keeps_when
    | apply keeps_modify; by intros ?
    | apply keeps_setattr; first [apply set_status_identity | by intros ?]
    | apply keeps_bind; [|intros ?]
    | match goal with
      | |- keeps (if ?b then _ else _) => destruct b
      | |- keeps (match ?x with _ => _ end) => destruct x
      | |- keeps (let '(_, _) := ?x in _) => destruct x
      end ].

Lemma keeps_on_node_suspect name_ incarnation_ metadata_ :
  keeps (on_node_suspect (F:=F) name_ incarnation_ metadata_).
Proof.
  unfold on_node_suspect. repeat keeps_step.
Qed.

Lemma keeps_on_node_dead name_ incarnation_ :
  keeps (on_node_dead (F:=F) name_ incarnation_).
Proof.
  unfold on_node_dead. repeat keeps_step.
Qed.
Lemma identities_registered name_ host_ port_ nodes' s :
  _nodes_map s !! name_ = None →
  identities_kept s (registered name_ host_ port_ nodes' s).
Proof.
  intros Hnew. unfold identities_kept, node_at. simpl. split_and!.
  - rewrite length_app. lia.
  - intros l Hl. by rewrite lookup_total_app_l.
  - by apply insert_subseteq.
Qed.

Lemma keeps_on_node_alive name_ incarnation_ host_ port_ metadata_ bootstrap
    rnd :
  keeps (on_node_alive (F:=F) name_ incarnation_ host_ port_ metadata_
           bootstrap rnd).
Proof.
  intros s. unfold on_node_alive.
  change ((get ≫= ?f) s) with (f s s). cbv beta.
  apply identities_bind; [|intros l; repeat keeps_step].
  destruct (_nodes_map s !! name_) as [l|] eqn:Hl;
    [apply identities_kept_refl|].
  destruct (register_spec name_ host_ port_ rnd s) as (nodes' & -> & _).
  by apply identities_registered.
Qed.

Lemma keeps_run_task : keeps (run_task (F:=F)).
Proof.
  unfold run_task, _handle_suspect_timer. repeat keeps_step.
Qed.

Lemma keeps_set_local_node name_ host_ port_ metadata_ rnd :
  keeps (set_local_node (F:=F) name_ host_ port_ metadata_ rnd).
Proof.
  unfold set_local_node, sequence.increment. cbv zeta.
  do 3 (apply keeps_bind; [keeps_step|intros ?]).
  apply keeps_on_node_alive.
Qed.

Lemma keeps_leave_local_node : keeps (leave_local_node (F:=F)).
Proof.
  unfold leave_local_node. repeat keeps_step.
Qed.

Lemma advance_identities s s' : advance s s' → identities_kept s s'.
Proof.
  destruct 1.
  - apply keeps_on_node_alive.
  - apply keeps_on_node_suspect.
  - apply keeps_on_node_dead.
  - by apply identities_kept_view.
  - apply keeps_run_task.
  - apply keeps_set_local_node.
  - apply keeps_leave_local_node.
  - by apply identities_kept_view.
Qed.

(** X17: nothing that advances a manager from a reachable state
    removes a member or changes the address a member is stored at, its
    name, its host or its port. *)
Theorem members_never_removed s s' :
  reachable s → advance s s' → members_kept s s'.
Proof.
  intros [Hwf _]%reachable_ok (Hlen & Hid & Hmap)%advance_identities n l Hl.
  split; [by eapply lookup_weaken|]. apply Hid.
  destruct (wf_map _ Hwf _ _ Hl) as (x & Hx & _). by eapply lookup_lt_Some.
Qed.
End persistence.

(** ** The manager read as a sequence and as a mapping *)

Section manager_access.
Context {F : Type} `{PyFloat F} `{Serializer}.
Implicit Types (s : NodeManager F).

Lemma list_getitem_in_range {A} (l : list A) (i : Z) :
  - Z.of_nat (length l) ≤ i < Z.of_nat (length l) →
  list_getitem l i = match l !! Z.to_nat (i `mod` Z.of_nat (length l)) with
                     | Some x => Ok x
                     | None => Raise IndexError
                     end
  ∧ (Z.to_nat (i `mod` Z.of_nat (length l)) < length l)%nat.
Proof.
  intros Hi. unfold list_getitem.
  assert (Hmod : i `mod` Z.of_nat (length l)
                 = if i <? 0 then i + Z.of_nat (length l) else i).
  { destruct (Z.ltb_spec i 0).
    - symmetry. apply Z.mod_unique_pos with (q := -1); lia.
    - apply Z.mod_small. lia. }
  rewrite Hmod. destruct (Z.ltb_spec i 0) as [Hneg|Hpos].
  - rewrite (proj2 (Z.ltb_ge _ _)) by lia. split; [done|lia].
  - rewrite (proj2 (Z.ltb_ge _ _)) by lia. split; [done|lia].
Qed.

Lemma list_getitem_out_of_range {A} (l : list A) (i : Z) :
  ¬ (- Z.of_nat (length l) ≤ i < Z.of_nat (length l)) →
  list_getitem l i = Raise IndexError.
Proof.
  intros Hi. unfold list_getitem. destruct (Z.ltb_spec i 0) as [Hneg|Hpos].
  - by rewrite (proj2 (Z.ltb_lt _ _)) by lia.
  - rewrite (proj2 (Z.ltb_ge _ _)) by lia.
    rewrite lookup_ge_None_2; [done|lia].
Qed.

(** X18: in a reachable state, indexing the manager with an integer
    [i] in [-len, len) returns the node at position [i mod len] of the
    ordered list, and indexing with that node's name returns the same
    node; an integer out of that range raises [IndexError]; a name
    that is a member is also found under an index in [0, len), and a
    name that is not raises [KeyError]. *)
Theorem getitem_by_index_and_name s :
  reachable s →
  let len := Z.of_nat (__len__ s) in
  (∀ i, - len ≤ i < len →
        ∃ l, __getitem__ (PInt i) s = (Ok l, s)
             ∧ _nodes s !! Z.to_nat (i `mod` len) = Some l
             ∧ __getitem__ (PStr (name (node_at s l))) s = (Ok l, s))
  ∧ (∀ i, ¬ (- len ≤ i < len) →
          __getitem__ (PInt i) s = (Raise IndexError, s))
  ∧ (∀ n, match _nodes_map s !! n with
          | Some l => __getitem__ (PStr n) s = (Ok l, s)
                      ∧ ∃ i, 0 ≤ i < len
                             ∧ __getitem__ (PInt i) s = (Ok l, s)
          | None => __getitem__ (PStr n) s = (Raise KeyError, s)
          end).
Proof.
  intros [Hwf _]%reachable_ok. cbv zeta. unfold __len__. split_and!.
  - intros i Hi. destruct (list_getitem_in_range (_nodes s) i Hi) as [Heq Hlt].
    destruct (lookup_lt_is_Some_2 _ _ Hlt) as [l Hl].
    exists l. unfold __getitem__, mbind, M_bind, get. cbv beta iota.
    rewrite Heq, Hl. split_and!; [done..|].
    assert (Hin : l ∈ _nodes s) by (by eapply list_elem_of_lookup_2).
    apply (wf_list _ Hwf) in Hin as [n Hn].
    destruct (wf_map _ Hwf _ _ Hn) as (x & Hx & Hname).
    unfold node_at. rewrite (list_lookup_total_correct _ _ _ Hx), Hname.
    by rewrite Hn.
  - intros i Hi. unfold __getitem__, mbind, M_bind, get. cbv beta iota.
    by rewrite list_getitem_out_of_range.
  - intros n. unfold __getitem__ at 1 3, mbind, M_bind, get. cbv beta iota.
    destruct (_nodes_map s !! n) as [l|] eqn:Hn; [|done].
    split; [done|].
    assert (Hin : l ∈ _nodes s) by (apply (wf_list _ Hwf); by exists n).
    apply list_elem_of_lookup_1 in Hin as [j Hj].
    pose proof (lookup_lt_Some _ _ _ Hj) as Hlt.
    exists (Z.of_nat j). split; [lia|].
    unfold __getitem__, mbind, M_bind, get. cbv beta iota.
    destruct (list_getitem_in_range (_nodes s) (Z.of_nat j)) as [-> _]; [lia|].
    rewrite Z.mod_small by lia. by rewrite Nat2Z.id, Hj.
Qed.

(** X19: in a reachable state [len] of the manager, the length of the
    ordered list, is the number of names in the name map. *)
Theorem len_counts_members s :
  reachable s → __len__ s = size (_nodes_map s).
Proof.
  intros [Hwf _]%reachable_ok. unfold __len__.
  rewrite <- (length_map_to_list (_nodes_map s)).
  rewrite <- (length_fmap snd (map_to_list (_nodes_map s))).
  apply Permutation_length, NoDup_Permutation.
  - apply (wf_nodup _ Hwf).
  - apply NoDup_fmap_2_strong; [|apply NoDup_map_to_list].
    intros [n1 l1] [n2 l2] Hin1%elem_of_map_to_list Hin2%elem_of_map_to_list.
    simpl. intros <-. f_equal. by eapply wf_map_inj.
  - intros l. rewrite (wf_list _ Hwf), list_elem_of_fmap. split.
    + intros [n Hn]. exists (n, l). by rewrite elem_of_map_to_list.
    + intros [[n l'] [-> Hin%elem_of_map_to_list]]. by exists n.
Qed.
End manager_access.

(** ** The waiters of the probes *)

Section probe_waiters.
Context {F : Type} `{PyFloat F} `{Serializer} `{Fetch}.
Implicit Types (c : cluster.Cluster F).

Lemma with_probe_status_twice (m m' : gmap Z (option bool)) c :
  cluster.with_probe_status m (cluster.with_probe_status m' c)
  = cluster.with_probe_status m c.
Proof. done. Qed.

(** X20: a waiter registered for [seq] and woken with no answer raises
    [TimeoutError]; woken after an ACK for [seq] it returns [True], and
    after a NACK [False]; on each path the entry of [seq] is removed and
    the cluster is otherwise as before the registration. *)
Theorem wait_for_probe_outcomes c (seq : Z) :
  let waiting := snd (cluster._wait_for_probe_begin seq c) in
  let dropped :=
    cluster.with_probe_status (delete seq (cluster._probe_status c)) c in
  cluster._wait_for_probe_resume seq waiting = (Raise TimeoutError, dropped)
  ∧ cluster._wait_for_probe_resume seq
      (snd (cluster._handle_ack_message seq waiting)) = (Ok true, dropped)
  ∧ cluster._wait_for_probe_resume seq
      (snd (cluster._handle_nack_message seq waiting)) = (Ok false, dropped).
Proof.
  cbv zeta.
  unfold cluster._wait_for_probe_begin, cluster._wait_for_probe_resume,
    cluster._handle_ack_message, cluster._handle_nack_message,
    mbind, cluster.CM_bind, cluster.cget, cluster.cmodify, cluster.craise.
  simpl. rewrite !lookup_insert_eq. simpl. rewrite !lookup_insert_eq. simpl.
  rewrite !with_probe_status_twice, !insert_insert_eq, !delete_insert_eq.
  done.
Qed.

(** X21: the first answer to a waiting probe decides it: a second ACK
    or NACK for the same [seq] before the waiter wakes raises
    [InvalidStateError] and changes nothing, the waiter then returns
    the first answer, and an ACK or NACK that arrives after the waiter
    has been dropped is ignored. *)
Theorem probe_answered_once c (seq : Z) (first second : bool) :
  let answer (b : bool) :=
    if b then cluster._handle_ack_message seq
    else cluster._handle_nack_message seq in
  let waiting := snd (cluster._wait_for_probe_begin seq c) in
  let answered := snd (answer first waiting) in
  let dropped :=
    cluster.with_probe_status (delete seq (cluster._probe_status c)) c in
  answer second answered = (Raise InvalidStateError, answered)
  ∧ cluster._wait_for_probe_resume seq answered = (Ok first, dropped)
  ∧ answer second dropped = (Ok tt, dropped).
Proof.
  cbv zeta.
  destruct first, second;
    unfold cluster._wait_for_probe_begin, cluster._wait_for_probe_resume,
      cluster._handle_ack_message, cluster._handle_nack_message,
      mbind, cluster.CM_bind, cluster.cget, cluster.cmodify, cluster.craise;
    simpl; rewrite !lookup_insert_eq; simpl; rewrite !lookup_insert_eq; simpl;
    rewrite ?lookup_delete_eq;
    rewrite ?with_probe_status_twice, ?insert_insert_eq, ?delete_insert_eq;
    done.
Qed.

End probe_waiters.

(** ** The periodic probe and the periodic sync *)

Section scheduler.
Context {F : Type} `{PyFloat F} `{Serializer} `{Fetch}.
Implicit Types (c : cluster.Cluster F).

Lemma do_probe_skip_false c node :
  cluster._do_probe_skip c node = false ↔ probe_target c node.
Proof.
  unfold cluster._do_probe_skip, probe_target.
  destruct (decide (local_node (cluster._nodes c) = Some node)) as [Hl|Hl].
  - rewrite (bool_decide_eq_true_2 _ Hl). split; [done|]. by intros [? _].
  - rewrite (bool_decide_eq_false_2 _ Hl).
    destruct (decide (_status (node_at (cluster._nodes c) node)
                      = NODE_STATUS_DEAD)) as [Hd|Hd].
    + rewrite (bool_decide_eq_true_2 _ Hd). split; [done|]. by intros [_ ?].
    + by rewrite (bool_decide_eq_false_2 _ Hd).
Qed.

Lemma do_probe_skip_true c node :
  cluster._do_probe_skip c node = true ↔ ¬ probe_target c node.
Proof.
  rewrite <- do_probe_skip_false. by destruct (cluster._do_probe_skip c node).
Qed.

Lemma do_probe_loop_spec c (start probe_index checked : nat) :
  let nodes := _nodes (cluster._nodes c) in
  let len := length nodes in
  (checked ≤ len)%nat →
  (start < len ∨ len = 0)%nat →
  (if decide (len ≤ probe_index)%nat then 0 else probe_index)%nat
  = ((start + checked) mod len)%nat →
  (∀ d, (d < checked)%nat →
        ∃ n, nodes !! ((start + d) mod len)%nat = Some n
             ∧ ¬ probe_target c n) →
  match cluster._do_probe_loop c probe_index checked with
  | (Ok (Some node), index') =>
      ∃ m, (m < len)%nat
           ∧ nodes !! ((start + m) mod len)%nat = Some node
           ∧ index' = S ((start + m) mod len)
           ∧ probe_target c node
           ∧ ∀ d, (d < m)%nat →
                  ∃ n, nodes !! ((start + d) mod len)%nat = Some n
                       ∧ ¬ probe_target c n
  | (Ok None, _) => ∀ node, node ∈ nodes → ¬ probe_target c node
  | (Raise _, _) => False
  end.
Proof.
  cbv zeta.
  funelim (cluster._do_probe_loop c probe_index checked);
    intros Hk Hstart Hpos Hskipped.
  all: try (rewrite <- Heqcall).
  - (* the loop ends: every position has been checked *)
    intros node [j Hj]%list_elem_of_lookup_1.
    pose proof (lookup_lt_Some _ _ _ Hj) as Hlt.
    destruct Hstart as [Hstart|Hzero]; [|lia].
    set (len := length (_nodes (cluster._nodes c))) in *.
    destruct (decide (start ≤ j)%nat).
    + destruct (Hskipped (j - start)%nat) as (n' & Hn' & Hskip); [lia|].
      replace (start + (j - start))%nat with j in Hn' by lia.
      rewrite Nat.mod_small in Hn' by done. congruence.
    + destruct (Hskipped (j + len - start)%nat) as (n' & Hn' & Hskip); [lia|].
      replace (start + (j + len - start))%nat with (j + 1 * len)%nat in Hn'
        by lia.
      rewrite Nat.Div0.mod_add, Nat.mod_small in Hn' by done. congruence.
  - (* the cursor wraps *)
    match goal with IH : ∀ _ : nat, _ → _ → _ → _ → _ |- _ =>
      apply IH; try done end.
    rewrite <- Hpos.
    destruct (decide (length (_nodes (cluster._nodes c)) ≤ 0)%nat);
      destruct (decide (length (_nodes (cluster._nodes c)) ≤ probe_index)%nat);
      done.
  - (* indexing inside the list cannot fail *)
    apply lookup_ge_None in Heq. lia.
  - (* the node under the cursor is skipped *)
    match goal with IH : ∀ _ : nat, _ → _ → _ → _ → _ |- _ =>
      apply IH end.
    + lia.
    + done.
    + rewrite decide_False in Hpos by done.
      replace (start + S checked)%nat with ((start + checked) + 1)%nat by lia.
      rewrite <- Nat.Div0.add_mod_idemp_l, <- Hpos.
      destruct (decide (length (_nodes (cluster._nodes c)) ≤ S probe_index)%nat).
      * replace (probe_index + 1)%nat
          with (length (_nodes (cluster._nodes c))) by lia.
        by rewrite Nat.Div0.mod_same.
      * rewrite Nat.mod_small; lia.
    + intros d Hd. destruct (decide (d = checked)) as [->|Hne].
      * rewrite <- Hpos, decide_False by done. exists node.
        split; [done|]. by apply do_probe_skip_true.
      * apply Hskipped. lia.
  - (* the node under the cursor is picked *)
    rewrite decide_False in Hpos by done. exists checked.
    rewrite <- Hpos. split_and!; try done. by apply do_probe_skip_false.
Qed.
(** X23: [_do_probe] never raises; it picks the first node, in the
    cyclic order of the list from the cursor on, that is neither the
    local node nor DEAD, every node before it in that order being one
    or the other, and leaves the cursor just behind the node picked; it
    picks none only when every member is the local node or DEAD. *)
Theorem do_probe_round_robin c (probe_index : nat) :
  let nodes := _nodes (cluster._nodes c) in
  let len := length nodes in
  let start := probe_start c probe_index in
  match cluster._do_probe c probe_index with
  | (Ok (Some node), index') =>
      ∃ m, (m < len)%nat
           ∧ nodes !! ((start + m) mod len)%nat = Some node
           ∧ index' = S ((start + m) mod len)
           ∧ probe_target c node
           ∧ ∀ d, (d < m)%nat →
                  ∃ n, nodes !! ((start + d) mod len)%nat = Some n
                       ∧ ¬ probe_target c n
  | (Ok None, _) => ∀ node, node ∈ nodes → ¬ probe_target c node
  | (Raise _, _) => False
  end.
Proof.
  cbv zeta. unfold cluster._do_probe.
  apply (do_probe_loop_spec c (probe_start c probe_index) probe_index 0).
  - lia.
  - unfold probe_start. case_decide; lia.
  - rewrite Nat.add_0_r. unfold probe_start.
    destruct (decide (length (_nodes (cluster._nodes c)) ≤ probe_index)%nat)
      as [Hge|Hlt].
    + symmetry. apply Nat.Div0.mod_0_l.
    + rewrite Nat.mod_small; lia.
  - intros d Hd. lia.
Qed.

(** X24: [_do_sync] never raises while choosing; the node it chooses,
    when it chooses one, is a member whose name is not the local name
    and that is not DEAD. *)
Theorem do_sync_selects_target c (rnd : nat → nat) :
  match cluster._do_sync_select c rnd with
  | Ok (Some node) => node ∈ _nodes (cluster._nodes c) ∧ sync_target c node
  | Ok None => True
  | Raise _ => False
  end.
Proof.
  unfold cluster._do_sync_select, select_random_nodes.
  match goal with |- context [select_loop ?k ?nodes ?p rnd [] 0%nat] =>
    destruct (select_loop_spec k nodes p rnd [] 0%nat)
      as (sel & Hsel & _ & _ & _ & Hall) end.
  - lia.
  - apply NoDup_nil_2.
  - simpl. lia.
  - lia.
  - apply Forall_nil_2.
  - rewrite Hsel. destruct sel as [|node sel]; [done|]. simpl.
    apply Forall_cons in Hall as [[Hin Hp] _]. split; [done|].
    apply andb_true_iff in Hp as [Hn%bool_decide_eq_true Hs%bool_decide_eq_true].
    by split.
Qed.
End scheduler.

(** ** Answers to PING, the start of a probe, and a SYNC of one's own *)

Section udp_paths.
Context {F : Type} `{PyFloat F} `{Serializer} `{Fetch}.
Implicit Types (c : cluster.Cluster F).

Lemma send_udp_message_run c host_ port_ msg :
  cluster._send_udp_message host_ port_ msg c = (Ok tt, sent c msg host_ port_).
Proof.
  unfold cluster._send_udp_message, sent, datagrams_for, gossip_for.
  unfold mbind, cluster.CM_bind, cluster.cget, cluster.cmodify. simpl.
  destruct (fetch _ _ _) as [gossip q']. simpl.
  rewrite foldl_app_concat. unfold cluster.sendto.
  destruct (encode msg ++ concat gossip); simpl; [|done].
  rewrite app_nil_r. by destruct c.
Qed.

(** X25: a PING is answered only when it names the local node: then
    one ACK with the sequence number of the PING goes, with the gossip
    that fits, to the address the PING gives for its sender; a PING for
    another name returns with the cluster as it was. *)
Theorem ping_answered_for_local_only c (seq : Z) (node : string)
    (sender_addr : InternetAddress) :
  cluster._handle_ping_message seq node sender_addr c
  = (Ok tt,
     if bool_decide (node = cluster.local_node_name c)
     then sent c (AckMessage seq node) (address sender_addr)
            (messages.port sender_addr)
     else c).
Proof.
  unfold cluster._handle_ping_message, mbind, cluster.CM_bind, cluster.cget.
  cbv beta iota.
  destruct (decide (node = cluster.local_node_name c)) as [->|Hne].
  - rewrite bool_decide_eq_false_2 by (by intros ?).
    rewrite bool_decide_eq_true_2 by done. apply send_udp_message_run.
  - rewrite (bool_decide_eq_true_2 _ Hne).
    by rewrite (bool_decide_eq_false_2 _ Hne).
Qed.

(** X26: [_probe_node] up to its suspension takes the next value of
    the probe sequence, sends to the target's host and port a PING with
    that number, the target's name and the local name and address, and
    then registers an unresolved waiter under that number; when the
    local address cannot be determined it raises [RuntimeError] with
    only the sequence advanced; finding the local port never fails. *)
Theorem probe_node_begins c (target_node : loc) :
  let tgt := node_at (cluster._nodes c) target_node in
  let seq := fst (sequence.increment (cluster._probe_seq c)) in
  let c1 := cluster.with_probe_seq seq c in
  match fst (cluster.local_node_address c), fst (cluster.local_node_port c) with
  | Ok a, Ok p =>
      let ping := PingMessage seq (name tgt) (cluster.local_node_name c)
                    {| address := a; messages.port := p |} in
      cluster._probe_node_begin target_node c
      = (Ok seq,
         cluster.with_probe_status (<[seq := None]> (cluster._probe_status c))
           (sent c1 ping (host tgt) (port tgt)))
  | Raise e, _ =>
      e = RuntimeError
      ∧ cluster._probe_node_begin target_node c = (Raise RuntimeError, c1)
  | _, Raise _ => False
  end.
Proof.
  cbv zeta.
  unfold cluster._probe_node_begin, cluster.probe_seq_increment,
    cluster._wait_for_probe_begin, sequence.increment.
  unfold cluster.local_node_address, cluster.local_node_port.
  unfold mbind, cluster.CM_bind, cluster.cget, cluster.cmodify, mret,
    cluster.CM_ret, cluster.craise. simpl.
  destruct (node_address (config (cluster._nodes c))) as [a|];
    [|destruct (bind_address (config (cluster._nodes c))) as [b|];
      [destruct (decide (b = "0.0.0.0"));
       [destruct (cluster.default_ip_address c) as [ip|]|]|]];
    simpl; try (split; done).
  all: destruct (node_port (config (cluster._nodes c))) as [p|];
    [|destruct (bind_port (config (cluster._nodes c))) as [p|]]; simpl.
  all: rewrite send_udp_message_run; done.
Qed.

(** X22: when a direct probe wakes with its future resolved by an ACK,
    [_probe_node] only drops the waiter: the membership is as it was.
    On a target that is SUSPECT the call of [on_node_alive], made with
    four of its five required arguments, raises [TypeError], so the ACK
    does not clear the suspicion; on any other target the probe
    returns. *)
Theorem acked_probe_leaves_membership c (target_node : loc) (seq : Z)
    rnd0 rnd :
  cluster._probe_status c !! seq = Some (Some true) →
  cluster._probe_node_resume target_node seq rnd0 rnd c
  = (if bool_decide (_status (node_at (cluster._nodes c) target_node)
                     = NODE_STATUS_SUSPECT)
     then Raise TypeError else Ok tt,
     cluster.with_probe_status (delete seq (cluster._probe_status c)) c).
Proof.
  intros Hfut.
  unfold cluster._probe_node_resume, cluster.try_except_else,
    cluster._wait_for_probe_resume, cluster._handle_probe_result,
    mbind, cluster.CM_bind, cluster.cget, cluster.cmodify, cluster.craise.
  rewrite Hfut. simpl.
  destruct (bool_decide _); [|done].
  unfold cluster.nodes_call, call_on_node_alive, raise. simpl. by destruct c.
Qed.

(** X27: merging an entry of the cluster's own snapshot changes
    nothing when the entry is DEAD, or ALIVE and not the local node's:
    the entry at position [i] of [local_state] is built from the node at
    position [i] of the membership, and [_merge_remote_state] on it
    returns with the cluster as it was. *)
Theorem merge_own_snapshot_unchanged c (i : nat) (l : loc)
    (rs : RemoteNodeState) rnd :
  reachable (cluster._nodes c) →
  _nodes (cluster._nodes c) !! i = Some l →
  cluster.local_state c !! i = Some rs →
  rs_status rs = NODE_STATUS_DEAD
  ∨ (rs_status rs = NODE_STATUS_ALIVE
     ∧ local_node (cluster._nodes c) ≠ Some l) →
  rs = snapshot_of (node_at (cluster._nodes c) l)
  ∧ cluster._merge_remote_state rs rnd c = (Ok tt, c).
Proof.
  intros [Hwf _]%reachable_ok Hl Hrs Hcase.
  unfold cluster.local_state in Hrs. rewrite list_lookup_fmap, Hl in Hrs.
  injection Hrs as <-. split; [done|].
  set (s := cluster._nodes c) in *. set (x := node_at s l) in *.
  assert (Hin : l ∈ _nodes s) by (by eapply list_elem_of_lookup_2).
  apply (wf_list _ Hwf) in Hin as [n Hn].
  destruct (wf_map _ Hwf _ _ Hn) as (x' & Hx' & Hname).
  assert (x' = x) as -> by (symmetry; by apply list_lookup_total_correct).
  subst n.
  unfold cluster._merge_remote_state, cluster._merge_remote_state_route.
  simpl in *.
  destruct Hcase as [Hdead|[Halive Hnl]].
  - rewrite Hdead.
    destruct (decide (NODE_STATUS_DEAD = NODE_STATUS_ALIVE)); [done|].
    destruct (decide (NODE_STATUS_DEAD = NODE_STATUS_SUSPECT)); [done|].
    destruct (decide (NODE_STATUS_DEAD = NODE_STATUS_DEAD)); [|done].
    unfold cluster.run_handler_call, call_on_node_suspect, cluster.nodes_call.
    fold s.
    assert (Hrun : on_node_suspect (name x) (incarnation x) (metadata x) s
                   = (Ok tt, s)).
    { unfold on_node_suspect, mbind, M_bind, get, deref. cbv beta iota.
      rewrite Hn. cbv beta iota. fold x.
      by rewrite (bool_decide_eq_true_2 _ Hdead). }
    rewrite Hrun. by destruct c.
  - rewrite Halive.
    destruct (decide (NODE_STATUS_ALIVE = NODE_STATUS_ALIVE)); [|done].
    unfold cluster.run_handler_call, call_on_node_alive, cluster.nodes_call.
    fold s.
    assert (Hrun : on_node_alive (name x) (incarnation x) (host x) (port x)
                     (metadata x) false rnd s = (Ok tt, s)).
    { unfold on_node_alive, mbind, M_bind, mret, M_ret, get, deref.
      cbv beta iota. rewrite Hn. cbv beta iota. fold x.
      rewrite !bool_decide_eq_false_2 by (by intros ?). simpl.
      rewrite (bool_decide_eq_false_2 _ Hnl). simpl.
      by rewrite Z.leb_refl. }
    rewrite Hrun. by destruct c.
Qed.
End udp_paths.

(** ** The relays of an indirect probe *)

Section indirect_probe.
Context {F : Type} `{PyFloat F} `{Serializer} `{Fetch}.
Implicit Types (c : cluster.Cluster F).




End indirect_probe.

(** ** The dispatch of UDP messages keeps the membership well formed *)

Section udp_dispatch.
Context {F : Type} `{PyFloat F} `{Serializer} `{Fetch}.
Implicit Types (c : cluster.Cluster F).

Lemma nodes_call_ok {A} (m : M F A) c :
  wp m (λ _, membership_ok None) (membership_ok None) (cluster._nodes c) →
  membership_ok None (cluster._nodes (snd (cluster.nodes_call m c))).
Proof.
  unfold wp, cluster.nodes_call.
  by destruct (m (cluster._nodes c)) as [[a|e] s'].
Qed.

Lemma sent_view c msg host_ port_ :
  same_view (cluster._nodes c) (cluster._nodes (sent c msg host_ port_)).
Proof. by split_and!. Qed.

Lemma ping_request_begin_view c (seq : Z) (node : string)
    (node_addr sender_addr : InternetAddress) :
  same_view (cluster._nodes c)
    (cluster._nodes
       (snd (cluster._handle_ping_request_message_begin seq node node_addr
               sender_addr c))).
Proof.
  unfold cluster._handle_ping_request_message_begin,
    cluster.probe_seq_increment, cluster._wait_for_probe_begin,
    sequence.increment.
  unfold cluster.local_node_address, cluster.local_node_port.
  unfold mbind, cluster.CM_bind, cluster.cget, cluster.cmodify, mret,
    cluster.CM_ret, cluster.craise. simpl.
  destruct (node_address (config (cluster._nodes c))) as [a|];
    [|destruct (bind_address (config (cluster._nodes c))) as [b|];
      [destruct (decide (b = "0.0.0.0"));
       [destruct (cluster.default_ip_address c) as [ip|]|]|]];
    simpl; try (by split_and!).
  all: destruct (node_port (config (cluster._nodes c))) as [p|];
    [|destruct (bind_port (config (cluster._nodes c))) as [p|]]; simpl.
  all: rewrite send_udp_message_run; by split_and!.
Qed.

(** X29: whatever message arrives over UDP, [_handle_udp_message] does
    not raise up to its first suspension, and it leaves the membership
    well formed when it found it so: the handlers of ALIVE, SUSPECT and
    DEAD keep the invariant whether they return or raise, the handlers
    of PING, PING-REQ, ACK and NACK touch the broadcast queue at most,
    and the callback of a user message is asked to keep it. *)
Theorem udp_dispatch_keeps_membership c
    (callback : option (Message → cluster.CM F unit)) (msg : Message)
    (rnd : nat) :
  membership_ok None (cluster._nodes c) →
  (∀ cb m c', callback = Some cb →
              membership_ok None (cluster._nodes c') →
              membership_ok None (cluster._nodes (snd (cb m c')))) →
  let r := cluster._handle_udp_message_begin callback msg rnd c in
  (∃ d, fst r = Ok d) ∧ membership_ok None (cluster._nodes (snd r)).
Proof.
  intros Hok Hcb. cbv zeta. unfold cluster._handle_udp_message_begin.
  cbv zeta.
  match goal with |- context [match ?h c with _ => _ end] =>
    set (handler := h) end.
  assert (Hh : membership_ok None (cluster._nodes (snd (handler c)))).
  { subst handler.
    destruct msg as [n a i md|n i sd|n i sd|sq n sd sa|sq n na sd sa|sq sd|sq sd
                    |data sd|rs];
      unfold mbind, cluster.CM_bind.
    - pose proof (nodes_call_ok
        (on_node_alive n i (address a) (messages.port a) md false rnd) c) as Hn.
      unfold cluster._handle_alive_message.
      destruct (cluster.nodes_call _ c) as [[[]|e] c1]; simpl in *; apply Hn.
      all: eapply wp_mono;
        [apply on_node_alive_ok; by apply membership_ok_but
        |by intros ? ? [? _]|done].
    - pose proof (nodes_call_ok (on_node_suspect n i ∅) c) as Hn.
      unfold cluster._handle_suspect_message.
      destruct (cluster.nodes_call _ c) as [[[]|e] c1]; simpl in *; apply Hn.
      all: by apply on_node_suspect_ok.
    - pose proof (nodes_call_ok (on_node_dead n i) c) as Hn.
      unfold cluster._handle_dead_message.
      destruct (cluster.nodes_call _ c) as [[[]|e] c1]; simpl in *; apply Hn.
      all: by apply on_node_dead_ok.
    - unfold cluster._handle_ping_message, mbind, cluster.CM_bind,
        cluster.cget.
      destruct (bool_decide _); [done|]. rewrite send_udp_message_run.
      eapply membership_ok_same_view; [apply sent_view|done].
    - pose proof (ping_request_begin_view c sq n na sa)
        as Hv.
      destruct (cluster._handle_ping_request_message_begin _ _ _ _ c)
        as [[next|e] c1]; simpl in *;
        by eapply membership_ok_same_view.
    - unfold cluster._handle_ack_message, mbind, cluster.CM_bind, cluster.cget.
      by destruct (cluster._probe_status c !! sq) as [[?|]|].
    - unfold cluster._handle_nack_message, mbind, cluster.CM_bind, cluster.cget.
      by destruct (cluster._probe_status c !! sq) as [[?|]|].
    - unfold cluster._handle_user_message, cluster.try_log.
      destruct callback as [cb|]; [|done].
      specialize (Hcb cb (UserMessage data sd) c eq_refl Hok).
      by destruct (cb (UserMessage data sd) c) as [[[]|e] c1].
    - done. }
  destruct (handler c) as [[d|e] c1]; simpl in *; split; eauto.
Qed.
(** X30: the relay of a PING-REQ, up to its suspension, takes the next
    value of its own probe sequence, sends to the address the PING-REQ
    gives for the target a PING with that number, the target's name and
    the relay's own name and address, and registers an unresolved
    waiter under that number, not under the number of the PING-REQ;
    when the local address cannot be determined it raises
    [RuntimeError] with only the sequence advanced. *)
Theorem ping_request_relayed c (seq : Z) (node : string)
    (node_addr sender_addr : InternetAddress) :
  let next_seq := fst (sequence.increment (cluster._probe_seq c)) in
  let c1 := cluster.with_probe_seq next_seq c in
  match fst (cluster.local_node_address c), fst (cluster.local_node_port c) with
  | Ok a, Ok p =>
      let ping := PingMessage next_seq node (cluster.local_node_name c)
                    {| address := a; messages.port := p |} in
      cluster._handle_ping_request_message_begin seq node node_addr
        sender_addr c
      = (Ok next_seq,
         cluster.with_probe_status
           (<[next_seq := None]> (cluster._probe_status c))
           (sent c1 ping (address node_addr) (messages.port node_addr)))
  | Raise e, _ =>
      e = RuntimeError
      ∧ cluster._handle_ping_request_message_begin seq node node_addr
          sender_addr c
        = (Raise RuntimeError, c1)
  | _, Raise _ => False
  end.
Proof.
  cbv zeta.
  unfold cluster._handle_ping_request_message_begin,
    cluster.probe_seq_increment, cluster._wait_for_probe_begin,
    sequence.increment.
  unfold cluster.local_node_address, cluster.local_node_port.
  unfold mbind, cluster.CM_bind, cluster.cget, cluster.cmodify, mret,
    cluster.CM_ret, cluster.craise. simpl.
  destruct (node_address (config (cluster._nodes c))) as [a|];
    [|destruct (bind_address (config (cluster._nodes c))) as [b|];
      [destruct (decide (b = "0.0.0.0"));
       [destruct (cluster.default_ip_address c) as [ip|]|]|]];
    simpl; try (split; done).
  all: destruct (node_port (config (cluster._nodes c))) as [p|];
    [|destruct (bind_port (config (cluster._nodes c))) as [p|]]; simpl.
  all: rewrite send_udp_message_run; done.
Qed.
End udp_dispatch.

(** ** The properties on the sample cluster *)

Section examples.
Import sample.

(** C8: after [start(); stop()], a second [start()] on the same Timer
    returns. *)
Lemma start_stop_start_returns :
  ¬ start_only_once [timer.CallStart; timer.CallStop; timer.CallStart]
      (timer.Timer_init 0%nat (QArith_base.inject_Z 1))
      {| timer.clock := QArith_base.inject_Z 0; timer.handles := [];
         timer.tasks := [] |}.
Proof.
  intros Hc. specialize (Hc 0%nat 2%nat).
  vm_compute in Hc. specialize (Hc (Nat.le_succ_diag_r 1) eq_refl eq_refl).
  discriminate Hc.
Qed.

Lemma nm_a_reachable : reachable nm_a.
Proof.
  exact (reach_advance _ _ (reach_init cfg (QArith_base.inject_Z 0))
           (adv_set_local _ "a" "10.0.0.1" 7946 ∅ 0%nat)).
Defined.

Lemma nm_ab_reachable : reachable nm_ab.
Proof.
  exact (reach_advance _ _ nm_a_reachable
           (adv_alive nm_a "b" 1 "10.0.0.2" 7946 ∅ false 0%nat)).
Defined.

Lemma nm_ab_suspect_reachable : reachable nm_ab_suspect.
Proof.
  exact (reach_advance _ _ nm_ab_reachable (adv_suspect nm_ab "b" 1 ∅)).
Defined.

(** C3 at the membership of [a] and the suspect [b]. *)
Lemma suspect_table_mirrors_status_witness :
  reachable nm_ab_suspect ∧ suspect_iff nm_ab_suspect.
Proof.
  split; [exact nm_ab_suspect_reachable|].
  exact (suspect_table_mirrors_status nm_ab_suspect nm_ab_suspect_reachable).
Defined.

(** C2: an ALIVE about the local node [a] with the incarnation [a] has
    merges its metadata into the record of [a]. *)
Lemma alive_local_same_incarnation_accepted :
  ¬ alive_needs_newer nm_a "a" 1 "10.0.0.1" 7946 {["k" := "v"]} false 0.
Proof.
  intros Hc. destruct (Hc 0%nat) as (_ & _ & Hmd).
  - by vm_compute.
  - by vm_compute.
  - apply (f_equal (λ m : gmap string string, m !! "k")) in Hmd.
    vm_compute in Hmd. discriminate Hmd.
Qed.

(** C2 at an ALIVE about [b] with the incarnation [b] has. *)
Lemma on_node_alive_stale_ignored_witness :
  _nodes_map nm_ab !! "b" = Some 1%nat
  ∧ alive_is_stale nm_ab 1%nat 1
  ∧ on_node_alive "b" 1 "10.0.0.2" 7946 ∅ false 0 nm_ab = (Ok tt, nm_ab).
Proof.
  assert (H1 : _nodes_map nm_ab !! "b" = Some 1%nat) by (by vm_compute).
  assert (H2 : alive_is_stale nm_ab 1%nat 1) by (by vm_compute).
  split_and!; [exact H1|exact H2|].
  exact (on_node_alive_stale_ignored nm_ab "b" 1 "10.0.0.2" 7946 ∅ false
           0%nat 1%nat H1 H2).
Defined.

(** C9 at an ALIVE about the unknown [b] with incarnation 0. *)
Lemma on_node_alive_unknown_stale_witness :
  reachable nm_a ∧ _nodes_map nm_a !! "b" = None ∧ 0 ≤ 0
  ∧ _status (node_at (snd (on_node_alive "b" 0 "10.0.0.2" 7946 ∅ false 0 nm_a))
                     (length (store nm_a)))
    = NODE_STATUS_DEAD.
Proof.
  assert (H1 : _nodes_map nm_a !! "b" = None) by (by vm_compute).
  assert (H2 : 0 ≤ 0) by lia.
  split_and!; [exact nm_a_reachable|exact H1|exact H2|].
  exact (proj1 (proj2 (proj2 (proj2 (proj2 (proj2 (proj2
           (on_node_alive_unknown_stale nm_a "b" 0 "10.0.0.2" 7946 ∅ false
              0%nat nm_a_reachable H1 H2)))))))).
Defined.

(** C5: with [suspicion_min_timeout_multi = 1] and two members, the
    record of the suspect [b] holds [k = -1]. *)
Lemma confirmations_not_floored :
  ¬ suspect_record_floored (snd (on_node_suspect "b" 1 ∅ nm_ab_multi_1)) "b".
Proof.
  intros Hc.
  assert (∃ sn, _suspect_nodes (snd (on_node_suspect "b" 1 ∅ nm_ab_multi_1)) !! "b"
                = Some sn ∧ k sn = -1) as (sn & Hsn & Hk).
  { eexists. split; by vm_compute. }
  specialize (Hc sn Hsn). rewrite Hk in Hc. vm_compute in Hc. discriminate Hc.
Qed.

(** C5 at the entry of [b] to SUSPECT. *)
Lemma create_suspect_node_timing_witness :
  _suspect_nodes nm_ab !! name (node_at nm_ab 1%nat) = None
  ∧ fst (_create_suspect_node 1%nat nm_ab) = Ok tt.
Proof.
  assert (H1 : _suspect_nodes nm_ab !! name (node_at nm_ab 1%nat) = None)
    by (by vm_compute).
  split; [exact H1|].
  exact (proj1 (create_suspect_node_timing nm_ab 1%nat H1)).
Defined.

(** C7 at an entry that reports [b] dead. *)
Lemma merge_remote_state_routing_witness :
  rs_status b_reported_dead = NODE_STATUS_DEAD
  ∧ cluster._merge_remote_state b_reported_dead 0 cluster_ab
    = cluster.nodes_call (on_node_suspect "b" 1 ∅) cluster_ab.
Proof.
  assert (H1 : rs_status b_reported_dead = NODE_STATUS_DEAD) by reflexivity.
  split; [exact H1|].
  exact (proj1 (proj2 (merge_remote_state_routing cluster_ab b_reported_dead
                         0%nat)) (or_intror H1)).
Defined.

(** C1 at the probe of [b] by [a], unanswered. *)
Lemma probe_node_failure_raises_witness :
  cluster._probe_status cluster_ab_probing !! 1 = Some None
  ∧ fst (cluster._probe_node_resume 1%nat 1 0 (λ _, 0%nat) cluster_ab_probing)
    = Raise TypeError.
Proof.
  assert (H1 : cluster._probe_status cluster_ab_probing !! 1 = Some None)
    by (by vm_compute).
  split; [exact H1|].
  exact (f_equal fst (proj1 (probe_node_failure_raises cluster_ab_probing
                               1%nat 1 0%nat (λ _, 0%nat)) H1)).
Defined.

(** C4 at the relayed probe of [b], unanswered. *)
Lemma ping_request_timeout_forwards_nothing_witness :
  cluster._probe_status cluster_ab_relaying !! 1 = Some None
  ∧ cluster._handle_ping_request_message_resume 7 addr_c 1 cluster_ab_relaying
    = (Ok tt,
       cluster.with_probe_status
         (delete 1 (cluster._probe_status cluster_ab_relaying))
         cluster_ab_relaying).
Proof.
  assert (H1 : cluster._probe_status cluster_ab_relaying !! 1 = Some None)
    by (by vm_compute).
  split; [exact H1|].
  exact (proj1 (ping_request_timeout_forwards_nothing cluster_ab_relaying
                  7 addr_c 1) H1).
Defined.

(** X1 at a Timer that has been started. *)
Lemma stop_disarms_witness :
  timer._handle timer_started = Some 0%nat
  ∧ let '(r, (t', rt')) := timer.stop timer_started runtime_started in
    r = Ok tt ∧ timer._handle t' = None
    ∧ timer.tasks rt' = timer.tasks runtime_started
    ∧ timer.run_handle 0%nat rt' = rt'.
Proof.
  assert (H1 : timer._handle timer_started = Some 0%nat) by reflexivity.
  split; [exact H1|].
  exact (stop_disarms timer_started runtime_started 0%nat H1).
Defined.

(** X3 at a Timer that has not been started. *)
Lemma started_timer_fires_once_witness :
  timer._handle timer_idle = None
  ∧ let '(r, (t', rt')) := timer.start timer_idle runtime_idle in
    r = Ok tt
    ∧ ∃ h, timer._handle t' = Some h
           ∧ timer.tasks (timer.run_handle h rt')
             = timer.tasks runtime_idle ++ [timer.func timer_idle]
           ∧ timer.run_handle h (timer.run_handle h rt')
             = timer.run_handle h rt'.
Proof.
  assert (H1 : timer._handle timer_idle = None) by reflexivity.
  split; [exact H1|].
  exact (started_timer_fires_once timer_idle runtime_idle H1).
Defined.

(** X4 at the membership of [a] and [b]. *)
Lemma swap_random_nodes_permutes_witness :
  _nodes nm_ab ≠ [] ∧ fst (_swap_random_nodes 0 nm_ab) = Ok tt.
Proof.
  assert (H1 : _nodes nm_ab ≠ []) by (by vm_compute).
  split; [exact H1|].
  exact (proj1 (swap_random_nodes_permutes 0%nat nm_ab H1)).
Defined.

(** X5 at an ALIVE about [b] from another host. *)
Lemma on_node_alive_address_conflict_witness :
  _nodes_map nm_ab !! "b" = Some 1%nat
  ∧ (host (node_at nm_ab 1%nat) ≠ "10.0.0.9"
     ∨ port (node_at nm_ab 1%nat) ≠ 7946)
  ∧ on_node_alive "b" 2 "10.0.0.9" 7946 ∅ false 0 nm_ab = (Ok tt, nm_ab).
Proof.
  assert (H1 : _nodes_map nm_ab !! "b" = Some 1%nat) by (by vm_compute).
  assert (H2 : host (node_at nm_ab 1%nat) ≠ "10.0.0.9"
               ∨ port (node_at nm_ab 1%nat) ≠ 7946)
    by (left; by vm_compute).
  split_and!; [exact H1|exact H2|].
  exact (on_node_alive_address_conflict nm_ab "b" 2 "10.0.0.9" 7946 ∅ false
           0%nat 1%nat H1 H2).
Defined.

(** X6 at a SUSPECT about [b] with an incarnation [b] has left behind. *)
Lemma on_node_suspect_ignored_witness :
  report_ignored nm_ab "b" 0
  ∧ on_node_suspect "b" 0 ∅ nm_ab = (Ok tt, nm_ab).
Proof.
  assert (H1 : report_ignored nm_ab "b" 0) by (right; by vm_compute).
  split; [exact H1|].
  exact (on_node_suspect_ignored nm_ab "b" 0 ∅ H1).
Defined.

(** X7 at a DEAD about a name [a] does not know. *)
Lemma on_node_dead_ignored_witness :
  report_ignored nm_ab "c" 1
  ∧ on_node_dead "c" 1 nm_ab = (Ok tt, nm_ab).
Proof.
  assert (H1 : report_ignored nm_ab "c" 1) by (by vm_compute).
  split; [exact H1|].
  exact (on_node_dead_ignored nm_ab "c" 1 H1).
Defined.

(** X8 at a SUSPECT about [a] itself. *)
Lemma local_report_refuted_witness :
  _nodes_map nm_ab !! "a" = Some 0%nat ∧ local_node nm_ab = Some 0%nat
  ∧ (0 < length (store nm_ab))%nat
  ∧ _status (node_at nm_ab 0%nat) ≠ NODE_STATUS_DEAD
  ∧ incarnation (node_at nm_ab 0%nat) ≤ 1
  ∧ fst (on_node_suspect "a" 1 ∅ nm_ab) = Ok tt
  ∧ refuted nm_ab 0%nat (snd (on_node_suspect "a" 1 ∅ nm_ab)).
Proof.
  assert (H1 : _nodes_map nm_ab !! "a" = Some 0%nat) by (by vm_compute).
  assert (H2 : local_node nm_ab = Some 0%nat) by (by vm_compute).
  assert (H3 : (0 < length (store nm_ab))%nat) by (vm_compute; lia).
  assert (H4 : _status (node_at nm_ab 0%nat) ≠ NODE_STATUS_DEAD)
    by (by vm_compute).
  assert (H5 : incarnation (node_at nm_ab 0%nat) ≤ 1) by (by vm_compute).
  split_and!; [exact H1|exact H2|exact H3|exact H4|exact H5|..];
    apply (proj1 (local_report_refuted nm_ab "a" 1 ∅ 0%nat H1 H2 H3 H4 H5)).
Defined.

(** X9 at an ALIVE about the unknown [c]. *)
Lemma on_node_alive_returns_witness :
  reachable nm_ab
  ∧ fst (on_node_alive "c" 1 "10.0.0.3" 7946 ∅ false 0 nm_ab) = Ok tt.
Proof.
  split; [exact nm_ab_reachable|].
  exact (proj1 (on_node_alive_returns nm_ab "c" 1 "10.0.0.3" 7946 ∅ false
                  0%nat nm_ab_reachable)).
Defined.

(** X10 at an ALIVE about the suspect [b] with a newer incarnation. *)
Lemma on_node_alive_accepted_witness :
  reachable nm_ab_suspect ∧ _nodes_map nm_ab_suspect !! "b" = Some 1%nat
  ∧ host (node_at nm_ab_suspect 1%nat) = "10.0.0.2"
  ∧ port (node_at nm_ab_suspect 1%nat) = 7946
  ∧ ¬ alive_is_stale nm_ab_suspect 1%nat 2
  ∧ fst (on_node_alive "b" 2 "10.0.0.2" 7946 ∅ false 0 nm_ab_suspect) = Ok tt.
Proof.
  assert (H1 : _nodes_map nm_ab_suspect !! "b" = Some 1%nat) by (by vm_compute).
  assert (H2 : host (node_at nm_ab_suspect 1%nat) = "10.0.0.2")
    by (by vm_compute).
  assert (H3 : port (node_at nm_ab_suspect 1%nat) = 7946) by (by vm_compute).
  assert (H4 : ¬ alive_is_stale nm_ab_suspect 1%nat 2)
    by (vm_compute; intros Hc; by apply Hc).
  split_and!; [exact nm_ab_suspect_reachable|exact H1|exact H2|exact H3
              |exact H4|].
  exact (proj1 (on_node_alive_accepted nm_ab_suspect "b" 2 "10.0.0.2" 7946 ∅
                  false 0%nat 1%nat nm_ab_suspect_reachable H1 H2 H3 H4)).
Defined.

(** X11 at an ALIVE about the unknown [c]. *)
Lemma on_node_alive_joins_witness :
  reachable nm_ab ∧ _nodes_map nm_ab !! "c" = None ∧ 0 < 1
  ∧ fst (on_node_alive "c" 1 "10.0.0.3" 7946 ∅ false 0 nm_ab) = Ok tt.
Proof.
  assert (H1 : _nodes_map nm_ab !! "c" = None) by (by vm_compute).
  assert (H2 : 0 < 1) by lia.
  split_and!; [exact nm_ab_reachable|exact H1|exact H2|].
  exact (proj1 (on_node_alive_joins nm_ab "c" 1 "10.0.0.3" 7946 ∅ false
                  0%nat nm_ab_reachable H1 H2)).
Defined.

(** X12 at a SUSPECT about [b]. *)
Lemma on_node_suspect_accepted_witness :
  reachable nm_ab ∧ _nodes_map nm_ab !! "b" = Some 1%nat
  ∧ _status (node_at nm_ab 1%nat) ≠ NODE_STATUS_DEAD
  ∧ incarnation (node_at nm_ab 1%nat) ≤ 1
  ∧ local_node nm_ab = Some 0%nat ∧ 0%nat ≠ 1%nat
  ∧ fst (on_node_suspect "b" 1 ∅ nm_ab) = Ok tt.
Proof.
  assert (H1 : _nodes_map nm_ab !! "b" = Some 1%nat) by (by vm_compute).
  assert (H2 : _status (node_at nm_ab 1%nat) ≠ NODE_STATUS_DEAD)
    by (by vm_compute).
  assert (H3 : incarnation (node_at nm_ab 1%nat) ≤ 1) by (by vm_compute).
  assert (H4 : local_node nm_ab = Some 0%nat) by (by vm_compute).
  assert (H5 : 0%nat ≠ 1%nat) by lia.
  split_and!; [exact nm_ab_reachable|exact H1|exact H2|exact H3|exact H4
              |exact H5|].
  exact (proj1 (on_node_suspect_accepted nm_ab "b" 1 ∅ 1%nat 0%nat
                  nm_ab_reachable H1 H2 H3 H4 H5)).
Defined.

(** X13 at a DEAD about [b]. *)
Lemma on_node_dead_accepted_witness :
  reachable nm_ab ∧ _nodes_map nm_ab !! "b" = Some 1%nat
  ∧ _status (node_at nm_ab 1%nat) ≠ NODE_STATUS_DEAD
  ∧ incarnation (node_at nm_ab 1%nat) ≤ 1
  ∧ (local_node nm_ab ≠ Some 1%nat ∨ _leaving nm_ab = true)
  ∧ local_node nm_ab = Some 0%nat
  ∧ fst (on_node_dead "b" 1 nm_ab) = Ok tt.
Proof.
  assert (H1 : _nodes_map nm_ab !! "b" = Some 1%nat) by (by vm_compute).
  assert (H2 : _status (node_at nm_ab 1%nat) ≠ NODE_STATUS_DEAD)
    by (by vm_compute).
  assert (H3 : incarnation (node_at nm_ab 1%nat) ≤ 1) by (by vm_compute).
  assert (H4 : local_node nm_ab ≠ Some 1%nat ∨ _leaving nm_ab = true)
    by (left; by vm_compute).
  assert (H5 : local_node nm_ab = Some 0%nat) by (by vm_compute).
  split_and!; [exact nm_ab_reachable|exact H1|exact H2|exact H3|exact H4
              |exact H5|].
  exact (proj1 (on_node_dead_accepted nm_ab "b" 1 1%nat 0%nat
                  nm_ab_reachable H1 H2 H3 H4 H5)).
Defined.

(** X14 at the suspicion of [b], whose timer holds the handle 0. *)
Lemma suspicion_expiry_declares_dead_witness :
  reachable nm_ab_suspect
  ∧ _nodes_map nm_ab_suspect !! name (node_at nm_ab_suspect 1%nat) = Some 1%nat
  ∧ suspicion_pending nm_ab_suspect 1%nat 0%nat
  ∧ timer.tasks (runtime nm_ab_suspect) = []
  ∧ local_node nm_ab_suspect = Some 0%nat ∧ 0%nat ≠ 1%nat
  ∧ fst (run_task (with_runtime (timer.run_handle 0%nat (runtime nm_ab_suspect))
                     nm_ab_suspect)) = Ok tt.
Proof.
  assert (H1 : _nodes_map nm_ab_suspect !! name (node_at nm_ab_suspect 1%nat)
               = Some 1%nat) by (by vm_compute).
  assert (H2 : suspicion_pending nm_ab_suspect 1%nat 0%nat).
  { eexists _, _. split_and!; by vm_compute. }
  assert (H3 : timer.tasks (runtime nm_ab_suspect) = []) by (by vm_compute).
  assert (H4 : local_node nm_ab_suspect = Some 0%nat) by (by vm_compute).
  assert (H5 : 0%nat ≠ 1%nat) by lia.
  split_and!; [exact nm_ab_suspect_reachable|exact H1|exact H2|exact H3
              |exact H4|exact H5|].
  exact (proj1 (suspicion_expiry_declares_dead nm_ab_suspect 1%nat 0%nat 0%nat
                  nm_ab_suspect_reachable H1 H2 H3 H4 H5)).
Defined.

(** X15 at the membership of [a] and [b], [a] leaving. *)
Lemma leave_local_node_outcome_witness :
  reachable nm_ab ∧ local_node nm_ab = Some 0%nat
  ∧ _status (node_at nm_ab 0%nat) ≠ NODE_STATUS_DEAD
  ∧ fst (leave_local_node nm_ab) = Ok tt.
Proof.
  assert (H1 : local_node nm_ab = Some 0%nat) by (by vm_compute).
  assert (H2 : _status (node_at nm_ab 0%nat) ≠ NODE_STATUS_DEAD)
    by (by vm_compute).
  split_and!; [exact nm_ab_reachable|exact H1|exact H2|].
  exact (proj1 (proj2 (leave_local_node_outcome nm_ab nm_ab_reachable)
                  0%nat H1 H2)).
Defined.

(** X16 at the start of [a]. *)
Lemma set_local_node_joins_witness :
  reachable (NodeManager_init cfg (QArith_base.inject_Z 0))
  ∧ _nodes_map (NodeManager_init cfg (QArith_base.inject_Z 0)) !! "a" = None
  ∧ fst (set_local_node "a" "10.0.0.1" 7946 ∅ 0
           (NodeManager_init cfg (QArith_base.inject_Z 0))) = Ok tt.
Proof.
  assert (H1 : _nodes_map (NodeManager_init cfg (QArith_base.inject_Z 0)) !! "a"
               = None) by reflexivity.
  split_and!; [exact (reach_init cfg (QArith_base.inject_Z 0))|exact H1|].
  exact (proj1 (set_local_node_joins _ "a" "10.0.0.1" 7946 ∅ 0%nat
                  (reach_init cfg (QArith_base.inject_Z 0)) H1)).
Defined.

(** X17 at a DEAD about [b]. *)
Lemma members_never_removed_witness :
  reachable nm_ab ∧ advance nm_ab (snd (on_node_dead "b" 1 nm_ab))
  ∧ members_kept nm_ab (snd (on_node_dead "b" 1 nm_ab)).
Proof.
  split_and!; [exact nm_ab_reachable|exact (adv_dead nm_ab "b" 1)|].
  exact (members_never_removed nm_ab _ nm_ab_reachable (adv_dead nm_ab "b" 1)).
Defined.

(** X18 at the membership of [a] and [b]. *)
Lemma getitem_by_index_and_name_witness :
  reachable nm_ab
  ∧ ∀ i, ¬ (- Z.of_nat (__len__ nm_ab) ≤ i < Z.of_nat (__len__ nm_ab)) →
         __getitem__ (PInt i) nm_ab = (Raise IndexError, nm_ab).
Proof.
  split; [exact nm_ab_reachable|].
  exact (proj1 (proj2 (getitem_by_index_and_name nm_ab nm_ab_reachable))).
Defined.

(** X19 at the membership of [a] and [b]. *)
Lemma len_counts_members_witness :
  reachable nm_ab ∧ __len__ nm_ab = size (_nodes_map nm_ab).
Proof.
  split; [exact nm_ab_reachable|].
  exact (len_counts_members nm_ab nm_ab_reachable).
Defined.

(** X22 at the probe of [b] by [a], answered. *)
Lemma acked_probe_leaves_membership_witness :
  cluster._probe_status cluster_ab_acked !! 1 = Some (Some true)
  ∧ cluster._probe_node_resume 1%nat 1 0 (λ _, 0%nat) cluster_ab_acked
    = (if bool_decide (_status (node_at (cluster._nodes cluster_ab_acked) 1%nat)
                       = NODE_STATUS_SUSPECT)
       then Raise TypeError else Ok tt,
       cluster.with_probe_status
         (delete 1 (cluster._probe_status cluster_ab_acked)) cluster_ab_acked).
Proof.
  assert (H1 : cluster._probe_status cluster_ab_acked !! 1 = Some (Some true))
    by (by vm_compute).
  split; [exact H1|].
  exact (acked_probe_leaves_membership cluster_ab_acked 1%nat 1 0%nat
           (λ _, 0%nat) H1).
Defined.

(** X27 at the entry of [b] in the snapshot of [a]. *)
Lemma merge_own_snapshot_unchanged_witness :
  reachable (cluster._nodes cluster_ab)
  ∧ _nodes (cluster._nodes cluster_ab) !! 0%nat = Some 1%nat
  ∧ cluster.local_state cluster_ab !! 0%nat
    = Some (snapshot_of (node_at nm_ab 1%nat))
  ∧ (rs_status (snapshot_of (node_at nm_ab 1%nat)) = NODE_STATUS_DEAD
     ∨ (rs_status (snapshot_of (node_at nm_ab 1%nat)) = NODE_STATUS_ALIVE
        ∧ local_node (cluster._nodes cluster_ab) ≠ Some 1%nat))
  ∧ cluster._merge_remote_state (snapshot_of (node_at nm_ab 1%nat)) 0
      cluster_ab = (Ok tt, cluster_ab).
Proof.
  assert (H1 : _nodes (cluster._nodes cluster_ab) !! 0%nat = Some 1%nat)
    by (by vm_compute).
  assert (H2 : cluster.local_state cluster_ab !! 0%nat
               = Some (snapshot_of (node_at nm_ab 1%nat))) by (by vm_compute).
  assert (H3 : rs_status (snapshot_of (node_at nm_ab 1%nat)) = NODE_STATUS_DEAD
               ∨ (rs_status (snapshot_of (node_at nm_ab 1%nat))
                  = NODE_STATUS_ALIVE
                  ∧ local_node (cluster._nodes cluster_ab) ≠ Some 1%nat)).
  { right. split; by vm_compute. }
  split_and!; [exact nm_ab_reachable|exact H1|exact H2|exact H3|].
  exact (proj2 (merge_own_snapshot_unchanged cluster_ab 0%nat 1%nat _ 0%nat
                  nm_ab_reachable H1 H2 H3)).
Defined.

(** X29 at a SUSPECT about [b] that [c] sends to [a], no callback being
    registered. *)
Lemma udp_dispatch_keeps_membership_witness :
  membership_ok None (cluster._nodes cluster_ab)
  ∧ (∀ (cb : Message → cluster.CM QArith_base.Q unit) m c',
       None = Some cb →
       membership_ok None (cluster._nodes c') →
       membership_ok None (cluster._nodes (snd (cb m c'))))
  ∧ membership_ok None
      (cluster._nodes
         (snd (cluster._handle_udp_message_begin None
                 (SuspectMessage "b" 1 "c") 0 cluster_ab))).
Proof.
  assert (H1 : membership_ok None (cluster._nodes cluster_ab))
    by exact (reachable_ok nm_ab nm_ab_reachable).
  assert (H2 : ∀ (cb : Message → cluster.CM QArith_base.Q unit) m c',
            None = Some cb →
            membership_ok None (cluster._nodes c') →
            membership_ok None (cluster._nodes (snd (cb m c'))))
    by (intros cb m c' Hcb; discriminate Hcb).
  split_and!; [exact H1|exact H2|].
  exact (proj2 (udp_dispatch_keeps_membership cluster_ab None
                  (SuspectMessage "b" 1 "c") 0%nat H1 H2)).
Defined.
End examples.
